(** * ClickSafe: risk tiers, public scam feed and input guards

    A shallow embedding of the decision logic of the ClickSafe front end
    (pages/Home.jsx, the PhishingDetector and QRScanner pages) together
    with the theorems that relate it to the written specification of the
    threat assessment engine.

    Conventions of the embedding.
    - A JavaScript string is a [string]: a sequence of code units, here
      the code units below 256 (Latin-1), for which [toLowerCase], the
      classes [\w] and [\s] and [trim] are given in full.  Text in other
      scripts is outside the embedding.
    - A JavaScript number is a rational [Q]: the value of a finite
      double, or the decimal value of a number of a JSON answer,
      compared exactly.  Where a page rounds a product to an integer
      or draws it, the product is that of doubles ([JsNumber]).  NaN
      and the infinities are outside the embedding.  Lengths are
      [nat].
    - Array indices are [Z], since [findIndex] answers [-1]. *)

From Stdlib Require Import QArith Qround Qpower Qabs ZArith String Ascii.
From Stdlib Require Import DecimalString List Lia Lqa Bool.
From stdpp Require Import base list strings gmap.

Local Open Scope string_scope.

(** ** JavaScript strings *)

Module JsString.

Definition code (c : ascii) : N := N_of_ascii c.

(** [\w] without the [u] flag: [A-Za-z0-9_]. *)
Definition isWordChar (c : ascii) : bool :=
  let n := code c in
  ((48 <=? n) && (n <=? 57) || (65 <=? n) && (n <=? 90)
   || (97 <=? n) && (n <=? 122) || (n =? 95))%N.

(** [\s], which is also the set [trim] removes: TAB, LF, VT, FF, CR,
    SPACE and NO-BREAK SPACE are its members below 256. *)
Definition isWhiteSpace (c : ascii) : bool :=
  let n := code c in
  ((9 <=? n) && (n <=? 13) || (n =? 32) || (n =? 160))%N.

(** Upper-case letters below 256: [A-Z] and U+00C0..U+00DE except the
    multiplication sign U+00D7; each has its lower-case form 32 above. *)
Definition isUpper (c : ascii) : bool :=
  let n := code c in
  ((65 <=? n) && (n <=? 90)
   || (192 <=? n) && (n <=? 222) && negb (n =? 215))%N.

Definition toLowerChar (c : ascii) : ascii :=
  if isUpper c then ascii_of_N (code c + 32) else c.

(** [s.toLowerCase()] *)
Fixpoint toLowerCase (s : string) : string :=
  match s with
  | EmptyString => EmptyString
  | String c s' => String (toLowerChar c) (toLowerCase s')
  end.

(** [s.replace(/[^...]/g, '')]: delete every code unit outside the
    class [keep]. *)
Fixpoint removeOutside (keep : ascii -> bool) (s : string) : string :=
  match s with
  | EmptyString => EmptyString
  | String c s' =>
      if keep c then String c (removeOutside keep s')
      else removeOutside keep s'
  end.

(** [s.replace(/\s+/g, ' ')]: every maximal run of white space becomes
    one SPACE.  [inRun] tells that the previous code unit was white
    space, so that the run has already been replaced. *)
Fixpoint collapseFrom (inRun : bool) (s : string) : string :=
  match s with
  | EmptyString => EmptyString
  | String c s' =>
      if isWhiteSpace c
      then (if inRun then collapseFrom true s'
            else String " " (collapseFrom true s'))
      else String c (collapseFrom false s')
  end.

Definition collapseWhiteSpace (s : string) : string := collapseFrom false s.

Fixpoint trimStart (s : string) : string :=
  match s with
  | EmptyString => EmptyString
  | String c s' => if isWhiteSpace c then trimStart s' else s
  end.

Fixpoint trimEnd (s : string) : string :=
  match s with
  | EmptyString => EmptyString
  | String c s' =>
      let r := trimEnd s' in
      if isWhiteSpace c && String.eqb r EmptyString then EmptyString
      else String c r
  end.

(** [s.trim()] *)
Definition trim (s : string) : string := trimEnd (trimStart s).

(** [s.startsWith(p)] *)
Definition startsWith (s p : string) : bool := String.prefix p s.

(** [s.includes(t)]: [t] occurs in [s] as a run of consecutive code
    units. *)
Fixpoint includes (s t : string) : bool :=
  String.prefix t s
  || match s with
     | EmptyString => false
     | String _ s' => includes s' t
     end.

(** [s.substring(0, n)] for [0 <= n]. *)
Definition substring0 (n : nat) (s : string) : string := String.substring 0 n s.

End JsString.

(** ** JavaScript arrays *)

Module JsArray.

Section Combinators.
Context {A : Type}.

Fixpoint findIndexFrom (p : A -> bool) (i : Z) (l : list A) : Z :=
  match l with
  | [] => (-1)%Z
  | x :: l' => if p x then i else findIndexFrom p (i + 1)%Z l'
  end.

(** [array.findIndex(p)]: the index of the first element satisfying
    [p], or [-1]. *)
Definition findIndex (p : A -> bool) (array : list A) : Z :=
  findIndexFrom p 0%Z array.

Fixpoint filterFrom (p : A -> Z -> list A -> bool) (array : list A)
         (i : Z) (l : list A) : list A :=
  match l with
  | [] => []
  | x :: l' =>
      if p x i array then x :: filterFrom p array (i + 1)%Z l'
      else filterFrom p array (i + 1)%Z l'
  end.

(** [array.filter((element, index, array) => ...)] *)
Definition filterIndexed (p : A -> Z -> list A -> bool) (array : list A)
  : list A :=
  filterFrom p array 0%Z array.

(** [array.slice(start, end)], negative arguments counted from the
    end of the array as JavaScript does. *)
Definition slice (start stop : Z) (array : list A) : list A :=
  let len := Z.of_nat (length array) in
  let rel (k : Z) := if (k <? 0)%Z then Z.max (len + k) 0 else Z.min k len in
  let from := rel start in
  let to := rel stop in
  take (Z.to_nat (Z.max (to - from) 0)) (drop (Z.to_nat from) array).

End Combinators.

End JsArray.

(** ** JavaScript numbers: the doubles *)

Module JsNumber.

(** [2^k] *)
Definition pow2 (k : Z) : Q := (2 ^ k)%Q.

(** The exponent of the greatest power of two at or below a positive
    rational. *)
Definition ilog2 (q : Q) : Z :=
  let k := (Z.log2 (Qnum q) - Z.log2 (Z.pos (Qden q)))%Z in
  if Qle_bool (pow2 k) q then k else (k - 1)%Z.

(** The exponent of the unit in the last place of the doubles next to
    a positive rational: 53 significant bits, and no unit below
    [2^-1074]. *)
Definition exponent (q : Q) : Z := Z.max (-1074) (ilog2 q - 52).

(** The nearest integer, the even one of two that are as near. *)
Definition nearestEven (x : Q) : Z :=
  let f := Qfloor x in
  match (x - inject_Z f ?= 1 # 2)%Q with
  | Lt => f
  | Gt => (f + 1)%Z
  | Eq => if Z.even f then f else (f + 1)%Z
  end.

Definition roundPositive (q : Q) : Q :=
  (inject_Z (nearestEven (q / pow2 (exponent q))) * pow2 (exponent q))%Q.

(** The double nearest to a rational, ties to the even significand,
    as IEEE 754 rounds the result of an operation and as a decimal
    numeral is read.  Below [2^1024], where the doubles are finite. *)
Definition round (q : Q) : Q :=
  match (q ?= 0)%Q with
  | Eq => 0
  | Gt => roundPositive q
  | Lt => - roundPositive (- q)
  end.

(** The finite doubles, without the bound above on their magnitude:
    an integer significand of at most 53 bits times a power of two
    not below [2^-1074]. *)
Definition isDouble (d : Q) : Prop :=
  exists m e : Z,
    (-1074 <= e)%Z /\ (Z.abs m < 2 ^ 53)%Z /\ (d == inject_Z m * pow2 e)%Q.

(** The Number that a decimal numeral of a JSON answer is read as. *)
Definition number (q : Q) : Q := round q.

(** [a * b] on Numbers. *)
Definition mul (a b : Q) : Q := round (a * b).

End JsNumber.

(** ** pages/Home.jsx: the public feed of recent scams *)

Module Home.
Import JsString JsArray.

(** One element of the array answered by [/scans/recent-scams/public],
    with the fields the page reads. *)
Record Scam := mkScam {
  id : Z;
  classification : string;
  risk_score : Q;
  anonymized_content : string;
  scan_count : Z;
  suspicious_terms : list string
}.

(** [a > b] and [a >= b] on numbers. *)
Definition gtb (a b : Q) : bool := negb (Qle_bool a b).
Definition geb (a b : Q) : bool := Qle_bool b a.

(** [Math.round(x)]: the integer nearest to [x], halves upwards. *)
Definition Math_round (x : Q) : Z := Qfloor (x + (1 # 2)).

Definition isDangerousClassification (scam : Scam) : bool :=
  String.eqb (classification scam) "dangerous"
  || String.eqb (classification scam) "high"
  || String.eqb (classification scam) "critical".

(** [scam.risk_score > 1 ? scam.risk_score : scam.risk_score * 100],
    as written in the filter of [fetchRecentScams]. *)
Definition riskScore (scam : Scam) : Q :=
  if gtb (risk_score scam) 1 then risk_score scam
  else (risk_score scam * 100)%Q.

Definition isHighRiskScore (scam : Scam) : bool := geb (riskScore scam) 70.

(** The callback of [scams.filter] that builds [dangerousScams]. *)
Definition isDangerous (scam : Scam) : bool :=
  isDangerousClassification scam && isHighRiskScore scam.

Definition dangerousScams (scams : list Scam) : list Scam :=
  List.filter isDangerous scams.

Definition normalizeContent (content : string) : string :=
  trim
    (collapseWhiteSpace
       (removeOutside (fun c => isWordChar c || isWhiteSpace c)
          (toLowerCase content))).

(** [minLength / maxLength].  Between quotients of string lengths and
    0.8 the comparison of doubles and the exact one agree: a quotient
    above 4/5 exceeds it by at least [1 / (5 * maxLength)], far more
    than the rounding of a double for any string that fits in memory. *)
Definition lengthRatio (minLength maxLength : nat) : Q :=
  (inject_Z (Z.of_nat minLength) / inject_Z (Z.of_nat maxLength))%Q.

(** The test between the two normalized contents inside the callback
    of [array.findIndex]. *)
Definition similarNormalized (currentNormalized otherNormalized : string)
  : bool :=
  if String.eqb currentNormalized otherNormalized then true
  else
    let minLength :=
      Nat.min (String.length currentNormalized)
              (String.length otherNormalized) in
    let maxLength :=
      Nat.max (String.length currentNormalized)
              (String.length otherNormalized) in
    if (20 <? minLength)%nat then
      if gtb (lengthRatio minLength maxLength) 0.8 then
        includes currentNormalized otherNormalized
        || includes otherNormalized currentNormalized
      else false
    else false.

(** The callback of [array.findIndex] for the entry whose normalized
    content is [currentNormalized]. *)
Definition similarTo (currentNormalized : string) (otherScam : Scam) : bool :=
  let otherNormalized := normalizeContent (anonymized_content otherScam) in
  similarNormalized currentNormalized otherNormalized.

(** The near-duplicate test between two entries of the feed. *)
Definition similar (scam otherScam : Scam) : bool :=
  similarTo (normalizeContent (anonymized_content scam)) otherScam.

(** The callback of [dangerousScams.filter] that builds
    [deduplicatedScams]. *)
Definition isFirstOccurrence (scam : Scam) (index : Z) (array : list Scam)
  : bool :=
  let currentNormalized := normalizeContent (anonymized_content scam) in
  let firstIndex := findIndex (similarTo currentNormalized) array in
  (firstIndex =? index)%Z.

Definition deduplicatedScams (dangerous : list Scam) : list Scam :=
  filterIndexed isFirstOccurrence dangerous.

(** [scamsPerPage], a state cell that is never set again. *)
Definition scamsPerPage : Z := 3.

(** [Math.ceil(n / scamsPerPage)] for an array length [n]. *)
Definition pageCount (n : nat) : Z :=
  ((Z.of_nat n + scamsPerPage - 1) / scamsPerPage)%Z.

(** [updateDisplayedScams(scams, page)]: the array it hands to
    [setRecentScams]. *)
Definition updateDisplayedScams (scams : list Scam) (page : Z) : list Scam :=
  let startIndex := (page * scamsPerPage)%Z in
  let endIndex := (startIndex + scamsPerPage)%Z in
  slice startIndex endIndex scams.

(** The state cells of the component that the feed depends on. *)
Record State := mkState {
  recentScams : list Scam;
  allScams : list Scam;
  currentPage : Z;
  loadingScams : bool
}.

Definition initial : State :=
  {| recentScams := []; allScams := []; currentPage := 0;
     loadingScams := true |}.

(** What can happen to the component.  [FetchStart showLoading] is
    the part of [fetchRecentScams] before the request is awaited.
    [FetchOk showLoading seenPage scams] is the rest of a run whose
    request succeeded with the array [scams]; [seenPage] is the value
    of [currentPage] in the closure that runs (the timer keeps the
    closure of the first render).  [FetchFailed] is the rest of a run
    that answered a non-ok status or threw.  [PageEffect] is the
    effect on [currentPage, allScams]. *)
Inductive Event :=
| FetchStart (showLoading : bool)
| FetchOk (showLoading : bool) (seenPage : Z) (scams : list Scam)
| FetchFailed (showLoading : bool)
| PageEffect
| PreviousPage
| NextPage.

Definition step (st : State) (e : Event) : State :=
  match e with
  | FetchStart showLoading =>
      {| recentScams := recentScams st;
         allScams := allScams st;
         currentPage := currentPage st;
         loadingScams := if showLoading then true else loadingScams st |}
  | FetchOk showLoading seenPage scams =>
      let deduplicated := deduplicatedScams (dangerousScams scams) in
      let maxPages := pageCount (length deduplicated) in
      let newCurrentPage := if (seenPage >=? maxPages)%Z then 0%Z else seenPage in
      {| recentScams := updateDisplayedScams deduplicated newCurrentPage;
         allScams := deduplicated;
         currentPage :=
           if (newCurrentPage =? seenPage)%Z then currentPage st
           else newCurrentPage;
         loadingScams := if showLoading then false else loadingScams st |}
  | FetchFailed showLoading =>
      {| recentScams := recentScams st;
         allScams := allScams st;
         currentPage := currentPage st;
         loadingScams := if showLoading then false else loadingScams st |}
  | PageEffect =>
      if (0 <? length (allScams st))%nat then
        {| recentScams := updateDisplayedScams (allScams st) (currentPage st);
           allScams := allScams st;
           currentPage := currentPage st;
           loadingScams := loadingScams st |}
      else st
  | PreviousPage =>
      {| recentScams := recentScams st;
         allScams := allScams st;
         currentPage := Z.max 0 (currentPage st - 1);
         loadingScams := loadingScams st |}
  | NextPage =>
      let maxPage := (pageCount (length (allScams st)) - 1)%Z in
      {| recentScams := recentScams st;
         allScams := allScams st;
         currentPage := Z.min maxPage (currentPage st + 1);
         loadingScams := loadingScams st |}
  end.

(** The states the component reaches from its first render. *)
Inductive reachable : State -> Prop :=
| reachable_initial : reachable initial
| reachable_step st e : reachable st -> reachable (step st e).

(** The cards of the section "Recent Scam Alerts": the section is
    rendered when [!loadingScams && recentScams.length > 0], with one
    card per element of [recentScams]. *)
Definition shownAlerts (st : State) : list Scam :=
  if negb (loadingScams st) && (0 <? length (recentScams st))%nat
  then recentScams st else [].

(** [scam.risk_score > 1 ? scam.risk_score : scam.risk_score * 100]
    as the card evaluates it, on the double that the stored score is:
    the number that [Math.round] brings to the badge "Risk Score",
    and whose comparison with 70 picks the colour of the badge. *)
Definition shownRiskScore (scam : Scam) : Q :=
  let score := JsNumber.number (risk_score scam) in
  if gtb score 1 then score else JsNumber.mul score 100.

Definition shownPercent (scam : Scam) : Z := Math_round (shownRiskScore scam).

End Home.

(** ** The PhishingDetector page *)

Module PhishingDetector.
Import JsString.

(** The JSON object answered by [scansAPI.createScan] and by
    [/predict].  A field that is absent, [undefined] or [null] is
    [None]. *)
Record Response := mkResponse {
  r_classification : option string;
  r_risk_score : option Q;
  r_language : option string;
  r_explanation : option string;
  r_suspicious_terms : option (list string);
  r_is_safe : option bool
}.

(** The object kept in the state cell [result]. *)
Record Result := mkResult {
  prediction : string;
  confidence : Q;
  risk_score : Q;
  language : string;
  explanation : string;
  suspicious_terms : list string;
  classification : string;
  is_safe : bool
}.

(** [v || d] for a string field: the empty string is falsy. *)
Definition orString (v : option string) (d : string) : string :=
  match v with
  | Some s => if String.eqb s "" then d else s
  | None => d
  end.

(** [v || d] for a numeric field: zero is falsy. *)
Definition orNumber (v : option Q) (d : Q) : Q :=
  match v with
  | Some q => if Qeq_bool q 0 then d else q
  | None => d
  end.

(** [v || d] for an array field: every array is truthy. *)
Definition orArray (v : option (list string)) (d : list string) : list string :=
  match v with
  | Some l => l
  | None => d
  end.

(** [v === s] for a string field. *)
Definition isString (v : option string) (s : string) : bool :=
  match v with
  | Some x => String.eqb x s
  | None => false
  end.

(** [v === true] *)
Definition isTrue (v : option bool) : bool :=
  match v with
  | Some true => true
  | _ => false
  end.

(** The three object literals given to [setResult] in
    [analyzeMessage]: after [scansAPI.createScan], after the fallback
    request, and after the request of a visitor who is not logged in. *)
Definition resultOfScan (scanResult : Response) : Result :=
  {| prediction := orString (r_classification scanResult) "unknown";
     confidence := orNumber (r_risk_score scanResult) 0;
     risk_score := orNumber (r_risk_score scanResult) 0;
     language := orString (r_language scanResult) "english";
     explanation := orString (r_explanation scanResult) "Analysis completed";
     suspicious_terms := orArray (r_suspicious_terms scanResult) [];
     classification := orString (r_classification scanResult) "unknown";
     is_safe := isString (r_classification scanResult) "safe"
                || isTrue (r_is_safe scanResult) |}.

Definition resultOfFallback (data : Response) : Result :=
  {| prediction := orString (r_classification data) "unknown";
     confidence := orNumber (r_risk_score data) 0;
     risk_score := orNumber (r_risk_score data) 0;
     language := orString (r_language data) "english";
     explanation := orString (r_explanation data) "Analysis completed";
     suspicious_terms := orArray (r_suspicious_terms data) [];
     classification := orString (r_classification data) "unknown";
     is_safe := isString (r_classification data) "safe" |}.

Definition resultOfDirect (data : Response) : Result :=
  {| prediction := orString (r_classification data) "unknown";
     confidence := orNumber (r_risk_score data) 0;
     risk_score := orNumber (r_risk_score data) 0;
     language := orString (r_language data) "english";
     explanation := orString (r_explanation data) "Analysis completed";
     suspicious_terms := orArray (r_suspicious_terms data) [];
     classification := orString (r_classification data) "unknown";
     is_safe := isString (r_classification data) "safe"
                || isTrue (r_is_safe data) |}.

(** How a call of the API ends. *)
Inductive CallOutcome :=
| Threw (message : string)
| Returned (scanResult : Response).

(** How [fetch('http://localhost:8000/predict', ...)] ends: the
    promise is rejected, or a response arrives with its [ok] flag, its
    status and its JSON body. *)
Inductive FetchOutcome :=
| Rejected (message : string)
| Responded (ok : bool) (status : nat) (data : Response).

(** What surrounds one run of [analyzeMessage]. *)
Record Env := mkEnv {
  isAuthenticated : bool;
  user : bool;
  createScan : string -> string -> CallOutcome;
  predict : string -> FetchOutcome
}.

(** What a run does, in the order it does it. *)
Inductive Effect :=
| SetError (message : string)
| SetLoading (loading : bool)
| SetResult (result : option Result)
| CallCreateScan (content scan_type : string)
| CallPredict (message : string)
| CallFetchScanHistory.

Definition numberToString (n : nat) : string :=
  NilEmpty.string_of_uint (Nat.to_uint n).

Definition analysisFailed (errMessage : string) : Effect :=
  SetError ("Analysis failed: " ++ errMessage ++ ". Please try again.").

(** The request to [/predict] and what follows it inside the outer
    [try]; [transform] is the object literal of the branch and [after]
    what the branch does once the result is set. *)
Definition predictThen (env : Env) (message : string)
           (transform : Response -> Result) (after : list Effect)
  : list Effect :=
  CallPredict (trim message)
  :: match predict env (trim message) with
     | Rejected m => [analysisFailed m]
     | Responded false status _ =>
         [analysisFailed ("API Error: " ++ numberToString status)]
     | Responded true _ data =>
         SetResult (Some (transform data)) :: after
     end.

Definition refreshHistory (env : Env) : list Effect :=
  if isAuthenticated env && user env then [CallFetchScanHistory] else [].

Definition analyzeMessage (env : Env) (message : string) : list Effect :=
  if String.eqb (trim message) "" then
    [SetError "Please enter a message to analyze"]
  else
    [SetLoading true; SetError ""; SetResult None]
    ++ (if isAuthenticated env && user env then
          CallCreateScan (trim message) "message"
          :: match createScan env (trim message) "message" with
             | Returned scanResult =>
                 SetResult (Some (resultOfScan scanResult))
                 :: refreshHistory env
             | Threw _ => predictThen env message resultOfFallback []
             end
        else predictThen env message resultOfDirect (refreshHistory env))
    ++ [SetLoading false].

(** The calls of the analysis services among the effects of a run. *)
Definition isAnalysisCall (e : Effect) : bool :=
  match e with
  | CallCreateScan _ _ | CallPredict _ => true
  | _ => false
  end.

(** [maxLength={5000}] of the textarea the message is typed in. *)
Definition maxLength : nat := 5000.

(** [onChange={(e) => setMessage(e.target.value)}]: the message after
    the handler ran on the value of the control. *)
Definition onChange (value : string) : string := value.

(** An entry of the scan history, with the two fields that
    [handleHistoryClick] reads for the message. *)
Record HistoryScan := mkHistoryScan {
  h_content : option string;
  h_message : option string
}.

(** [setMessage(scan.content || scan.message || '')] of
    [handleHistoryClick]: the message after the handler ran. *)
Definition historyMessage (scan : HistoryScan) : string :=
  orString (h_content scan) (orString (h_message scan) "").

(** What a call of the analysis is given to analyse. *)
Definition sentContent (e : Effect) : option string :=
  match e with
  | CallCreateScan content _ => Some content
  | CallPredict message => Some message
  | _ => None
  end.

Definition ltb (a b : Q) : bool := negb (Qle_bool b a).
Definition geb (a b : Q) : bool := Qle_bool b a.

Definition getRiskColor (riskScore : Q) : string :=
  if ltb riskScore 30 then "text-green-600"
  else if ltb riskScore 70 then "text-yellow-600"
  else "text-red-600".

Definition getRiskBgColor (riskScore : Q) : string :=
  if ltb riskScore 30 then "bg-green-50 border-green-200"
  else if ltb riskScore 70 then "bg-yellow-50 border-yellow-200"
  else "bg-red-50 border-red-200".

(** [isHighRisk] of this page, which shows the button of the CERT
    report: [result?.risk_score || 0] compared with 50. *)
Definition isHighRisk (result : option Result) : bool :=
  let riskScore := orNumber (option_map risk_score result) 0 in
  let shouldShow := geb riskScore 50 in
  shouldShow.

End PhishingDetector.

(** ** The QRScanner page *)

Module QRScanner.
Import JsString.

(** A [File] of the file input: its MIME type and its size in bytes. *)
Record File := mkFile {
  type : string;
  size : Z
}.

Record CombinedAssessment := mkCombined {
  final_risk_level : option string;
  final_risk_score : option Q
}.

(** The state cell [scanResult], with the field [isHighRisk] reads. *)
Record ScanResult := mkScanResult {
  combined_assessment : option CombinedAssessment
}.

Inductive Effect :=
| SetError (message : string)
| AnalyzeQRCode (imageData : File).

(** [event.target.files] is given as a list; [files[0]] is its head. *)
Definition handleFileUpload (files : list File) : list Effect :=
  match files with
  | [] => []
  | file :: _ =>
      if negb (startsWith (type file) "image/") then
        [SetError "Please select an image file"]
      else if (size file >? 10 * 1024 * 1024)%Z then
        [SetError "File too large. Maximum size is 10MB"]
      else [AnalyzeQRCode file]
  end.

Definition isSubmission (e : Effect) : bool :=
  match e with
  | AnalyzeQRCode _ => true
  | SetError _ => false
  end.

(** [scanResult?.combined_assessment?.final_risk_level || ''] *)
Definition riskLevelOf (scanResult : option ScanResult) : string :=
  match scanResult with
  | Some r =>
      match combined_assessment r with
      | Some a => PhishingDetector.orString (final_risk_level a) ""
      | None => ""
      end
  | None => ""
  end.

Definition isHighRisk (scanResult : option ScanResult) : bool :=
  let riskLevel := riskLevelOf scanResult in
  String.eqb riskLevel "medium" || String.eqb riskLevel "high"
  || String.eqb riskLevel "critical".

End QRScanner.

(** ** The fusion engine of the assessment service *)

Module Fusion.

Inductive Classification := Safe | Suspicious | Dangerous | Unknown.

Inductive Label := LabelSafe | LabelSuspicious | LabelDangerous.

Inductive Reputation := Clean | Flagged | NoVerdict.

(** What a signal source hands to the fusion: nothing, or its
    evidence. *)
Inductive Signal (E : Type) :=
| Unavailable
| Available (evidence : E).
Arguments Unavailable {E}.
Arguments Available {E} evidence.

Record Heuristic := mkHeuristic {
  sub_score : Q;
  matched_terms : list string;
  critical_severity : bool
}.

Record Ml := mkMl {
  label : Label;
  ml_confidence : Q
}.

Record ThreatIntel := mkThreatIntel {
  reputation : Reputation;
  hit_count : Z
}.

Record AssessmentResult := mkAssessment {
  risk_score : Z;
  classification : Classification;
  explanation : string;
  suspicious_terms : list string
}.

Definition classificationName (c : Classification) : string :=
  match c with
  | Safe => "safe"
  | Suspicious => "suspicious"
  | Dangerous => "dangerous"
  | Unknown => "unknown"
  end.

(** Base weights of the three signals. *)
Definition weightHeuristic : Q := 0.35.
Definition weightMl : Q := 0.45.
Definition weightThreatIntel : Q := 0.20.

(** Cut points of the classification. *)
Definition suspiciousFrom : Z := 30.
Definition dangerousFrom : Z := 70.

Definition noSignalExplanation : string := "No signal was available".

Section Engine.

(** What the specification leaves open: the sub-score in 0..100 of
    the verdict of the classifier and of the reputation services,
    the hit count from which a flagged reputation counts as high,
    and the wording of the three parts of an explanation. *)
Variable mlSubScore : Ml -> Q.
Variable threatIntelSubScore : ThreatIntel -> Q.
Variable highHitCount : Z.
Variable overrideReason : ThreatIntel -> string.
Variable termsReason : list string -> string.
Variable mlReason : Ml -> string.

(** The weighted sub-score of a signal and the weight it brings: an
    unavailable signal brings neither, which leaves its share to the
    signals that are there. *)
Definition contribution {E : Type} (weight : Q) (subScore : E -> Q)
           (s : Signal E) : Q * Q :=
  match s with
  | Unavailable => (0, 0)
  | Available e => (weight * subScore e, weight)
  end%Q.

Definition weightedScore (h : Signal Heuristic) (m : Signal Ml)
           (t : Signal ThreatIntel) : Q :=
  let ch := contribution weightHeuristic sub_score h in
  let cm := contribution weightMl mlSubScore m in
  let ct := contribution weightThreatIntel threatIntelSubScore t in
  ((fst ch + fst cm + fst ct) / (snd ch + snd cm + snd ct))%Q.

Definition roundClamp (x : Q) : Z :=
  Z.max 0 (Z.min 100 (Qfloor (x + (1 # 2)))).

(** Modelled from the spec: the classification of a fused score by
    the cut points 30 and 70 (section 4.5), a step of the fusion
    engine, which is not among the sources. *)
Definition classify (score : Z) : Classification :=
  if (score <? suspiciousFrom)%Z then Safe
  else if (score <? dangerousFrom)%Z then Suspicious
  else Dangerous.

Definition hardOverride (t : Signal ThreatIntel) : option ThreatIntel :=
  match t with
  | Available ti =>
      match reputation ti with
      | Flagged => if (highHitCount <=? hit_count ti)%Z then Some ti else None
      | _ => None
      end
  | Unavailable => None
  end.

Definition criticalTerms (h : Signal Heuristic) : bool :=
  match h with
  | Available e => critical_severity e
  | Unavailable => false
  end.

Definition floorSuspicious (c : Classification) : Classification :=
  match c with
  | Safe => Suspicious
  | _ => c
  end.

Definition termsOf (h : Signal Heuristic) : list string :=
  match h with
  | Available e => matched_terms e
  | Unavailable => []
  end.

Definition explain (h : Signal Heuristic) (m : Signal Ml)
           (t : Signal ThreatIntel) : string :=
  (match hardOverride t with Some ti => overrideReason ti | None => "" end)
  ++ (match h with Available e => termsReason (matched_terms e) | Unavailable => "" end)
  ++ (match m with Available e => mlReason e | Unavailable => "" end).

(** Modelled from the spec: the fusion engine of the assessment
    service (section 4.5), which is not among the sources.  Weights
    0.35, 0.45 and 0.20, the weight of an unavailable signal shared
    among the others in proportion, the weighted sum rounded to the
    nearest integer and clamped to 0..100, cut points 30 and 70, the
    hard override of a flagged reputation with a high hit count, the
    floor at suspicious for critical terms, and the answer "unknown"
    with score 0 when no signal is available. *)
Definition fuse (h : Signal Heuristic) (m : Signal Ml)
           (t : Signal ThreatIntel) : AssessmentResult :=
  match h, m, t with
  | Unavailable, Unavailable, Unavailable =>
      {| risk_score := 0;
         classification := Unknown;
         explanation := noSignalExplanation;
         suspicious_terms := [] |}
  | _, _, _ =>
      let score := roundClamp (weightedScore h m t) in
      let byScore := classify score in
      {| risk_score := score;
         classification :=
           match hardOverride t with
           | Some _ => Dangerous
           | None =>
               if criticalTerms h then floorSuspicious byScore
               else byScore
           end;
         explanation := explain h m t;
         suspicious_terms := termsOf h |}
  end.

(** The three signal sources, each of which may fail on a content. *)
Variable heuristicScorer : string -> Signal Heuristic.
Variable mlClassifier : string -> Signal Ml.
Variable threatIntelGateway : string -> Signal ThreatIntel.

(** Modelled from the spec: [assess], the entry point of the
    assessment service (section 6), which is not among the sources;
    it evaluates the three signal sources on the content and fuses
    what they answer. *)
Definition assess (content : string) : AssessmentResult :=
  fuse (heuristicScorer content) (mlClassifier content)
       (threatIntelGateway content).

End Engine.

(** One reading of the open parts, after the scenario of section 8 in
    which a verdict "dangerous" of confidence 0.9 counts for about 90:
    it serves to run the engine on examples. *)
Definition exampleMlSubScore (m : Ml) : Q :=
  match label m with
  | LabelDangerous => 100 * ml_confidence m
  | LabelSuspicious => 50
  | LabelSafe => 100 * (1 - ml_confidence m)
  end%Q.

Definition exampleThreatIntelSubScore (t : ThreatIntel) : Q :=
  match reputation t with
  | Flagged => 100
  | Clean => 0
  | NoVerdict => 50
  end.

Definition exampleFuse : Signal Heuristic -> Signal Ml -> Signal ThreatIntel
                         -> AssessmentResult :=
  fuse exampleMlSubScore exampleThreatIntelSubScore 5
       (fun _ => "Flagged by threat intelligence. ")
       (fun terms => String.concat ", " terms ++ ". ")
       (fun m => classificationName
                   (match label m with
                    | LabelSafe => Safe
                    | LabelSuspicious => Suspicious
                    | LabelDangerous => Dangerous
                    end)).

Definition exampleAssess (heuristicScorer : string -> Signal Heuristic)
           (mlClassifier : string -> Signal Ml)
           (threatIntelGateway : string -> Signal ThreatIntel)
  : string -> AssessmentResult :=
  assess exampleMlSubScore exampleThreatIntelSubScore 5
         (fun _ => "Flagged by threat intelligence. ")
         (fun terms => String.concat ", " terms ++ ". ")
         (fun m => classificationName
                     (match label m with
                      | LabelSafe => Safe
                      | LabelSuspicious => Suspicious
                      | LabelDangerous => Dangerous
                      end))
         heuristicScorer mlClassifier threatIntelGateway.

End Fusion.

(** ** The properties as the specification words them *)

Module Spec.
Import JsString Home.

(** [t] occurs in [s] as a substring. *)
Definition occursIn (t s : string) : Prop :=
  exists pre post : string, s = pre ++ t ++ post.

(** The similarity test of section 4.6 between two normalized contents:
    the same string, or a ratio of the shorter length to the longer
    above 0.8 together with one string containing the other. *)
Definition nearDuplicate (a b : string) : Prop :=
  a = b
  \/ ((0.8 < lengthRatio (Nat.min (String.length a) (String.length b))
                         (Nat.max (String.length a) (String.length b)))%Q
      /\ (occursIn b a \/ occursIn a b)).

(** The test the page applies: as above, for strings whose shorter
    length is above 20 only. *)
Definition nearDuplicateOfLongContent (a b : string) : Prop :=
  a = b
  \/ ((20 < Nat.min (String.length a) (String.length b))%nat
      /\ (0.8 < lengthRatio (Nat.min (String.length a) (String.length b))
                            (Nat.max (String.length a) (String.length b)))%Q
      /\ (occursIn b a \/ occursIn a b)).

(** The entry at position [i] of [scams] has no similar entry before
    it. *)
Definition firstOfItsKind (scams : list Scam) (i : nat) (x : Scam) : Prop :=
  forall (j : nat) (y : Scam),
    (j < i)%nat -> scams !! j = Some y -> similar x y = false.

(** The entry at position [i] stands for the entry at position [j]:
    they are the same entry, or a chain of entries, each similar to the
    one before it and later in the array, leads from [i] to [j]. *)
Inductive standsFor (scams : list Scam) (i : nat) : nat -> Prop :=
| standsFor_itself : standsFor scams i i
| standsFor_later (k j : nat) (x y : Scam) :
    standsFor scams i k -> (k < j)%nat ->
    scams !! k = Some x -> scams !! j = Some y -> similar y x = true ->
    standsFor scams i j.

(** What is left of a content after the normalization: lower-case
    letters, digits and underscores, in words that single spaces
    separate.  [spaced afterSpace s] tells that [s] is made of these and
    that no space follows another, nor begins [s] when [afterSpace]. *)
Definition isLowerWord (c : ascii) : bool :=
  let n := code c in
  ((48 <=? n) && (n <=? 57) || (97 <=? n) && (n <=? 122) || (n =? 95))%N.

(** Every code unit is a lower-case word character or white space. *)
Fixpoint wordsAndWhite (s : string) : Prop :=
  match s with
  | EmptyString => True
  | String c s' =>
      (isLowerWord c = true \/ isWhiteSpace c = true) /\ wordsAndWhite s'
  end.

Fixpoint spaced (afterSpace : bool) (s : string) : Prop :=
  match s with
  | EmptyString => True
  | String c s' =>
      if Ascii.eqb c " " then afterSpace = false /\ spaced true s'
      else isLowerWord c = true /\ spaced false s'
  end.

Fixpoint lastChar (s : string) : option ascii :=
  match s with
  | EmptyString => None
  | String c s' =>
      match lastChar s' with
      | None => Some c
      | Some d => Some d
      end
  end.

Definition normalForm (s : string) : Prop :=
  spaced true s /\ lastChar s <> Some " "%char.

(** The two contents of the deduplication example of section 8, and a
    third that differs from the first in case, punctuation and spacing
    only. *)
Definition urgentPrize : string := "URGENT click here to claim prize now!!!".
Definition urgentYourPrize : string := "urgent click here to claim your prize now".
Definition urgentPrizeRespelled : string := "Urgent:  click here to claim prize NOW".

(** A message of white space only. *)
Definition whitespaceOnly (message : string) : Prop :=
  forallb isWhiteSpace (list_ascii_of_string message) = true.

(** A message longer than the textarea lets a visitor type. *)
Definition oversizedMessage : string :=
  string_of_list_ascii (repeat "a"%char (60 * 100)).

(** A similarity cluster of the array, given by the positions of its
    entries: entries that are similar to one another, with every entry
    of the array that is similar to all of them. *)
Definition cluster (scams : list Scam) (members : nat -> Prop) : Prop :=
  (exists i : nat, members i)
  /\ (forall i : nat, members i -> is_Some (scams !! i))
  /\ (forall (i j : nat) (x y : Scam),
         members i -> members j ->
         scams !! i = Some x -> scams !! j = Some y -> similar x y = true)
  /\ (forall (k : nat) (z : Scam),
         scams !! k = Some z ->
         (forall (i : nat) (x : Scam),
             members i -> scams !! i = Some x -> similar z x = true) ->
         members k).

(** First match wins, as the specification words it: of each cluster
    the pass keeps the first entry and no other. *)
Definition firstMatchWins (scams : list Scam) : Prop :=
  forall (members : nat -> Prop) (i : nat) (x : Scam),
    cluster scams members -> members i -> scams !! i = Some x ->
    (isFirstOccurrence x (Z.of_nat i) scams = true
     <-> forall j : nat, members j -> (i <= j)%nat).

(** The near-duplicate test is transitive on the entries of the
    array. *)
Definition transitiveOn (scams : list Scam) : Prop :=
  forall x y z : Scam,
    x ∈ scams -> y ∈ scams -> z ∈ scams ->
    similar x y = true -> similar y z = true -> similar x z = true.

(** Three contents of 22, 26 and 32 code units, each contained in the
    next: the first and the third are similar to the second and not
    to each other. *)
Definition lockedShort : Scam :=
  mkScam 1 "dangerous" 90 "your account is locked" 1 [].
Definition lockedNow : Scam :=
  mkScam 2 "dangerous" 90 "your account is locked now" 1 [].
Definition lockedNowToday : Scam :=
  mkScam 3 "dangerous" 90 "your account is locked now today" 1 [].

(** An entry of the feed is a high-risk report. *)
Definition highRisk (scam : Scam) : Prop :=
  (classification scam = "dangerous" \/ classification scam = "high"
   \/ classification scam = "critical")
  /\ (70 <= riskScore scam)%Q.

End Spec.

(** ** pages/Home.jsx: pages of the feed and the card of an entry *)

Module HomePage.
Import JsString JsArray Home.

(** [totalPages], [canGoPrevious] and [canGoNext] of a render. *)
Definition totalPages (st : State) : Z := pageCount (length (allScams st)).

Definition canGoPrevious (st : State) : bool := (currentPage st >? 0)%Z.

Definition canGoNext (st : State) : bool :=
  (currentPage st <? totalPages st - 1)%Z.

(** The pages [0 .. n-1] of an array, one after the other. *)
Definition pagesUpTo (n : nat) (scams : list Scam) : list Scam :=
  flat_map (fun page => updateDisplayedScams scams (Z.of_nat page)) (seq 0 n).

Definition ltb (a b : Q) : bool := negb (Qle_bool b a).

(** The text of a card: the content, cut after 120 code units. *)
Definition shownContent (scam : Scam) : string :=
  if (120 <? String.length (anonymized_content scam))%nat
  then substring0 120 (anonymized_content scam) ++ "..."
  else anonymized_content scam.

(** The badge of the risk score is red when the percentage is above 70,
    orange otherwise. *)
Definition badgeIsRed (scam : Scam) : bool := gtb (shownRiskScore scam) 70.

(** The mark "Keywords" of a card: a percentage below 70 together with
    a non-empty array of suspicious terms. *)
Definition keywordWarning (scam : Scam) : bool :=
  ltb (shownRiskScore scam) 70
  && (0 <? length (suspicious_terms scam))%nat.

(** [scam.suspicious_terms.slice(0, 4)] and the count after "+" that
    follows it when there are more than four terms. *)
Definition shownTerms (scam : Scam) : list string :=
  slice 0 4 (suspicious_terms scam).

Definition moreTerms (scam : Scam) : option nat :=
  if (4 <? length (suspicious_terms scam))%nat
  then Some (length (suspicious_terms scam) - 4)%nat
  else None.

(** No entry of the list is similar to an entry before it. *)
Definition pairwiseDistinct (scams : list Scam) : Prop :=
  ForallOrdPairs (fun x y => similar y x = false) scams.

End HomePage.

(** ** The PhishingDetector page: what a run of the analysis leaves *)

Module DetectorRun.
Import JsString PhishingDetector.

(** The effects by which a run ends: setting a result, or setting an
    error message that is not empty. *)
Definition setsResult (e : Effect) : bool :=
  match e with
  | SetResult (Some _) => true
  | _ => false
  end.

Definition setsFailure (e : Effect) : bool :=
  match e with
  | SetError message => negb (String.eqb message "")
  | _ => false
  end.

(** [isAuthenticated && user], the test of [analyzeMessage]. *)
Definition loggedIn (env : Env) : bool := isAuthenticated env && user env.

(** The condition under which the button of the CERT report is
    rendered: [isHighRisk() && isAuthenticated]. *)
Definition certButtonShown (env : Env) (result : option Result) : bool :=
  isHighRisk result && isAuthenticated env.

End DetectorRun.

(** ** [localStorage] *)

Module LocalStorage.

(** The storage of the browser: strings under string keys. *)
Abbreviation Storage := (gmap string string).

(** [localStorage.getItem(key)]: the value, or [null]. *)
Definition getItem (key : string) (storage : Storage) : option string :=
  storage !! key.

Definition setItem (key value : string) (storage : Storage) : Storage :=
  <[key := value]> storage.

Definition removeItem (key : string) (storage : Storage) : Storage :=
  delete key storage.

(** Truth of what [getItem] answers: a string that is not empty. *)
Definition truthy (v : option string) : bool :=
  match v with
  | Some s => negb (String.eqb s "")
  | None => false
  end.

End LocalStorage.

(** ** services/api.js: the client and the calls of the session *)

Module Api.
Import LocalStorage.

(** A value that may be [undefined] or [null]. *)
Inductive Field (A : Type) :=
| Undefined
| Null
| Given (a : A).
Arguments Undefined {A}.
Arguments Null {A}.
Arguments Given {A} a.

(** [String(v)], as [setItem] and a template literal apply it. *)
Definition text (v : Field string) : string :=
  match v with
  | Undefined => "undefined"
  | Null => "null"
  | Given s => s
  end.

Definition given (v : Field string) : bool :=
  match v with
  | Given s => negb (String.eqb s "")
  | _ => false
  end.

Definition ofItem (v : option string) : Field string :=
  match v with
  | Some s => Given s
  | None => Null
  end.

(** A user object, by its fields. *)
Abbreviation User := (gmap string string).

(** The client, [this.token], together with the storage it writes. *)
Record Client := mkClient {
  token : Field string;
  storage : Storage
}.

(** [new ApiClient()] *)
Definition newClient (stored : Storage) : Client :=
  {| token := ofItem (getItem "access_token" stored); storage := stored |}.

(** [getHeaders(contentType)] *)
Definition getHeaders (client : Client) (contentType : string)
  : gmap string string :=
  if given (token client)
  then <["Authorization" := "Bearer " ++ text (token client)]>
         {["Content-Type" := contentType]}
  else {["Content-Type" := contentType]}.

(** [setToken(token)] *)
Definition setToken (newToken : Field string) (client : Client) : Client :=
  {| token := newToken;
     storage :=
       if given newToken
       then setItem "access_token" (text newToken) (storage client)
       else removeItem "access_token" (storage client) |}.

(** One entry of the array [detail] of a validation error, and the
    JSON body of an answer that is not ok. *)
Record DetailItem := mkDetailItem {
  msg : Field string;
  item_message : Field string
}.

Inductive Detail :=
| DetailList (items : list DetailItem)
| DetailText (s : string).

Record ErrorData := mkErrorData {
  detail : option Detail;
  error_message : Field string
}.

(** [a || b] between strings. *)
Definition orText (a : Field string) (b : string) : string :=
  if given a then text a else b.

(** The message of the error [request] throws for an answer that is
    not ok; [errorData] is [None] when the body is not JSON, which the
    client replaces by [{ detail: 'An error occurred' }]. *)
Definition requestError (status : nat) (errorData : option ErrorData) : string :=
  let data :=
    match errorData with
    | Some d => d
    | None => mkErrorData (Some (DetailText "An error occurred")) Undefined
    end in
  match detail data with
  | Some (DetailList items) =>
      String.concat ", "
        (map (fun err => orText (msg err)
                           (orText (item_message err) "Validation error"))
             items)
  | Some (DetailText s) =>
      if String.eqb s ""
      then orText (error_message data)
                  ("HTTP " ++ PhishingDetector.numberToString status)
      else s
  | None =>
      orText (error_message data)
             ("HTTP " ++ PhishingDetector.numberToString status)
  end.

(** The answer of [/auth/login] and of [/auth/refresh]. *)
Record LoginResponse := mkLoginResponse {
  access_token : Field string;
  refresh_token : Field string;
  user : Field User
}.

(** How [apiClient.post] ends. *)
Inductive Outcome (A : Type) :=
| Threw (message : string)
| Returned (response : A).
Arguments Threw {A} message.
Arguments Returned {A} response.

(** What [JSON.parse] makes of a stored text: a syntax error, or a
    value, which is a user object or something falsy. *)
Inductive Parsed :=
| SyntaxError
| Value (v : option User).

Section Json.

(** [JSON.stringify] on user objects and [JSON.parse]. *)
Variable JSON_stringify : User -> string.
Variable JSON_parse : string -> Parsed.

(** [JSON.stringify(v)] handed to [setItem]. *)
Definition storedUser (v : Field User) : string :=
  match v with
  | Undefined => "undefined"
  | Null => "null"
  | Given u => JSON_stringify u
  end.

(** What [authAPI.login] and [authAPI.refreshToken] do with an answer. *)
Definition keepSession (response : LoginResponse) (client : Client) : Client :=
  if given (access_token response) then
    let client' := setToken (access_token response) client in
    {| token := token client';
       storage :=
         setItem "user_data" (storedUser (user response))
           (setItem "refresh_token" (text (refresh_token response))
              (storage client')) |}
  else client.

(** [authAPI.login]: the state of the client after the call. *)
Definition login (outcome : Outcome LoginResponse) (client : Client) : Client :=
  match outcome with
  | Threw _ => client
  | Returned response => keepSession response client
  end.

(** [authAPI.logout]: the state of the client after the call, whose
    [finally] runs however the request ends. *)
Definition logout (outcome : Outcome unit) (client : Client) : Client :=
  let client' := setToken Null client in
  {| token := token client';
     storage :=
       removeItem "user_data" (removeItem "refresh_token" (storage client')) |}.

(** [authAPI.refreshToken]: [None] when it throws before any request
    for want of a refresh token. *)
Definition refreshToken (outcome : Outcome LoginResponse) (client : Client)
  : option Client :=
  if truthy (getItem "refresh_token" (storage client))
  then Some (login outcome client)
  else None.

(** What the handlers of the Google and Facebook sign-in store from the
    answer of [/auth/oauth/login]. *)
Definition storeOAuthSession (result : LoginResponse) (stored : Storage)
  : Storage :=
  setItem "user" (storedUser (user result))
    (setItem "refresh_token" (text (refresh_token result))
       (setItem "access_token" (text (access_token result)) stored)).

(** [isLoggedIn()] *)
Definition isLoggedIn (stored : Storage) : bool :=
  truthy (getItem "access_token" stored).

(** [getStoredUser()] *)
Definition getStoredUser (stored : Storage) : Parsed :=
  if truthy (getItem "user" stored)
  then match getItem "user" stored with
       | Some userData => JSON_parse userData
       | None => Value None
       end
  else Value None.

End Json.

End Api.

(** ** contexts/AuthContext.jsx *)

Module AuthContext.
Import LocalStorage.

Abbreviation User := (gmap string string).

Record State := mkState {
  user : option User;
  isAuthenticated : bool;
  isLoading : bool;
  error : option string
}.

Definition initialState : State :=
  {| user := None; isAuthenticated := false; isLoading := true;
     error := None |}.

(** The actions, each with the part of its payload the reducer reads;
    [OTHER] is an action of any other type. *)
Inductive Action :=
| LOGIN_START
| LOGIN_SUCCESS (payload_user : option User)
| LOGIN_FAILURE (payload : option string)
| LOGOUT
| REGISTER_START
| REGISTER_SUCCESS
| REGISTER_FAILURE (payload : option string)
| SET_USER (payload : option User)
| SET_LOADING (payload : bool)
| CLEAR_ERROR
| UPDATE_USER (payload : User)
| OTHER.

(** [{ ...state.user, ...action.payload }] *)
Definition spread (old : option User) (payload : User) : User :=
  payload ∪ default ∅ old.

Definition authReducer (state : State) (action : Action) : State :=
  match action with
  | LOGIN_START | REGISTER_START =>
      {| user := user state; isAuthenticated := isAuthenticated state;
         isLoading := true; error := None |}
  | LOGIN_SUCCESS payload_user =>
      {| user := payload_user; isAuthenticated := true;
         isLoading := false; error := None |}
  | REGISTER_SUCCESS =>
      {| user := user state; isAuthenticated := isAuthenticated state;
         isLoading := false; error := None |}
  | LOGIN_FAILURE payload | REGISTER_FAILURE payload =>
      {| user := None; isAuthenticated := false;
         isLoading := false; error := payload |}
  | LOGOUT =>
      {| user := None; isAuthenticated := false;
         isLoading := false; error := None |}
  | SET_USER payload =>
      {| user := payload;
         isAuthenticated := match payload with Some _ => true | None => false end;
         isLoading := false; error := None |}
  | UPDATE_USER payload =>
      {| user := Some (spread (user state) payload);
         isAuthenticated := isAuthenticated state;
         isLoading := isLoading state; error := error state |}
  | SET_LOADING payload =>
      {| user := user state; isAuthenticated := isAuthenticated state;
         isLoading := payload; error := error state |}
  | CLEAR_ERROR =>
      {| user := user state; isAuthenticated := isAuthenticated state;
         isLoading := isLoading state; error := None |}
  | OTHER => state
  end.

(** The state after a sequence of dispatched actions. *)
Definition dispatchAll (actions : list Action) (state : State) : State :=
  fold_left authReducer actions state.

(** The action [initializeAuth] dispatches when the provider mounts;
    [currentUser] is how [authAPI.getCurrentUser] ends. *)
Definition initializeAuth (JSON_parse : string -> Api.Parsed)
           (stored : Storage) (currentUser : Api.Outcome (option User))
  : Action :=
  if Api.isLoggedIn stored then
    match Api.getStoredUser JSON_parse stored with
    | Api.SyntaxError => SET_LOADING false
    | Api.Value (Some storedUser) =>
        match currentUser with
        | Api.Returned fresh => SET_USER fresh
        | Api.Threw _ => SET_USER (Some storedUser)
        end
    | Api.Value None => LOGOUT
    end
  else SET_LOADING false.

(** What the pages test before they use the session:
    [isAuthenticated && user]. *)
Definition loggedIn (state : State) : bool :=
  isAuthenticated state && match user state with Some _ => true | None => false end.

End AuthContext.

(** ** The QRScanner page: requests of the analysis and of the report *)

Module QRSession.
Import JsString LocalStorage.
Local Open Scope list_scope.

(** The JSON body of an answer of the scan service, with the fields the
    page reads: of an answer that is ok the flags [success] and
    [qr_detection.success], the addresses, the assessment and the id of
    the scan; of another answer [detail]. *)
Record QrDetection := mkQrDetection {
  qd_success : bool;
  decoded_url : option string;
  qd_url : option string
}.

Record Body := mkBody {
  success : bool;
  qr_detection : option QrDetection;
  url_analysis_url : option string;
  combined_assessment : option QRScanner.CombinedAssessment;
  scan_id : option string;
  detail : option string
}.

(** How a request ends: the promise is rejected, or an answer arrives
    with its status and a body that is JSON or not. *)
Inductive Json :=
| NotJson (message : string)
| JsonBody (body : Body).

Inductive Outcome :=
| Rejected (message : string)
| Responded (status : nat) (json : Json).

(** [response.ok]: a status from 200 to 299. *)
Definition ok (status : nat) : bool := (200 <=? status)%nat && (status <=? 299)%nat.

(** The object sent as the CERT report of a QR code. *)
Record ReportData := mkReportData {
  qr_url : string;
  risk_score : Q;
  risk_level : string;
  report_scan_id : string;
  user_comments : string
}.

Inductive Effect :=
| SetLoading (loading : bool)
| SetError (message : string)
| PostImage (authorization : option string)
| PostUrl (authorization : option string) (url : string) (save_to_history : bool)
| SetScanResult (result : Body)
| ClearScanInterval
| StopCamera
| FetchScanHistory
| SetCertReporting (reporting : bool)
| PostCertReport (authorization : string) (data : ReportData)
| SetCertReportSuccess (succeeded : bool)
| CloseModalLater.

(** What surrounds a run: the stored session, the state cells the run
    reads and how its request ends. *)
Record Env := mkEnv {
  stored : Storage;
  isAuthenticated : bool;
  user : bool;
  scanInterval : bool;
  scanResult : option Body;
  certComments : string;
  outcome : Outcome
}.

(** The header [Authorization] of the scan requests: present when a
    token is stored. *)
Definition authorization (storage : Storage) : option string :=
  if truthy (getItem "access_token" storage)
  then Some ("Bearer " ++ default "" (getItem "access_token" storage))%string
  else None.

(** [message || fallback] *)
Definition orMessage (message fallback : string) : string :=
  if String.eqb message "" then fallback else message.

(** The two [removeItem] of an answer 401. *)
Definition clearSession (storage : Storage) : Storage :=
  removeItem "user_data" (removeItem "access_token" storage).

Definition sessionExpired : string := "Session expired. Please log in again.".

Definition refreshHistory (env : Env) : list Effect :=
  if isAuthenticated env && user env then [FetchScanHistory] else [].

(** [result.success && result.qr_detection && result.qr_detection.success] *)
Definition detected (result : Body) : bool :=
  success result
  && match qr_detection result with
     | Some d => qd_success d
     | None => false
     end.

(** [analyzeQRCode(imageData)]: its effects in order, and the storage
    it leaves. *)
Definition analyzeQRCode (env : Env) : list Effect * Storage :=
  let start := [SetLoading true; SetError ""; PostImage (authorization (stored env))] in
  let finish := [SetLoading false] in
  match outcome env with
  | Rejected message =>
      (start ++ [SetError (orMessage message "Failed to analyze QR code")]
         ++ finish, stored env)
  | Responded status json =>
      if (status =? 401)%nat then
        (start ++ [SetError sessionExpired] ++ finish, clearSession (stored env))
      else
        match json with
        | NotJson message =>
            (start ++ [SetError (orMessage message "Failed to analyze QR code")]
               ++ finish, stored env)
        | JsonBody body =>
            if negb (ok status) then
              (start
                 ++ [SetError
                       (orMessage
                          (PhishingDetector.orString (detail body) "Analysis failed")
                          "Failed to analyze QR code")]
                 ++ finish, stored env)
            else if detected body then
              (start ++ [SetScanResult body]
                 ++ (if scanInterval env then [ClearScanInterval] else [])
                 ++ [StopCamera] ++ refreshHistory env ++ finish, stored env)
            else (start ++ finish, stored env)
        end
  end.

(** [analyzeURL(url)] *)
Definition analyzeURL (env : Env) (url : string) : list Effect * Storage :=
  let start :=
    [SetLoading true; SetError "";
     PostUrl (authorization (stored env)) url
             (truthy (getItem "access_token" (stored env)))] in
  let finish := [SetLoading false] in
  match outcome env with
  | Rejected message =>
      (start ++ [SetError (orMessage message "Failed to analyze URL")] ++ finish,
       stored env)
  | Responded status json =>
      if (status =? 401)%nat then
        (start ++ [SetError sessionExpired] ++ finish, clearSession (stored env))
      else
        match json with
        | NotJson message =>
            (start ++ [SetError (orMessage message "Failed to analyze URL")]
               ++ finish, stored env)
        | JsonBody body =>
            if negb (ok status) then
              (start
                 ++ [SetError
                       (orMessage
                          (PhishingDetector.orString (detail body) "URL analysis failed")
                          "Failed to analyze URL")]
                 ++ finish, stored env)
            else
              (start ++ [SetScanResult body] ++ refreshHistory env ++ finish,
               stored env)
        end
  end.

(** The chain [a || b || c || 'Unknown URL'] of the report. *)
Definition reportedUrl (result : Body) : string :=
  let fromDetection :=
    match qr_detection result with
    | Some d =>
        PhishingDetector.orString (decoded_url d)
          (PhishingDetector.orString (qd_url d) "")
    | None => ""
    end in
  orMessage fromDetection
    (PhishingDetector.orString (url_analysis_url result) "Unknown URL").

Definition reportData (env : Env) (result : Body) : ReportData :=
  {| qr_url := reportedUrl result;
     risk_score :=
       PhishingDetector.orNumber
         (match combined_assessment result with
          | Some a => QRScanner.final_risk_score a
          | None => None
          end) 0;
     risk_level :=
       match combined_assessment result with
       | Some a => PhishingDetector.orString (QRScanner.final_risk_level a) "unknown"
       | None => "unknown"
       end;
     report_scan_id := PhishingDetector.orString (scan_id result) "unknown";
     user_comments := certComments env |}.

(** [handleCERTReport()] of the QR scanner. *)
Definition handleCERTReport (env : Env) : list Effect * Storage :=
  match scanResult env with
  | None => ([], stored env)
  | Some result =>
      if negb (isAuthenticated env) then ([], stored env)
      else
        let start := [SetCertReporting true; SetError ""] in
        let finish := [SetCertReporting false] in
        if negb (truthy (getItem "access_token" (stored env))) then
          (start
             ++ [SetError "Authentication token not found. Please log in again."]
             ++ finish, stored env)
        else
          let post :=
            [PostCertReport
               ("Bearer " ++ default "" (getItem "access_token" (stored env)))%string
               (reportData env result)] in
          match outcome env with
          | Rejected message =>
              (start ++ post
                 ++ [SetError (orMessage message "Failed to submit CERT report")]
                 ++ finish, stored env)
          | Responded status json =>
              if (status =? 401)%nat then
                (start ++ post ++ [SetError sessionExpired] ++ finish,
                 clearSession (stored env))
              else
                match json with
                | NotJson message =>
                    (start ++ post
                       ++ [SetError (orMessage message "Failed to submit CERT report")]
                       ++ finish, stored env)
                | JsonBody body =>
                    if negb (ok status) then
                      (start ++ post
                         ++ [SetError
                               (orMessage
                                  (PhishingDetector.orString (detail body)
                                     "Failed to submit CERT report")
                                  "Failed to submit CERT report")]
                         ++ finish, stored env)
                    else
                      (start ++ post
                         ++ [SetCertReportSuccess true; CloseModalLater]
                         ++ finish, stored env)
                end
          end
  end.

(** The effects that show an error message, post a request, or set a
    scan result. *)
Definition showsError (e : Effect) : bool :=
  match e with
  | SetError message => negb (String.eqb message "")
  | _ => false
  end.

Definition isRequest (e : Effect) : bool :=
  match e with
  | PostImage _ | PostUrl _ _ _ | PostCertReport _ _ => true
  | _ => false
  end.

(** The storage a run leaves: the one it found, or after an answer 401
    the one without the session. *)
Definition leaves (run : list Effect * Storage) (env : Env) : Prop :=
  snd run = stored env
  \/ (snd run = clearSession (stored env)
      /\ SetError sessionExpired ∈ fst run
      /\ exists json : Json, outcome env = Responded 401 json).

(** [getRiskColor(riskLevel)] of the QR scanner; [riskLevel] is [None]
    when it is [undefined] or [null]. *)
Definition getRiskColor (riskLevel : option string) : string :=
  let level := option_map toLowerCase riskLevel in
  if PhishingDetector.isString level "very_low" then "text-green-600 bg-green-50 border-green-200"
  else if PhishingDetector.isString level "low" then "text-green-600 bg-green-50 border-green-200"
  else if PhishingDetector.isString level "medium" then "text-yellow-600 bg-yellow-50 border-yellow-200"
  else if PhishingDetector.isString level "high" then "text-orange-600 bg-orange-50 border-orange-200"
  else if PhishingDetector.isString level "critical" then "text-red-600 bg-red-50 border-red-200"
  else "text-gray-600 bg-gray-50 border-gray-200".

(** A scan of the history, and the result [handleHistoryClick] builds
    from it. *)
Record HistoryScan := mkHistoryScan {
  content : option string;
  classification : option string;
  history_risk_score : option Q;
  explanation : option string
}.

Definition historicalResult (scan : HistoryScan) : QRScanner.ScanResult :=
  QRScanner.mkScanResult
    (Some
       (QRScanner.mkCombined
          (Some (PhishingDetector.orString (classification scan) "unknown"))
          (Some (PhishingDetector.orNumber (history_risk_score scan) 0)))).

End QRSession.

(** ** Sessions, as the pages rely on them *)

Module SessionSpec.
Import LocalStorage AuthContext.

(** A dispatched [LOGIN_SUCCESS] whose payload has a user. *)
Definition carriesUser (action : Action) : Prop :=
  match action with
  | LOGIN_SUCCESS None => False
  | _ => True
  end.

(** The three keys of a session that [authAPI] writes. *)
Definition sessionKeys : list string :=
  ["access_token"; "refresh_token"; "user_data"].

End SessionSpec.

(** ** The Register page: the form and the strength of a password *)

Module Register.
Import JsString.

Record FormData := mkFormData {
  first_name : string;
  last_name : string;
  email : string;
  password : string;
  confirmPassword : string;
  organization : string
}.

(** [validateForm()]: [None] when it answers [true], else the message
    it hands to [setLocalError] before it answers [false]. *)
Definition validateForm (formData : FormData) (agreedToTerms : bool)
  : option string :=
  if String.eqb (trim (first_name formData)) "" then
    Some "First name is required"
  else if String.eqb (trim (last_name formData)) "" then
    Some "Last name is required"
  else if String.eqb (trim (email formData)) "" then
    Some "Email is required"
  else if negb (includes (email formData) "@") then
    Some "Please enter a valid email address"
  else if String.eqb (password formData) "" then
    Some "Password is required"
  else if (String.length (password formData) <? 8)%nat then
    Some "Password must be at least 8 characters long"
  else if negb (String.eqb (password formData) (confirmPassword formData)) then
    Some "Passwords do not match"
  else if negb agreedToTerms then
    Some "Please agree to the terms and conditions"
  else None.

(** [s.split(sep)[0]]: what stands before the first [sep]. *)
Fixpoint beforeFirst (sep : ascii) (s : string) : string :=
  match s with
  | EmptyString => EmptyString
  | String c s' =>
      if Ascii.eqb c sep then EmptyString else String c (beforeFirst sep s')
  end.

(** The [username] and the [full_name] that [handleSubmit] sends. *)
Definition username (formData : FormData) : string :=
  beforeFirst "@" (email formData).

Definition full_name (formData : FormData) : string :=
  trim (first_name formData ++ " " ++ last_name formData).

(** [regex.test(password)] for a class of code units. *)
Fixpoint test (class : ascii -> bool) (s : string) : bool :=
  match s with
  | EmptyString => false
  | String c s' => class c || test class s'
  end.

Definition isLower (c : ascii) : bool :=
  let n := code c in ((97 <=? n) && (n <=? 122))%N.

Definition isUpperAz (c : ascii) : bool :=
  let n := code c in ((65 <=? n) && (n <=? 90))%N.

Definition isDigit (c : ascii) : bool :=
  let n := code c in ((48 <=? n) && (n <=? 57))%N.

Definition isOther (c : ascii) : bool :=
  negb (isUpperAz c || isLower c || isDigit c).

Definition bump (b : bool) (score : nat) : nat := if b then S score else score.

Definition passwordStrength (password : string) : nat :=
  bump (test isOther password)
    (bump (test isDigit password)
       (bump (test isUpperAz password)
          (bump (test isLower password)
             (bump (8 <=? String.length password)%nat 0)))).

Definition getPasswordStrengthText (score : nat) : string * string :=
  match score with
  | 0 | 1 => ("Weak", "text-red-500")
  | 2 | 3 => ("Medium", "text-yellow-500")
  | 4 | 5 => ("Strong", "text-green-500")
  | _ => ("", "")
  end.

End Register.

(** ** The PhishingDetector page: the report to the CERT *)

Module DetectorReport.
Import JsString LocalStorage.
Local Open Scope list_scope.

(** The object [reportData]. *)
Record ReportData := mkReportData {
  url : string;
  content : string;
  risk_score : Z;
  risk_level : string;
  classification : string;
  confidence : Q;
  reasoning : string;
  message_content : string;
  language : string;
  suspicious_terms : list string;
  is_safe : bool;
  comments : string
}.

Definition reportData (message certComments : string)
           (result : PhishingDetector.Result) : ReportData :=
  let score :=
    PhishingDetector.orNumber (Some (PhishingDetector.risk_score result)) 0 in
  {| url := (substring0 100 message ++ "...")%string;
     content := message;
     risk_score := Home.Math_round score;
     risk_level :=
       PhishingDetector.orString
         (Some (PhishingDetector.classification result)) "unknown";
     classification :=
       PhishingDetector.orString
         (Some (PhishingDetector.classification result)) "unknown";
     confidence := (score / 100)%Q;
     reasoning := PhishingDetector.explanation result;
     message_content := message;
     language :=
       PhishingDetector.orString (Some (PhishingDetector.language result)) "unknown";
     suspicious_terms := PhishingDetector.suspicious_terms result;
     is_safe := PhishingDetector.is_safe result;
     comments := certComments |}.

(** How the request ends: rejected, or answered with the flag [ok] and
    a body that is JSON or not. *)
Inductive Json :=
| NotJson (message : string)
| JsonBody (errorData : Api.ErrorData).

Inductive Outcome :=
| Rejected (message : string)
| Responded (ok : bool) (json : Json).

Inductive Effect :=
| SetCertReporting (reporting : bool)
| PostReport (authorization : string) (data : ReportData)
| SetCertReportSuccess (succeeded : bool)
| CloseModalLater
| Alert (message : string).

Section Report.

(** [JSON.stringify] on an entry of the array [detail]. *)
Variable JSON_stringify : Api.DetailItem -> string.

(** [errorMessage] of an answer that is not ok. *)
Definition errorMessage (errorData : Api.ErrorData) : string :=
  let fromMessage :=
    Api.orText (Api.error_message errorData) "Failed to submit report" in
  match Api.detail errorData with
  | Some (Api.DetailList items) =>
      String.concat ", "
        (map (fun err =>
                Api.orText (Api.msg err)
                  (Api.orText (Api.item_message err) (JSON_stringify err)))
             items)
  | Some (Api.DetailText s) => if String.eqb s "" then fromMessage else s
  | None => fromMessage
  end.

(** [displayMessage] of the [catch] block. *)
Definition displayMessage (message : string) : string :=
  if negb (String.eqb message "")
     && negb (String.eqb message "Failed to submit report")
  then ("Failed to submit CERT report: " ++ message)%string
  else "Failed to submit CERT report. Please try again.".

(** [handleCERTReport()] of the detector. *)
Definition handleCERTReport (result : option PhishingDetector.Result)
           (isAuthenticated : bool) (message certComments : string)
           (stored : Storage) (outcome : Outcome) : list Effect :=
  match result with
  | None => []
  | Some r =>
      if negb isAuthenticated then []
      else
        [SetCertReporting true;
         PostReport
           ("Bearer " ++ Api.text (Api.ofItem (getItem "access_token" stored)))%string
           (reportData message certComments r)]
        ++ match outcome with
           | Rejected m => [Alert (displayMessage m)]
           | Responded _ (NotJson m) => [Alert (displayMessage m)]
           | Responded true (JsonBody _) =>
               [SetCertReportSuccess true; CloseModalLater]
           | Responded false (JsonBody errorData) =>
               [Alert (displayMessage (errorMessage errorData))]
           end
        ++ [SetCertReporting false]
  end.

End Report.




End DetectorReport.

(** ** The Dashboard page: the result of a URL scan *)

Module Dashboard.

(** The object kept in the state cell [urlScanResult]. *)
Record UrlScanResult := mkUrlScanResult {
  url : string;
  classification : option string;
  risk_score : Q;
  explanation : option string;
  suspicious_terms : list string;
  is_safe : bool
}.

(** The object literal given to [setUrlScanResult] in [handleScan],
    from the answer of [scansAPI.createScan]; the date is left out. *)
Definition urlScanResultOf (searchUrl : string)
           (scanResult : PhishingDetector.Response) : UrlScanResult :=
  {| url := searchUrl;
     classification := PhishingDetector.r_classification scanResult;
     risk_score :=
       PhishingDetector.orNumber (PhishingDetector.r_risk_score scanResult) 0;
     explanation := PhishingDetector.r_explanation scanResult;
     suspicious_terms :=
       PhishingDetector.orArray (PhishingDetector.r_suspicious_terms scanResult) [];
     is_safe :=
       PhishingDetector.isString (PhishingDetector.r_classification scanResult)
                                 "safe" |}.

Definition ltb (a b : Q) : bool := negb (Qle_bool b a).
Definition geb (a b : Q) : bool := Qle_bool b a.

Definition getRiskColor (riskScore : Q) : string :=
  if ltb riskScore (3 # 10) then "#10b981"
  else if ltb riskScore (7 # 10) then "#f59e0b"
  else "#ef4444".

Definition getRiskBgColor (riskScore : Q) : string :=
  if ltb riskScore (3 # 10) then "#d1fae5"
  else if ltb riskScore (7 # 10) then "#fef3c7"
  else "#fee2e2".

(** The text of the badge "Classification". *)
Definition riskLabel (result : UrlScanResult) : string :=
  if geb (risk_score result) (7 # 10) then "High Risk"
  else if geb (risk_score result) (3 # 10) then "Medium Risk"
  else "Low Risk".

(** [urlScanResult.risk_score * 100], the product of doubles that is
    the width of the bar in percent, and [Math.round] of it, the number
    written before "%". *)
Definition barWidth (result : UrlScanResult) : Q :=
  JsNumber.mul (JsNumber.number (risk_score result)) 100.

Definition shownPercent (result : UrlScanResult) : Z :=
  Home.Math_round (barWidth result).

End Dashboard.

(** ** The quiz game *)

Module QuizGame.

(** A question: its texts are left out, [options] is the number of the
    answers it offers. *)
Record Question := mkQuestion {
  id : nat;
  options : nat;
  correctAnswer : nat
}.

Definition questions : list Question :=
  [mkQuestion 1 4 1; mkQuestion 2 4 1; mkQuestion 3 4 1; mkQuestion 4 4 1;
   mkQuestion 5 4 1; mkQuestion 6 4 2; mkQuestion 7 4 3; mkQuestion 8 4 2].

(** A rank, without its icon. *)
Record Rank := mkRank {
  name : string;
  min : nat;
  color : string
}.

Definition ranks : list Rank :=
  [mkRank "Beginner" 0 "text-green-600";
   mkRank "Learning" 2 "text-blue-600";
   mkRank "Getting Good" 4 "text-purple-600";
   mkRank "Scam Spotter" 6 "text-orange-600";
   mkRank "Safety Expert" 8 "text-yellow-600"].

(** [ranks.slice().reverse().find(rank => score >= rank.min) || ranks[0]] *)
Definition getCurrentRank (score : nat) : Rank :=
  match List.find (fun rank => (min rank <=? score)%nat) (rev ranks) with
  | Some rank => rank
  | None => mkRank "Beginner" 0 "text-green-600"
  end.

(** The four texts of [getMotivationalMessage], in the order of the
    source: "Amazing! You're a scam-fighting superhero!", "Great job!
    You know how to stay safe online!", "Good work! You're learning to
    spot the tricks!" and "Keep practicing! Every expert was once a
    beginner!". *)
Inductive Message := Amazing | GreatJob | GoodWork | KeepPracticing.

(** [getMotivationalMessage(score, total)], for a [total] that is not
    zero, as it is where the page calls it. *)
Definition getMotivationalMessage (score total : nat) : Message :=
  let percentage :=
    (inject_Z (Z.of_nat score) / inject_Z (Z.of_nat total) * 100)%Q in
  if Qle_bool 90 percentage then Amazing
  else if Qle_bool 75 percentage then GreatJob
  else if Qle_bool 50 percentage then GoodWork
  else KeepPracticing.

Inductive GameState := Menu | Playing | Result.

(** An entry of [userAnswers]. *)
Record Answer := mkAnswer {
  question : Question;
  userAnswer : nat;
  isCorrect : bool
}.

Record State := mkState {
  gameState : GameState;
  currentQuestion : nat;
  score : nat;
  selectedAnswer : option nat;
  showFeedback : bool;
  userAnswers : list Answer;
  streak : nat
}.

Definition initial : State :=
  {| gameState := Menu;
     currentQuestion := 0;
     score := 0;
     selectedAnswer := None;
     showFeedback := false;
     userAnswers := [];
     streak := 0 |}.

(** [handleAnswerSelect(answerIndex)].  Without a question at
    [currentQuestion] the handler throws after [setSelectedAnswer]. *)
Definition handleAnswerSelect (answerIndex : nat) (st : State) : State :=
  if showFeedback st then st
  else
    match questions !! currentQuestion st with
    | None =>
        {| gameState := gameState st;
           currentQuestion := currentQuestion st;
           score := score st;
           selectedAnswer := Some answerIndex;
           showFeedback := showFeedback st;
           userAnswers := userAnswers st;
           streak := streak st |}
    | Some q =>
        let isCorrect := (answerIndex =? correctAnswer q)%nat in
        {| gameState := gameState st;
           currentQuestion := currentQuestion st;
           score := if isCorrect then score st + 1 else score st;
           selectedAnswer := Some answerIndex;
           showFeedback := true;
           userAnswers := userAnswers st ++ [mkAnswer q answerIndex isCorrect];
           streak := if isCorrect then streak st + 1 else 0 |}
    end.

Definition nextQuestion (st : State) : State :=
  if (currentQuestion st <? length questions - 1)%nat then
    {| gameState := gameState st;
       currentQuestion := currentQuestion st + 1;
       score := score st;
       selectedAnswer := None;
       showFeedback := false;
       userAnswers := userAnswers st;
       streak := streak st |}
  else
    {| gameState := Result;
       currentQuestion := currentQuestion st;
       score := score st;
       selectedAnswer := selectedAnswer st;
       showFeedback := showFeedback st;
       userAnswers := userAnswers st;
       streak := streak st |}.

Definition restartGame (st : State) : State := initial.

Definition startGame (st : State) : State :=
  {| gameState := Playing;
     currentQuestion := currentQuestion st;
     score := score st;
     selectedAnswer := selectedAnswer st;
     showFeedback := showFeedback st;
     userAnswers := userAnswers st;
     streak := streak st |}.

(** What the player can do. *)
Inductive Event :=
| StartGame
| AnswerSelect (answerIndex : nat)
| NextQuestion
| RestartGame.

(** The buttons of the three screens: "Start Quiz!" on the menu; one
    button for each option of the current question, disabled once the
    feedback is shown, and the button to go on, which comes with the
    feedback; "Play Again" on the screen of the result. *)
Definition offered (st : State) (e : Event) : bool :=
  match gameState st, e with
  | Menu, StartGame => true
  | Playing, AnswerSelect answerIndex =>
      negb (showFeedback st)
      && match questions !! currentQuestion st with
         | Some q => (answerIndex <? options q)%nat
         | None => false
         end
  | Playing, NextQuestion => showFeedback st
  | Result, RestartGame => true
  | _, _ => false
  end.

Definition handle (st : State) (e : Event) : State :=
  match e with
  | StartGame => startGame st
  | AnswerSelect answerIndex => handleAnswerSelect answerIndex st
  | NextQuestion => nextQuestion st
  | RestartGame => restartGame st
  end.

Definition step (st : State) (e : Event) : State :=
  if offered st e then handle st e else st.

(** The states a player reaches from the first render. *)
Inductive reachable : State -> Prop :=
| reachable_initial : reachable initial
| reachable_step st e : reachable st -> reachable (step st e).

(** The screen of the result: the percentage, and the three counts of
    "Your Results". *)
Definition percentage (st : State) : Z :=
  Home.Math_round
    (inject_Z (Z.of_nat (score st)) / inject_Z (Z.of_nat (length questions)) * 100).

Definition questionsAnswered (st : State) : nat := length questions.

Definition incorrectAnswers (st : State) : Z :=
  (Z.of_nat (length questions) - Z.of_nat (score st))%Z.

(** The number of correct answers in a row at the head of a list of
    answers given last answer first. *)
Fixpoint correctRun (reversed : list Answer) : nat :=
  match reversed with
  | a :: rest => if isCorrect a then S (correctRun rest) else 0
  | [] => 0
  end.

End QuizGame.

(** ** The navigation bar *)

Module Navigation.
Import JsString.

(** An entry of the menu, without its icon. *)
Record Item := mkItem {
  name : string;
  path : string;
  authRequired : bool
}.

Definition navigationItems : list Item :=
  [mkItem "Home" "/" false;
   mkItem "Dashboard" "/dashboard" true;
   mkItem "Phishing Detection" "/detector" false;
   mkItem "QR Scanner" "/qr-scanner" false;
   mkItem "Quiz Game" "/quiz-game" false;
   mkItem "Password Manager" "/password-manager" false].

(** [isActive(path)] for the [location.pathname] of the page. *)
Definition isActive (pathname path : string) : bool :=
  if String.eqb path "/" && String.eqb pathname "/" then true
  else if negb (String.eqb path "/") && startsWith pathname path then true
  else false.

Definition filteredNavigationItems (isAuthenticated : bool) : list Item :=
  List.filter (fun item => negb (authRequired item) || isAuthenticated)
              navigationItems.

(** The entries of the menu drawn as active. *)
Definition activeItems (isAuthenticated : bool) (pathname : string) : list Item :=
  List.filter (fun item => isActive pathname (path item))
              (filteredNavigationItems isAuthenticated).

End Navigation.

(** * Theorems *)

(** ** Strings *)

Section StringFacts.
Import JsString.

Lemma prefix_iff_append (t s : string) :
  String.prefix t s = true <-> exists post : string, s = t ++ post.
Proof.
  revert s. induction t as [|a t IH]; intros s.
  - split; [intros _; exists s; reflexivity | intros _; now destruct s].
  - destruct s as [|b s]; simpl.
    + split; [discriminate | intros [post H]; discriminate].
    + destruct (ascii_dec a b) as [->|Hne].
      * rewrite IH. split; intros [post H]; exists post.
        -- now rewrite H.
        -- now injection H.
      * split; [discriminate|]. intros [post H]. injection H. congruence.
Qed.

Lemma includes_iff_occurs (s t : string) :
  includes s t = true <-> Spec.occursIn t s.
Proof.
  unfold Spec.occursIn. split.
  - induction s as [|c s IH]; cbn [includes]; rewrite orb_true_iff.
    + intros [H|H]; [|discriminate].
      apply prefix_iff_append in H as [post ->]. now exists "", post.
    + intros [H|H].
      * apply prefix_iff_append in H as [post ->]. now exists "", post.
      * destruct (IH H) as (pre & post & ->). now exists (String c pre), post.
  - intros (pre & post & ->). induction pre as [|c pre IH].
    + assert (String.prefix t (t ++ post) = true) as H
        by (apply prefix_iff_append; now exists post).
      change ("" ++ t ++ post) with (t ++ post).
      destruct (t ++ post); cbn [includes]; now rewrite H.
    + change (String c pre ++ t ++ post) with (String c (pre ++ t ++ post)).
      cbn [includes]. rewrite IH. apply orb_true_r.
Qed.

Lemma string_eqb_iff (a b : string) : String.eqb a b = true <-> a = b.
Proof. apply String.eqb_eq. Qed.

End StringFacts.

(** ** Numbers *)

(** Comparisons of a number with constants: linear once the fractions
    are cleared. *)
Ltac q_order := unfold Qlt, Qle in *; simpl in *; lia.

Section NumberFacts.

Lemma gtb_iff (a b : Q) : Home.gtb a b = true <-> (b < a)%Q.
Proof.
  unfold Home.gtb. rewrite negb_true_iff, <- not_true_iff_false, Qle_bool_iff.
  split; [apply Qnot_le_lt | apply Qlt_not_le].
Qed.

Lemma geb_iff (a b : Q) : Home.geb a b = true <-> (b <= a)%Q.
Proof. unfold Home.geb. apply Qle_bool_iff. Qed.

Lemma ltb_iff (a b : Q) : PhishingDetector.ltb a b = true <-> (a < b)%Q.
Proof.
  unfold PhishingDetector.ltb.
  rewrite negb_true_iff, <- not_true_iff_false, Qle_bool_iff.
  split; [apply Qnot_le_lt | apply Qlt_not_le].
Qed.

Lemma ltb_false_iff (a b : Q) : PhishingDetector.ltb a b = false <-> (b <= a)%Q.
Proof.
  unfold PhishingDetector.ltb. rewrite negb_false_iff. apply Qle_bool_iff.
Qed.

(** [Math.round] answers an integer within a half of its argument. *)
Lemma Math_round_near (x : Q) :
  (x - (1 # 2) < inject_Z (Home.Math_round x) <= x + (1 # 2))%Q.
Proof.
  unfold Home.Math_round. pose proof (Qfloor_le (x + (1 # 2))) as H1.
  pose proof (Qlt_floor (x + (1 # 2))) as H2.
  rewrite inject_Z_plus in H2. change (inject_Z 1) with 1%Q in H2. lra.
Qed.

Lemma Math_round_le (x y : Q) :
  (x <= y)%Q -> (Home.Math_round x <= Home.Math_round y)%Z.
Proof. intros H. unfold Home.Math_round. apply Qfloor_resp_le. lra. Qed.

End NumberFacts.

Section Rounding.
Import JsNumber.

Lemma pow2_pos (k : Z) : (0 < pow2 k)%Q.
Proof. unfold pow2. apply Qpower_0_lt. reflexivity. Qed.

Lemma pow2_plus (n m : Z) : (pow2 (n + m) == pow2 n * pow2 m)%Q.
Proof. unfold pow2. apply Qpower_plus. discriminate. Qed.

Lemma pow2_le (n m : Z) : (n <= m)%Z -> (pow2 n <= pow2 m)%Q.
Proof. intros H. unfold pow2. apply Qpower_le_compat_l; [assumption | discriminate]. Qed.

Lemma pow2_lt_inv (n m : Z) : (pow2 n < pow2 m)%Q -> (n < m)%Z.
Proof. intros H. unfold pow2 in H. apply Qpower_lt_compat_l_inv in H; [assumption | reflexivity]. Qed.

Lemma pow2_Z (n : Z) : (0 <= n)%Z -> (pow2 n == inject_Z (2 ^ n))%Q.
Proof. intros H. unfold pow2. now rewrite (Zpower_Qpower 2 n H). Qed.

Lemma pow2_minus (a b : Z) :
  (0 <= a)%Z -> (0 <= b)%Z ->
  (pow2 (a - b) == inject_Z (2 ^ a) / inject_Z (2 ^ b))%Q.
Proof.
  intros Ha Hb. unfold pow2. rewrite Qpower_minus by discriminate.
  now rewrite !Zpower_Qpower.
Qed.

(** [ilog2 q] is the exponent of the power of two at or below [q]. *)
Lemma ilog2_spec (q : Q) :
  (0 < q)%Q -> (pow2 (ilog2 q) <= q < pow2 (ilog2 q + 1))%Q.
Proof.
  intros Hq. destruct q as [n d]. unfold ilog2. cbn [Qnum Qden].
  assert (0 < n)%Z as Hn by (unfold Qlt in Hq; cbn in Hq; lia).
  pose proof (Z.log2_spec n Hn) as [Hn1 Hn2].
  pose proof (Z.log2_spec (Z.pos d) (Pos2Z.is_pos d)) as [Hd1 Hd2].
  pose proof (Z.log2_nonneg n) as Ha. pose proof (Z.log2_nonneg (Z.pos d)) as Hb.
  set (a := Z.log2 n) in *. set (b := Z.log2 (Z.pos d)) in *.
  assert (0 < 2 ^ a)%Z as Hpa by (apply Z.pow_pos_nonneg; lia).
  assert (0 < 2 ^ b)%Z as Hpb by (apply Z.pow_pos_nonneg; lia).
  rewrite Z.pow_succ_r in Hn2, Hd2 by assumption.
  destruct (Qle_bool (pow2 (a - b)) (n # d)) eqn:E.
  - apply Qle_bool_iff in E. split; [assumption|].
    replace (a - b + 1)%Z with ((a + 1) - b)%Z by lia.
    rewrite pow2_minus by lia. rewrite Z.pow_add_r, Z.pow_1_r by lia.
    apply Qlt_shift_div_l;
      [change 0%Q with (inject_Z 0); rewrite <- Zlt_Qlt; lia|].
    unfold Qlt, Qmult, inject_Z. cbn [Qnum Qden]. nia.
  - assert (n # d < pow2 (a - b))%Q as Hlt.
    { apply Qnot_le_lt. intros H. apply Qle_bool_iff in H. congruence. }
    replace (a - b - 1 + 1)%Z with (a - b)%Z by lia. split; [|assumption].
    replace (a - b - 1)%Z with (a - (b + 1))%Z by lia.
    rewrite pow2_minus by lia. rewrite Z.pow_add_r, Z.pow_1_r by lia.
    apply Qle_shift_div_r;
      [change 0%Q with (inject_Z 0); rewrite <- Zlt_Qlt; lia|].
    unfold Qle, Qmult, inject_Z. cbn [Qnum Qden]. nia.
Qed.

Lemma ilog2_le (a b : Q) : (0 < a)%Q -> (a <= b)%Q -> (ilog2 a <= ilog2 b)%Z.
Proof.
  intros Ha Hab.
  destruct (ilog2_spec a Ha) as [Ha1 _].
  destruct (ilog2_spec b (Qlt_le_trans _ _ _ Ha Hab)) as [_ Hb2].
  assert (pow2 (ilog2 a) < pow2 (ilog2 b + 1))%Q as H by lra.
  apply pow2_lt_inv in H. lia.
Qed.

Lemma exponent_le (a b : Q) : (0 < a)%Q -> (a <= b)%Q -> (exponent a <= exponent b)%Z.
Proof. intros Ha Hab. unfold exponent. pose proof (ilog2_le a b Ha Hab). lia. Qed.

Lemma nearestEven_cases (x : Q) :
  let f := Qfloor x in
  (inject_Z f <= x < inject_Z f + 1)%Q
  /\ (((x - inject_Z f < 1 # 2)%Q /\ nearestEven x = f)
      \/ ((x - inject_Z f == 1 # 2)%Q /\ (nearestEven x = f \/ nearestEven x = (f + 1)%Z)
          /\ Z.even (nearestEven x) = true)
      \/ ((1 # 2 < x - inject_Z f)%Q /\ nearestEven x = (f + 1)%Z)).
Proof.
  intros f. subst f. split.
  - split; [apply Qfloor_le|].
    pose proof (Qlt_floor x) as H. rewrite inject_Z_plus in H. exact H.
  - unfold nearestEven.
    destruct (x - inject_Z (Qfloor x) ?= 1 # 2)%Q eqn:E.
    + apply Qeq_alt in E. right; left. split; [assumption|].
      destruct (Z.even (Qfloor x)) eqn:Ev; [auto|].
      split; [auto|]. rewrite Z.even_add, Ev. reflexivity.
    + apply Qlt_alt in E. left. auto.
    + apply Qgt_alt in E. right; right. auto.
Qed.

Lemma nearestEven_near (x : Q) :
  (x - (1 # 2) <= inject_Z (nearestEven x) <= x + (1 # 2))%Q.
Proof.
  destruct (nearestEven_cases x) as [[Hlo Hhi] [[Hr ->] | [(Hr & [-> | ->] & _) | [Hr ->]]]];
    rewrite ?inject_Z_plus; change (inject_Z 1) with 1%Q; lra.
Qed.

Lemma nearestEven_Z (n : Z) : nearestEven (inject_Z n) = n.
Proof.
  destruct (nearestEven_cases (inject_Z n)) as [_ H].
  rewrite Qfloor_Z in H.
  destruct H as [[_ H] | [[Hr _] | [Hr _]]]; [assumption | lra | lra].
Qed.

Lemma nearestEven_le (x y : Q) : (x <= y)%Q -> (nearestEven x <= nearestEven y)%Z.
Proof.
  intros Hxy. pose proof (Qfloor_resp_le x y Hxy) as Hf.
  destruct (nearestEven_cases x) as [[Hx1 Hx2] Hx].
  destruct (nearestEven_cases y) as [[Hy1 Hy2] Hy].
  destruct (Z.eq_dec (Qfloor x) (Qfloor y)) as [Heq|Hne].
  - rewrite Heq in *.
    destruct Hx as [[Hrx ->] | [(Hrx & Hvx & Hex) | [Hrx ->]]];
      destruct Hy as [[Hry ->] | [(Hry & Hvy & Hey) | [Hry ->]]];
      try lia; try lra.
    destruct Hvx as [Hvx | Hvx], Hvy as [Hvy | Hvy]; rewrite Hvx, Hvy; try lia.
    exfalso. rewrite Hvx in Hex. rewrite Hvy in Hey.
    rewrite Z.even_add in Hex. rewrite Hey in Hex. discriminate.
  - assert (nearestEven x <= Qfloor x + 1)%Z as Hux
      by (destruct Hx as [[_ ->] | [(_ & [-> | ->] & _) | [_ ->]]]; lia).
    assert (Qfloor y <= nearestEven y)%Z as Hly
      by (destruct Hy as [[_ ->] | [(_ & [-> | ->] & _) | [_ ->]]]; lia).
    lia.
Qed.

Lemma roundPositive_bounds (q : Q) :
  (0 < q)%Q ->
  (roundPositive q <= pow2 (exponent q + 53))%Q
  /\ ((-1074 < exponent q)%Z -> (pow2 (exponent q + 52) <= roundPositive q)%Q)
  /\ (0 <= roundPositive q)%Q.
Proof.
  intros Hq. unfold roundPositive.
  pose proof (pow2_pos (exponent q)) as He.
  destruct (ilog2_spec q Hq) as [Hlo Hhi].
  set (e := exponent q) in *.
  assert (q / pow2 e <= inject_Z (2 ^ 53))%Q as Hup.
  { apply Qle_shift_div_r; [assumption|].
    rewrite <- pow2_Z by lia. rewrite <- pow2_plus.
    apply Qlt_le_weak. apply Qlt_le_trans with (1 := Hhi).
    apply pow2_le. subst e. unfold exponent. lia. }
  split; [|split].
  - apply nearestEven_le in Hup. rewrite nearestEven_Z in Hup.
    rewrite Zle_Qle in Hup. rewrite pow2_plus, (pow2_Z 53) by lia.
    rewrite (Qmult_comm (pow2 e)). apply Qmult_le_compat_r; [assumption | lra].
  - intros Hnormal.
    assert (inject_Z (2 ^ 52) <= q / pow2 e)%Q as Hdown.
    { apply Qle_shift_div_l; [assumption|].
      rewrite <- pow2_Z by lia. rewrite <- pow2_plus.
      apply Qle_trans with (2 := Hlo). apply pow2_le.
      subst e. unfold exponent in *. lia. }
    apply nearestEven_le in Hdown. rewrite nearestEven_Z in Hdown.
    rewrite Zle_Qle in Hdown. rewrite pow2_plus, (pow2_Z 52) by lia.
    rewrite (Qmult_comm (pow2 e)). apply Qmult_le_compat_r; [assumption | lra].
  - apply Qmult_le_0_compat; [|lra].
    assert (0 <= q / pow2 e)%Q as Hnn
      by (apply Qle_shift_div_l; [assumption | lra]).
    apply nearestEven_le in Hnn. change 0%Q with (inject_Z 0) in Hnn.
    rewrite nearestEven_Z in Hnn. now rewrite Zle_Qle in Hnn.
Qed.

Lemma roundPositive_le (a b : Q) :
  (0 < a)%Q -> (a <= b)%Q -> (roundPositive a <= roundPositive b)%Q.
Proof.
  intros Ha Hab. assert (0 < b)%Q as Hb by lra.
  pose proof (exponent_le a b Ha Hab) as He.
  destruct (Z.eq_dec (exponent a) (exponent b)) as [Heq|Hne].
  - unfold roundPositive. rewrite Heq.
    pose proof (pow2_pos (exponent b)) as Hp.
    apply Qmult_le_compat_r; [|lra]. rewrite <- Zle_Qle.
    apply nearestEven_le. apply Qmult_le_compat_r; [assumption|].
    apply Qlt_le_weak, Qinv_lt_0_compat. assumption.
  - destruct (roundPositive_bounds a Ha) as (Hua & _ & _).
    destruct (roundPositive_bounds b Hb) as (_ & Hlb & _).
    assert (-1074 < exponent b)%Z as Hnormal by (unfold exponent in *; lia).
    specialize (Hlb Hnormal).
    apply Qle_trans with (1 := Hua). apply Qle_trans with (2 := Hlb).
    apply pow2_le. lia.
Qed.

Lemma round_cases (q : Q) :
  ((q == 0)%Q /\ round q = 0%Q)
  \/ ((q < 0)%Q /\ round q = (- roundPositive (- q))%Q)
  \/ ((0 < q)%Q /\ round q = roundPositive q).
Proof.
  unfold round. destruct (q ?= 0)%Q eqn:E.
  - left. split; [now apply Qeq_alt | reflexivity].
  - right; left. split; [now apply Qlt_alt | reflexivity].
  - right; right. split; [|reflexivity]. apply Qgt_alt in E. exact E.
Qed.

(** Rounding to a double keeps the order. *)
Lemma round_le (a b : Q) : (a <= b)%Q -> (round a <= round b)%Q.
Proof.
  intros Hab.
  destruct (round_cases a) as [[Ha ->] | [[Ha ->] | [Ha ->]]];
    destruct (round_cases b) as [[Hb ->] | [[Hb ->] | [Hb ->]]];
    try lra.
  - destruct (roundPositive_bounds b Hb) as (_ & _ & H). exact H.
  - destruct (roundPositive_bounds (- a)) as (_ & _ & H); lra.
  - assert (roundPositive (- b) <= roundPositive (- a))%Q
      by (apply roundPositive_le; lra). lra.
  - destruct (roundPositive_bounds (- a)) as (_ & _ & H); [lra|].
    destruct (roundPositive_bounds b Hb) as (_ & _ & H'). lra.
  - now apply roundPositive_le.
Qed.

Lemma roundPositive_near (q : Q) (k : Z) :
  (0 < q < pow2 k)%Q -> (-1021 <= k)%Z ->
  (Qabs (roundPositive q - q) <= pow2 (k - 54))%Q.
Proof.
  intros [Hq Hk] Hnormal. unfold roundPositive.
  destruct (ilog2_spec q Hq) as [Hlo _].
  assert (pow2 (ilog2 q) < pow2 k)%Q as Hlog by lra.
  apply pow2_lt_inv in Hlog.
  assert (exponent q <= k - 53)%Z as He by (unfold exponent; lia).
  pose proof (pow2_pos (exponent q)) as Hp.
  pose proof (nearestEven_near (q / pow2 (exponent q))) as [Hn1 Hn2].
  set (e := exponent q) in *. set (m := inject_Z (nearestEven (q / pow2 e))) in *.
  assert (q == q / pow2 e * pow2 e)%Q as Hq' by (field; lra).
  assert (pow2 e == 2 * pow2 (e - 1))%Q as Hhalf.
  { replace e with (1 + (e - 1))%Z at 1 by lia. now rewrite pow2_plus. }
  pose proof (pow2_pos (e - 1)) as Hp'.
  apply Qle_trans with (pow2 (e - 1)); [|apply pow2_le; lia].
  apply Qabs_Qle_condition. rewrite Hhalf in *.
  set (u := pow2 (e - 1)) in *. set (x := (q / (2 * u))%Q) in *.
  split.
  - assert (0 <= (m - x + (1 # 2)) * (2 * u))%Q as H
      by (apply Qmult_le_0_compat; lra).
    setoid_replace (m * (2 * u) - q)%Q with ((m - x) * (2 * u))%Q
      using relation Qeq
      by (rewrite Hq' at 1; ring).
    lra.
  - assert (0 <= (x + (1 # 2) - m) * (2 * u))%Q as H
      by (apply Qmult_le_0_compat; lra).
    setoid_replace (m * (2 * u) - q)%Q with ((m - x) * (2 * u))%Q
      using relation Qeq
      by (rewrite Hq' at 1; ring).
    lra.
Qed.

(** A double is within half a unit in the last place of what it rounds. *)
Lemma round_near (q : Q) (k : Z) :
  (Qabs q < pow2 k)%Q -> (-1021 <= k)%Z ->
  (Qabs (round q - q) <= pow2 (k - 54))%Q.
Proof.
  intros Hk Hnormal.
  destruct (round_cases q) as [[Hq ->] | [[Hq ->] | [Hq ->]]].
  - setoid_replace (0 - q)%Q with 0%Q using relation Qeq by lra.
    apply Qlt_le_weak, pow2_pos.
  - rewrite Qabs_neg in Hk by lra.
    pose proof (roundPositive_near (- q) k) as H.
    setoid_replace (- roundPositive (- q) - q)%Q
      with (- (roundPositive (- q) - - q))%Q using relation Qeq by ring.
    rewrite Qabs_opp. apply H; [lra | assumption].
  - rewrite Qabs_pos in Hk by lra.
    apply roundPositive_near; [lra | assumption].
Qed.

Lemma nearestEven_nearest (x : Q) (k : Z) :
  (Qabs (inject_Z (nearestEven x) - x) <= Qabs (inject_Z k - x))%Q.
Proof.
  pose proof (nearestEven_near x) as [H1 H2].
  destruct (Z.eq_dec k (nearestEven x)) as [->|Hne]; [apply Qle_refl|].
  apply Qle_trans with (1 # 2)%Q; [apply Qabs_Qle_condition; lra|].
  assert (inject_Z k <= inject_Z (nearestEven x) - 1
          \/ inject_Z (nearestEven x) + 1 <= inject_Z k)%Q as [Hk | Hk].
  { destruct (Z_lt_le_dec k (nearestEven x)) as [Hlt | Hge].
    - left. assert (k <= nearestEven x - 1)%Z as H by lia.
      rewrite Zle_Qle in H. unfold Zminus in H.
      rewrite inject_Z_plus, inject_Z_opp in H. exact H.
    - right. assert (nearestEven x + 1 <= k)%Z as H by lia.
      rewrite Zle_Qle in H. rewrite inject_Z_plus in H. exact H. }
  - rewrite Qabs_neg by lra. lra.
  - rewrite Qabs_pos by lra. lra.
Qed.

Lemma pow2_split (e e' : Z) :
  (e <= e')%Z -> (pow2 e' == inject_Z (2 ^ (e' - e)) * pow2 e)%Q.
Proof.
  intros H. rewrite <- pow2_Z by lia. rewrite <- pow2_plus.
  now replace (e' - e + e)%Z with e' by lia.
Qed.

Lemma roundPositive_isDouble (q : Q) : (0 < q)%Q -> isDouble (roundPositive q).
Proof.
  intros Hq. unfold roundPositive.
  pose proof (pow2_pos (exponent q)) as Hp.
  destruct (ilog2_spec q Hq) as [_ Hhi].
  set (e := exponent q) in *.
  assert (-1074 <= e)%Z as He by (subst e; unfold exponent; lia).
  assert (0 <= nearestEven (q / pow2 e) <= 2 ^ 53)%Z as [Hm0 Hm53].
  { split.
    - assert (0 <= q / pow2 e)%Q as Hnn
        by (apply Qle_shift_div_l; [assumption | lra]).
      apply nearestEven_le in Hnn. change 0%Q with (inject_Z 0) in Hnn.
      now rewrite nearestEven_Z in Hnn.
    - assert (q / pow2 e <= inject_Z (2 ^ 53))%Q as Hup.
      { apply Qle_shift_div_r; [assumption|].
        rewrite <- pow2_Z by lia. rewrite <- pow2_plus.
        apply Qlt_le_weak. apply Qlt_le_trans with (1 := Hhi).
        apply pow2_le. subst e. unfold exponent. lia. }
      apply nearestEven_le in Hup. now rewrite nearestEven_Z in Hup. }
  destruct (Z.eq_dec (nearestEven (q / pow2 e)) (2 ^ 53)%Z) as [Htop | Hbelow].
  - exists (2 ^ 52)%Z, (e + 1)%Z. split; [lia|]. split; [reflexivity|].
    rewrite Htop. rewrite (pow2_plus e 1).
    change (pow2 1) with 2%Q.
    change (inject_Z (2 ^ 53)) with (inject_Z (2 ^ 52) * 2)%Q. ring.
  - exists (nearestEven (q / pow2 e)), e. split; [assumption|].
    split; [lia | reflexivity].
Qed.

Lemma roundPositive_nearest (q d : Q) :
  (0 < q)%Q -> isDouble d ->
  (Qabs (roundPositive q - q) <= Qabs (d - q))%Q.
Proof.
  intros Hq (m & e' & He' & Hm & Hd). unfold roundPositive.
  pose proof (pow2_pos (exponent q)) as Hp.
  destruct (ilog2_spec q Hq) as [Hlo _].
  set (e := exponent q) in *. set (x := (q / pow2 e)%Q).
  assert (q == x * pow2 e)%Q as Hqx by (unfold x; field; lra).
  assert (forall k : Q, Qabs (k * pow2 e - q) == Qabs (k - x) * pow2 e)%Q as Hscale.
  { intros k. setoid_replace (k * pow2 e - q)%Q with ((k - x) * pow2 e)%Q using relation Qeq
      by (rewrite Hqx at 1; ring).
    rewrite Qabs_Qmult. now rewrite (Qabs_pos (pow2 e)) by lra. }
  rewrite Hscale.
  destruct (Z_le_gt_dec e e') as [Hle | Hgt].
  - rewrite Hd, (pow2_split e e' Hle), Qmult_assoc, <- inject_Z_mult, Hscale.
    apply Qmult_le_compat_r; [apply nearestEven_nearest | lra].
  - assert (-1074 < e)%Z as Hnormal by lia.
    assert (pow2 (e + 52) <= q)%Q as Hq52.
    { apply Qle_trans with (2 := Hlo). apply pow2_le.
      subst e. unfold exponent in *. lia. }
    assert (d < pow2 (e + 52))%Q as Hd52.
    { rewrite Hd. apply Qle_lt_trans with (inject_Z (Z.abs m) * pow2 e')%Q.
      - apply Qmult_le_compat_r; [|apply Qlt_le_weak, pow2_pos].
        rewrite <- Zle_Qle. lia.
      - apply Qlt_le_trans with (inject_Z (2 ^ 53) * pow2 e')%Q.
        + apply Qmult_lt_compat_r; [apply pow2_pos|]. now rewrite <- Zlt_Qlt.
        + rewrite <- pow2_Z by lia. rewrite <- pow2_plus. apply pow2_le. lia. }
    apply Qle_trans with (Qabs (inject_Z (2 ^ 52) - x) * pow2 e)%Q.
    + apply Qmult_le_compat_r; [apply nearestEven_nearest | lra].
    + rewrite <- Hscale. rewrite <- pow2_Z by lia.
      rewrite <- pow2_plus. replace (52 + e)%Z with (e + 52)%Z by lia.
      rewrite (Qabs_neg (pow2 (e + 52) - q)) by lra.
      rewrite (Qabs_neg (d - q)) by lra. lra.
Qed.

Lemma isDouble_opp (d : Q) : isDouble d -> isDouble (- d).
Proof.
  intros (m & e & He & Hm & Hd). exists (- m)%Z, e.
  split; [assumption|]. split; [lia|]. rewrite Hd, inject_Z_opp. ring.
Qed.

(** [round q] is a double, and no double is nearer to [q]. *)
Lemma round_nearest (q : Q) :
  isDouble (round q)
  /\ forall d : Q, isDouble d -> (Qabs (round q - q) <= Qabs (d - q))%Q.
Proof.
  destruct (round_cases q) as [[Hq ->] | [[Hq ->] | [Hq ->]]].
  - split.
    + exists 0%Z, 0%Z. split; [lia|]. split; [reflexivity|]. reflexivity.
    + intros d _. setoid_replace (0 - q)%Q with 0%Q using relation Qeq by lra.
      apply Qabs_nonneg.
  - assert (0 < - q)%Q as Hpos by lra. split.
    + apply isDouble_opp. now apply roundPositive_isDouble.
    + intros d Hd. apply isDouble_opp in Hd.
      pose proof (roundPositive_nearest (- q) (- d) Hpos Hd) as H.
      setoid_replace (- roundPositive (- q) - q)%Q
        with (- (roundPositive (- q) - - q))%Q using relation Qeq by ring.
      setoid_replace (d - q)%Q with (- (- d - - q))%Q using relation Qeq by ring.
      now rewrite !Qabs_opp.
  - split; [now apply roundPositive_isDouble|].
    intros d Hd. now apply roundPositive_nearest.
Qed.

(** Rounding to a double respects the equality of rationals. *)
Lemma round_eq (a b : Q) : (a == b)%Q -> (round a == round b)%Q.
Proof.
  intros H. apply Qle_antisym; apply round_le; rewrite H; apply Qle_refl.
Qed.

Lemma mul_number_eq (a b : Q) :
  (a == b)%Q -> (mul (number a) 100 == mul (number b) 100)%Q.
Proof.
  intros H. unfold mul, number. apply round_eq.
  now rewrite (round_eq a b H).
Qed.

(** The products [0.575 * 100], [0.285 * 100], [0.145 * 100] and
    [0.565 * 100] of doubles lie just below the half, and
    [0.7000000000000001 * 100] is the double 70. *)
Example mul_hundred_examples :
  List.map (fun q => Home.Math_round (mul (number q) 100))
           [0.575; 0.285; 0.145; 0.565; 0.7; 1.005; 0.005]%Q
  = [57; 28; 14; 56; 70; 100; 1]%Z
  /\ (mul (number 0.575) 100 == 8092405580431359 # 140737488355328)%Q
  /\ (mul (number 0.7000000000000001) 100 == 70)%Q.
Proof. vm_compute. repeat split. Qed.

(** A hundred times a fraction, as a product of doubles. *)
Lemma mul_hundred_near (score : Q) :
  (0 <= score <= 1)%Q ->
  (0 <= round (score * 100) <= 100)%Q
  /\ (Qabs (round (score * 100) - score * 100) <= pow2 (-47))%Q.
Proof.
  intros [Hlo Hhi].
  assert (round 0 == 0)%Q as H0 by (vm_compute; reflexivity).
  assert (round 100 == 100)%Q as H100 by (vm_compute; reflexivity).
  split.
  - split.
    + apply Qle_trans with (round 0); [lra | apply round_le; lra].
    + apply Qle_trans with (round 100); [apply round_le; lra | lra].
  - assert (Qabs (score * 100) < pow2 7)%Q as Hsmall.
    { rewrite Qabs_pos by lra.
      apply Qle_lt_trans with 100%Q; [lra | vm_compute; reflexivity]. }
    exact (round_near (score * 100) 7 Hsmall ltac:(lia)).
Qed.

End Rounding.

(** ** The normal form of a content *)

Section Normalization.
Import JsString.

Ltac by_cases_on_char c :=
  destruct c as [[] [] [] [] [] [] [] []]; vm_compute; try discriminate; auto.

Lemma lower_word_of_lowered (c : ascii) :
  isWordChar (toLowerChar c) = true -> Spec.isLowerWord (toLowerChar c) = true.
Proof. by_cases_on_char c. Qed.

Lemma white_not_word (c : ascii) :
  isWhiteSpace c = true -> Spec.isLowerWord c = false.
Proof. by_cases_on_char c. Qed.

Lemma space_is_white (c : ascii) :
  Ascii.eqb c " " = true -> isWhiteSpace c = true.
Proof. by_cases_on_char c. Qed.

Lemma removeOutside_wordsAndWhite (s : string) :
  Spec.wordsAndWhite
    (removeOutside (fun c => isWordChar c || isWhiteSpace c) (toLowerCase s)).
Proof.
  induction s as [|c s IH]; simpl; [exact I|].
  destruct (isWordChar (toLowerChar c)) eqn:Ew; simpl.
  - split; [|exact IH]. left. now apply lower_word_of_lowered.
  - destruct (isWhiteSpace (toLowerChar c)) eqn:Es; [|exact IH].
    simpl. split; [now right | exact IH].
Qed.

Lemma collapseFrom_spaced (inRun : bool) (s : string) :
  Spec.wordsAndWhite s -> Spec.spaced inRun (collapseFrom inRun s).
Proof.
  revert inRun. induction s as [|c s IH]; intros inRun; simpl; [tauto|].
  intros [Hc Hs]. destruct (isWhiteSpace c) eqn:Ews.
  - destruct inRun; [now apply IH|].
    simpl. split; [reflexivity | now apply IH].
  - destruct Hc as [Hc|Hc]; [|congruence].
    simpl. destruct (Ascii.eqb c " ") eqn:Esp.
    + apply space_is_white in Esp. congruence.
    + split; [assumption | now apply IH].
Qed.

Lemma spaced_weaken (afterSpace : bool) (s : string) :
  Spec.spaced afterSpace s -> Spec.spaced false s.
Proof.
  destruct s as [|c s]; simpl; [tauto|].
  destruct (Ascii.eqb c " "); tauto.
Qed.

Lemma trimStart_spaced (afterSpace : bool) (s : string) :
  Spec.spaced afterSpace s -> Spec.spaced true (trimStart s).
Proof.
  revert afterSpace. induction s as [|c s IH]; intros afterSpace; simpl; [tauto|].
  destruct (Ascii.eqb c " ") eqn:Esp.
  - intros [_ Hs]. rewrite (space_is_white c Esp). now apply (IH true).
  - intros [Hc Hs]. destruct (isWhiteSpace c) eqn:Ews.
    + apply white_not_word in Ews. congruence.
    + simpl. now rewrite Esp.
Qed.

Lemma trimEnd_spaced (afterSpace : bool) (s : string) :
  Spec.spaced afterSpace s -> Spec.spaced afterSpace (trimEnd s).
Proof.
  revert afterSpace. induction s as [|c s IH]; intros afterSpace; simpl; [tauto|].
  intros H.
  destruct (isWhiteSpace c && String.eqb (trimEnd s) ""); [exact I|].
  simpl. destruct (Ascii.eqb c " ").
  - destruct H as [Hb Hs]. split; [assumption | now apply IH].
  - destruct H as [Hc Hs]. split; [assumption | now apply IH].
Qed.

Lemma trimEnd_lastChar (s : string) (c : ascii) :
  Spec.lastChar (trimEnd s) = Some c -> isWhiteSpace c = false.
Proof.
  induction s as [|a s IH]; simpl; [discriminate|].
  destruct (isWhiteSpace a) eqn:Ews; simpl.
  - destruct (String.eqb (trimEnd s) "") eqn:E; simpl; [discriminate|].
    destruct (Spec.lastChar (trimEnd s)) as [d|] eqn:El.
    + intros [= ->]. now apply IH.
    + apply String.eqb_neq in E. destruct (trimEnd s); [congruence|].
      simpl in El. destruct (Spec.lastChar s0); discriminate.
  - destruct (Spec.lastChar (trimEnd s)) as [d|] eqn:El.
    + intros [= ->]. now apply IH.
    + intros [= ->]. assumption.
Qed.

(** The normalized content is in normal form. *)
Lemma normalizeContent_normalForm (content : string) :
  Spec.normalForm (Home.normalizeContent content).
Proof.
  unfold Spec.normalForm, Home.normalizeContent, trim. split.
  - apply trimEnd_spaced, (trimStart_spaced false), collapseFrom_spaced,
      removeOutside_wordsAndWhite.
  - intros Hlast. apply trimEnd_lastChar in Hlast. discriminate.
Qed.

End Normalization.

(** ** The near-duplicate test of the feed *)

Section Similarity.
Import JsString Home.

Lemma similarNormalized_iff (a b : string) :
  similarNormalized a b = true <-> Spec.nearDuplicateOfLongContent a b.
Proof.
  unfold similarNormalized, Spec.nearDuplicateOfLongContent.
  destruct (String.eqb a b) eqn:Eab.
  - apply String.eqb_eq in Eab. tauto.
  - apply String.eqb_neq in Eab.
    destruct (20 <? _)%nat eqn:Elen.
    + apply Nat.ltb_lt in Elen.
      destruct (gtb _ 0.8) eqn:Eratio.
      * apply gtb_iff in Eratio.
        rewrite orb_true_iff, !includes_iff_occurs. tauto.
      * assert (~ (0.8 < lengthRatio (Nat.min (String.length a) (String.length b))
                                     (Nat.max (String.length a) (String.length b)))%Q)
          as Hno by (rewrite <- gtb_iff; congruence).
        split; [discriminate | tauto].
    + apply Nat.ltb_ge in Elen. split; [discriminate|].
      intros [H|[H _]]; [tauto | lia].
Qed.

Lemma similarNormalized_refl (a : string) : similarNormalized a a = true.
Proof. unfold similarNormalized. now rewrite String.eqb_refl. Qed.

Lemma similarNormalized_sym (a b : string) :
  similarNormalized a b = similarNormalized b a.
Proof.
  unfold similarNormalized.
  rewrite (String.eqb_sym a b), (Nat.min_comm (String.length a)),
    (Nat.max_comm (String.length a)).
  destruct (String.eqb b a); [reflexivity|].
  destruct (20 <? _)%nat; [|reflexivity].
  destruct (gtb _ _); [apply orb_comm | reflexivity].
Qed.

Lemma similar_refl (x : Scam) : similar x x = true.
Proof. apply similarNormalized_refl. Qed.

Lemma similar_sym (x y : Scam) : similar x y = similar y x.
Proof. apply similarNormalized_sym. Qed.

(** C1, as the specification states it, fails: two short contents, one
    of which contains the other and whose lengths are in the ratio
    15 to 18, are not taken as duplicates by the page. *)
Lemma near_duplicate_short_content_counterexample :
  ~ (forall scam other : Scam,
        similar scam other = true
        <-> Spec.nearDuplicate (normalizeContent (anonymized_content scam))
                               (normalizeContent (anonymized_content other))).
Proof.
  intros H.
  specialize (H (mkScam 1 "dangerous" 90 "Claim prize now!" 1 [])
                (mkScam 2 "dangerous" 90 "claim prize now ok" 1 [])).
  assert (similar (mkScam 1 "dangerous" 90 "Claim prize now!" 1 [])
                  (mkScam 2 "dangerous" 90 "claim prize now ok" 1 []) = false)
    as Hfalse by (vm_compute; reflexivity).
  rewrite Hfalse in H. destruct H as [_ H].
  enough (false = true) by discriminate. apply H.
  right. split.
  - vm_compute. reflexivity.
  - right. exists "", " ok". vm_compute. reflexivity.
Qed.

(** C1, amended: two entries are taken as duplicates exactly when their
    normalized contents are equal, or the shorter one has more than 20
    code units, the ratio of the shorter length to the longer is above
    0.8 and one content contains the other.  The normalization puts the
    content in lower case, deletes what is neither a word character nor
    white space, collapses white space and trims, which leaves words of
    lower-case letters, digits and underscores with single spaces
    between them; it leaves the digits of a telephone number and the
    letters of a mail address in place. *)
Theorem near_duplicate_iff (scam other : Scam) :
  (similar scam other = true
   <-> Spec.nearDuplicateOfLongContent
         (normalizeContent (anonymized_content scam))
         (normalizeContent (anonymized_content other)))
  /\ Spec.normalForm (normalizeContent (anonymized_content scam))
  /\ normalizeContent "Call  077-123 4567, or mail Prize@Bank.lk! "
     = "call 077123 4567 or mail prizebanklk".
Proof.
  split; [|split].
  - unfold similar, similarTo. apply similarNormalized_iff.
  - apply normalizeContent_normalForm.
  - vm_compute. reflexivity.
Qed.

End Similarity.

(** ** Arrays *)

Section ArrayFacts.
Import JsArray.
Context {A : Type}.

(** [findIndex] answers the position of the first element that
    satisfies the predicate, or [-1] when there is none. *)
Lemma findIndexFrom_first (p : A -> bool) (l : list A) (i : Z) :
  (findIndexFrom p i l = (-1)%Z /\ Forall (fun x => p x = false) l)
  \/ (exists (k : nat) (x : A),
         findIndexFrom p i l = (i + Z.of_nat k)%Z
         /\ l !! k = Some x /\ p x = true
         /\ forall (j : nat) (y : A), (j < k)%nat -> l !! j = Some y -> p y = false).
Proof.
  revert i. induction l as [|a l IH]; intros i; simpl.
  - left. split; [reflexivity | constructor].
  - destruct (p a) eqn:Ea.
    + right. exists 0%nat, a.
      split; [lia|]. split; [reflexivity|]. split; [assumption|]. intros; lia.
    + destruct (IH (i + 1)%Z) as [[Hm Hall]|(k & x & Hk & Hx & Hp & Hbefore)].
      * left. split; [assumption | now constructor].
      * right. exists (S k), x.
        split; [lia|]. split; [assumption|]. split; [assumption|].
        intros [|j] y Hj Hy; simpl in Hy.
        -- congruence.
        -- apply (Hbefore j); [lia | assumption].
Qed.

Lemma findIndex_at (p : A -> bool) (l : list A) (k : nat) (x : A) :
  l !! k = Some x -> p x = true ->
  (findIndex p l = Z.of_nat k
   <-> forall (j : nat) (y : A), (j < k)%nat -> l !! j = Some y -> p y = false).
Proof.
  intros Hx Hp. unfold findIndex.
  destruct (findIndexFrom_first p l 0) as [[_ Hall]|(k' & x' & -> & Hx' & Hp' & Hbefore)].
  - rewrite Forall_lookup in Hall. specialize (Hall k x Hx). simpl in Hall. congruence.
  - split.
    + intros Hk j y Hj. assert (k' = k) as -> by lia. now apply Hbefore.
    + intros Hfirst.
      destruct (Nat.lt_trichotomy k' k) as [Hlt|[->|Hgt]].
      * specialize (Hfirst k' x' Hlt Hx'). congruence.
      * lia.
      * specialize (Hbefore k x Hgt Hx). congruence.
Qed.

Lemma findIndex_before (p : A -> bool) (l : list A) (k : nat) (x : A) :
  l !! k = Some x -> p x = true -> findIndex p l <> Z.of_nat k ->
  exists (j : nat) (y : A),
    (j < k)%nat /\ l !! j = Some y /\ p y = true /\ findIndex p l = Z.of_nat j.
Proof.
  intros Hx Hp Hne. unfold findIndex in *.
  destruct (findIndexFrom_first p l 0) as [[_ Hall]|(k' & x' & Hk' & Hx' & Hp' & Hbefore)].
  - rewrite Forall_lookup in Hall. specialize (Hall k x Hx). simpl in Hall. congruence.
  - exists k', x'. rewrite Hk' in *.
    split; [|split; [assumption|split; [assumption|lia]]].
    destruct (Nat.lt_trichotomy k' k) as [Hlt|[->|Hgt]]; [assumption | lia |].
    specialize (Hbefore k x Hgt Hx). congruence.
Qed.

Lemma filterFrom_sublist (p : A -> Z -> list A -> bool) (array : list A)
      (i : Z) (l : list A) :
  filterFrom p array i l `sublist_of` l.
Proof.
  revert i. induction l as [|a l IH]; intros i; simpl.
  - constructor.
  - destruct (p a i array); [apply sublist_skip | apply sublist_cons]; apply IH.
Qed.

Lemma elem_of_filterFrom (p : A -> Z -> list A -> bool) (array : list A)
      (k : nat) (l : list A) (x : A) :
  x ∈ filterFrom p array (Z.of_nat k) l
  <-> exists j : nat, l !! j = Some x /\ p x (Z.of_nat (k + j)) array = true.
Proof.
  revert k. induction l as [|a l IH]; intros k; simpl.
  - split; [intros H; inversion H | intros (j & H & _); discriminate].
  - replace (Z.of_nat k + 1)%Z with (Z.of_nat (S k)) by lia.
    assert (x ∈ filterFrom p array (Z.of_nat (S k)) l
            <-> exists j : nat, (a :: l) !! S j = Some x
                                /\ p x (Z.of_nat (k + S j)) array = true) as Htail.
    { rewrite IH. split; intros (j & Hj & Hp); exists j; split; try assumption.
      - now replace (k + S j)%nat with (S k + j)%nat by lia.
      - now replace (S k + j)%nat with (k + S j)%nat by lia. }
    destruct (p a (Z.of_nat k) array) eqn:Ea.
    + rewrite elem_of_cons, Htail. split.
      * intros [->|(j & Hj & Hp)].
        -- exists 0%nat. split; [reflexivity|]. now rewrite Nat.add_0_r.
        -- exists (S j). now split.
      * intros ([|j] & Hj & Hp).
        -- left. simpl in Hj. congruence.
        -- right. exists j. now split.
    + rewrite Htail. split.
      * intros (j & Hj & Hp). exists (S j). now split.
      * intros ([|j] & Hj & Hp).
        -- simpl in Hj. injection Hj as ->. rewrite Nat.add_0_r in Hp. congruence.
        -- exists j. now split.
Qed.

Lemma elem_of_filterIndexed (p : A -> Z -> list A -> bool) (array : list A)
      (x : A) :
  x ∈ filterIndexed p array
  <-> exists j : nat, array !! j = Some x /\ p x (Z.of_nat j) array = true.
Proof. unfold filterIndexed. apply (elem_of_filterFrom p array 0). Qed.

Lemma slice_sublist (start stop : Z) (array : list A) :
  slice start stop array `sublist_of` array.
Proof.
  unfold slice. etransitivity; [apply sublist_take | apply sublist_drop].
Qed.

End ArrayFacts.

(** ** The deduplication pass of the feed *)

Section Deduplication.
Import JsString JsArray Home.

Lemma isFirstOccurrence_iff (scams : list Scam) (i : nat) (x : Scam) :
  scams !! i = Some x ->
  (isFirstOccurrence x (Z.of_nat i) scams = true <-> Spec.firstOfItsKind scams i x).
Proof.
  intros Hx. unfold isFirstOccurrence, Spec.firstOfItsKind.
  rewrite Z.eqb_eq. apply findIndex_at with (x := x); [assumption|].
  apply similar_refl.
Qed.

Lemma lookup_of_drop (scams : list Scam) (k : nat) (a : Scam) (l : list Scam) :
  drop k scams = a :: l -> scams !! k = Some a /\ drop (S k) scams = l.
Proof.
  intros H. split.
  - replace k with (k + 0)%nat by lia. rewrite <- lookup_drop, H. reflexivity.
  - replace (S k) with (k + 1)%nat by lia. rewrite <- drop_drop, H. reflexivity.
Qed.

Lemma filterFrom_pairwise (scams l : list Scam) (k : nat) :
  drop k scams = l ->
  ForallOrdPairs (fun x y => similar y x = false)
                 (filterFrom isFirstOccurrence scams (Z.of_nat k) l).
Proof.
  revert k. induction l as [|a l IH]; intros k Hdrop; simpl.
  - constructor.
  - apply lookup_of_drop in Hdrop as [Ha Hl].
    replace (Z.of_nat k + 1)%Z with (Z.of_nat (S k)) by lia.
    destruct (isFirstOccurrence a (Z.of_nat k) scams); [|now apply IH].
    constructor; [|now apply IH].
    apply Forall_forall. intros y Hy.
    apply elem_of_filterFrom in Hy as (j & Hj & Hkept).
    assert (scams !! (S k + j)%nat = Some y) as Hy
      by (now rewrite <- Hl, lookup_drop in Hj).
    apply (isFirstOccurrence_iff scams _ y Hy) in Hkept.
    apply (Hkept k a); [lia | assumption].
Qed.

(** Every entry of the array has a kept entry that stands for it. *)
Lemma kept_stands_for (scams : list Scam) (j : nat) (y : Scam) :
  scams !! j = Some y ->
  exists (i : nat) (x : Scam),
    (i <= j)%nat /\ scams !! i = Some x
    /\ isFirstOccurrence x (Z.of_nat i) scams = true
    /\ x ∈ deduplicatedScams scams
    /\ Spec.standsFor scams i j.
Proof.
  revert y. induction j as [j IH] using lt_wf_ind. intros y Hy.
  destruct (isFirstOccurrence y (Z.of_nat j) scams) eqn:Ekept.
  - exists j, y. split; [lia|]. split; [assumption|]. split; [assumption|].
    split; [|constructor].
    unfold deduplicatedScams. apply elem_of_filterIndexed. now exists j.
  - unfold isFirstOccurrence in Ekept. apply Z.eqb_neq in Ekept.
    destruct (findIndex_before _ scams j y Hy (similar_refl y) Ekept)
      as (k & z & Hkj & Hz & Hsim & _).
    destruct (IH k Hkj z Hz) as (i & x & Hik & Hx & Hkept & Hin & Hchain).
    exists i, x. split; [lia|]. split; [assumption|]. split; [assumption|].
    split; [assumption|].
    now apply (Spec.standsFor_later scams i k j z y).
Qed.

(** C3, as the specification states it, fails: the second content of
    the example has the word "your" in its middle, so neither normalized
    content contains the other and the pass does not reduce the two
    entries to the first. *)
Lemma urgent_prize_counterexample :
  deduplicatedScams
    [mkScam 1 "dangerous" 95 Spec.urgentPrize 1 [];
     mkScam 2 "dangerous" 95 Spec.urgentYourPrize 1 []]
  <> [mkScam 1 "dangerous" 95 Spec.urgentPrize 1 []].
Proof. vm_compute. discriminate. Qed.

(** C3, amended: of the two contents of the example, normalized to 36
    and 41 code units, neither contains the other; the pass keeps both
    entries, in their order and as they are.  An entry that follows the
    first and differs from it in case, punctuation and spacing only is
    removed, and the first entry stays as it is. *)
Theorem urgent_prize_example (first second respelled : Scam) :
  anonymized_content first = Spec.urgentPrize ->
  anonymized_content second = Spec.urgentYourPrize ->
  anonymized_content respelled = Spec.urgentPrizeRespelled ->
  similar second first = false
  /\ deduplicatedScams [first; second] = [first; second]
  /\ similar respelled first = true
  /\ deduplicatedScams [first; respelled] = [first].
Proof.
  intros H1 H2 H3.
  unfold deduplicatedScams, filterIndexed, isFirstOccurrence, similar, similarTo.
  cbn [filterFrom findIndex findIndexFrom].
  unfold similarTo. rewrite H1, H2, H3.
  vm_compute. repeat split.
Qed.

Lemma urgent_prize_example_witness :
  similar (mkScam 2 "dangerous" (9 # 10) Spec.urgentYourPrize 4 [])
          (mkScam 1 "dangerous" 95 Spec.urgentPrize 1 []) = false
  /\ deduplicatedScams
       [mkScam 1 "dangerous" 95 Spec.urgentPrize 1 [];
        mkScam 2 "dangerous" (9 # 10) Spec.urgentYourPrize 4 []]
     = [mkScam 1 "dangerous" 95 Spec.urgentPrize 1 [];
        mkScam 2 "dangerous" (9 # 10) Spec.urgentYourPrize 4 []]
  /\ similar (mkScam 3 "critical" 80 Spec.urgentPrizeRespelled 2 [])
             (mkScam 1 "dangerous" 95 Spec.urgentPrize 1 []) = true
  /\ deduplicatedScams
       [mkScam 1 "dangerous" 95 Spec.urgentPrize 1 [];
        mkScam 3 "critical" 80 Spec.urgentPrizeRespelled 2 []]
     = [mkScam 1 "dangerous" 95 Spec.urgentPrize 1 []].
Proof.
  apply (urgent_prize_example
           (mkScam 1 "dangerous" 95 Spec.urgentPrize 1 [])
           (mkScam 2 "dangerous" (9 # 10) Spec.urgentYourPrize 4 [])
           (mkScam 3 "critical" 80 Spec.urgentPrizeRespelled 2 []));
    reflexivity.
Defined.

(** An entry that is kept is the first of every cluster it belongs
    to. *)
Lemma kept_is_first (scams : list Scam) (members : nat -> Prop) (i : nat)
      (x : Scam) :
  Spec.cluster scams members -> members i -> scams !! i = Some x ->
  isFirstOccurrence x (Z.of_nat i) scams = true ->
  forall j : nat, members j -> (i <= j)%nat.
Proof.
  intros (_ & Hvalid & Hmutual & _) Hi Hx Hkept j Hj.
  apply (isFirstOccurrence_iff scams i x Hx) in Hkept.
  destruct (Nat.le_gt_cases i j) as [Hle|Hlt]; [assumption|].
  destruct (Hvalid j Hj) as [y Hy].
  specialize (Hkept j y Hlt Hy).
  rewrite (Hmutual i j x y Hi Hj Hx Hy) in Hkept. discriminate.
Qed.

(** Where the test is transitive, the first entry of a cluster is
    kept. *)
Lemma first_is_kept (scams : list Scam) (members : nat -> Prop) (i : nat)
      (x : Scam) :
  Spec.transitiveOn scams ->
  Spec.cluster scams members -> members i -> scams !! i = Some x ->
  (forall j : nat, members j -> (i <= j)%nat) ->
  isFirstOccurrence x (Z.of_nat i) scams = true.
Proof.
  intros Htrans (_ & _ & Hmutual & Hmaximal) Hi Hx Hfirst.
  apply (isFirstOccurrence_iff scams i x Hx). intros k z Hk Hz.
  destruct (similar x z) eqn:Hsim; [exfalso|reflexivity].
  assert (members k) as Hmember.
  { apply (Hmaximal k z Hz). intros j y Hj Hy.
    apply (Htrans z x y);
      [now apply (list_elem_of_lookup_2 scams k)
      | now apply (list_elem_of_lookup_2 scams i)
      | now apply (list_elem_of_lookup_2 scams j)
      | now rewrite similar_sym
      | now apply (Hmutual i j)]. }
  specialize (Hfirst k Hmember). lia.
Qed.

(** A list on which the test is transitive: the first content of the
    example of section 8, the same content respelled, and the second
    content of the example. *)
Example transitive_example :
  Spec.transitiveOn
    [mkScam 1 "dangerous" 95 Spec.urgentPrize 1 [];
     mkScam 2 "critical" 80 Spec.urgentPrizeRespelled 2 [];
     mkScam 3 "dangerous" 90 Spec.urgentYourPrize 4 []]
  /\ deduplicatedScams
       [mkScam 1 "dangerous" 95 Spec.urgentPrize 1 [];
        mkScam 2 "critical" 80 Spec.urgentPrizeRespelled 2 [];
        mkScam 3 "dangerous" 90 Spec.urgentYourPrize 4 []]
     = [mkScam 1 "dangerous" 95 Spec.urgentPrize 1 [];
        mkScam 3 "dangerous" 90 Spec.urgentYourPrize 4 []].
Proof.
  split; [|vm_compute; reflexivity].
  intros x y z Hx Hy Hz.
  repeat (apply elem_of_cons in Hx as [-> | Hx]);
    repeat (apply elem_of_cons in Hy as [-> | Hy]);
    repeat (apply elem_of_cons in Hz as [-> | Hz]);
    try (now inversion Hx); try (now inversion Hy); try (now inversion Hz);
    vm_compute; intros; congruence.
Qed.

(** C4, as the specification states it, fails, for the near-duplicate
    test is not transitive.  Of three contents each contained in the
    next, the second and the third are similar to each other and to no
    other entry that is similar to both, yet the second, the first of
    the two, is not kept: the pass keeps the first content alone,
    although the third is not similar to it.  With the second and the
    third exchanged, the pass keeps two entries that a chain of similar
    entries joins. *)
Lemma first_match_counterexample :
  ~ Spec.firstMatchWins [Spec.lockedShort; Spec.lockedNow; Spec.lockedNowToday]
  /\ deduplicatedScams [Spec.lockedShort; Spec.lockedNow; Spec.lockedNowToday]
     = [Spec.lockedShort]
  /\ similar Spec.lockedNowToday Spec.lockedShort = false
  /\ deduplicatedScams [Spec.lockedShort; Spec.lockedNowToday; Spec.lockedNow]
     = [Spec.lockedShort; Spec.lockedNowToday].
Proof.
  split; [|vm_compute; now repeat split].
  intros Hwins.
  assert (Spec.cluster [Spec.lockedShort; Spec.lockedNow; Spec.lockedNowToday]
                       (fun i => i = 1%nat \/ i = 2%nat)) as Hcluster.
  { split; [exists 1%nat; now left|]. split; [|split].
    - intros i [-> | ->]; eexists; reflexivity.
    - intros i j x y [-> | ->] [-> | ->] [= <-] [= <-]; vm_compute; reflexivity.
    - intros k z Hz Hall. destruct k as [|[|[|k]]]; [|now left|now right|].
      + injection Hz as <-.
        specialize (Hall 2%nat Spec.lockedNowToday (or_intror eq_refl) eq_refl).
        vm_compute in Hall. discriminate.
      + discriminate. }
  destruct (Hwins _ 1%nat Spec.lockedNow Hcluster (or_introl eq_refl) eq_refl)
    as [_ Hkept].
  assert (isFirstOccurrence Spec.lockedNow 1
            [Spec.lockedShort; Spec.lockedNow; Spec.lockedNowToday] = true)
    as Habsurd by (apply Hkept; intros j [-> | ->]; lia).
  vm_compute in Habsurd. discriminate.
Qed.

(** C4, amended: the pass keeps an entry exactly when no entry before
    it in the array, kept or not, is similar to it.  Of entries similar
    to one another only the first can be kept, and every later one is
    dropped in favour of an earlier similar entry; a kept entry is the
    first of every cluster it belongs to, and where the test is
    transitive on the entries of the array the pass keeps exactly the
    first entry of each cluster.  The kept entries stand in the order
    of the array, no two of them are similar, and every entry of the
    array has a kept entry, not after it, from which a chain of similar
    entries leads to it. *)
Theorem first_match_wins (scams : list Scam) :
  deduplicatedScams scams `sublist_of` scams
  /\ (forall x : Scam,
         x ∈ deduplicatedScams scams
         <-> exists i : nat, scams !! i = Some x /\ Spec.firstOfItsKind scams i x)
  /\ (forall (i : nat) (x : Scam),
         scams !! i = Some x ->
         (isFirstOccurrence x (Z.of_nat i) scams = true
          <-> Spec.firstOfItsKind scams i x))
  /\ (forall (i j : nat) (x y : Scam),
         (i < j)%nat -> scams !! i = Some x -> scams !! j = Some y ->
         similar x y = true ->
         isFirstOccurrence y (Z.of_nat j) scams = false)
  /\ (forall (j : nat) (y : Scam),
         scams !! j = Some y ->
         isFirstOccurrence y (Z.of_nat j) scams = false ->
         exists (i : nat) (x : Scam),
           (i < j)%nat /\ scams !! i = Some x /\ similar y x = true)
  /\ ForallOrdPairs (fun x y => similar y x = false) (deduplicatedScams scams)
  /\ (forall (j : nat) (y : Scam),
         scams !! j = Some y ->
         exists (i : nat) (x : Scam),
           (i <= j)%nat /\ scams !! i = Some x
           /\ isFirstOccurrence x (Z.of_nat i) scams = true
           /\ x ∈ deduplicatedScams scams
           /\ Spec.standsFor scams i j)
  /\ (forall (members : nat -> Prop) (i : nat) (x : Scam),
         Spec.cluster scams members -> members i -> scams !! i = Some x ->
         isFirstOccurrence x (Z.of_nat i) scams = true ->
         forall j : nat, members j -> (i <= j)%nat)
  /\ (Spec.transitiveOn scams -> Spec.firstMatchWins scams).
Proof.
  split; [apply filterFrom_sublist|].
  split.
  { intros x. unfold deduplicatedScams. rewrite elem_of_filterIndexed.
    split; intros (i & Hi & H); exists i; split; try assumption;
      now apply (isFirstOccurrence_iff scams i x Hi). }
  split; [apply isFirstOccurrence_iff|].
  split.
  { intros i j x y Hij Hx Hy Hsim.
    apply not_true_iff_false. intros Hkept.
    apply (isFirstOccurrence_iff scams j y Hy) in Hkept.
    specialize (Hkept i x Hij Hx). rewrite similar_sym in Hkept. congruence. }
  split.
  { intros j y Hy Hdrop. unfold isFirstOccurrence in Hdrop.
    apply Z.eqb_neq in Hdrop.
    destruct (findIndex_before _ scams j y Hy (similar_refl y) Hdrop)
      as (i & x & Hij & Hx & Hsim & _).
    exists i, x. now repeat split. }
  split; [apply (filterFrom_pairwise scams scams 0); reflexivity|].
  split; [apply kept_stands_for|].
  split; [apply kept_is_first|].
  intros Htrans members i x Hcluster Hi Hx. split.
  - now apply kept_is_first.
  - now apply first_is_kept.
Qed.

End Deduplication.

(** ** The feed shows high-risk reports only *)

Section Feed.
Import JsString JsArray Home.

Lemma isDangerous_iff (scam : Scam) :
  isDangerous scam = true <-> Spec.highRisk scam.
Proof.
  unfold isDangerous, isDangerousClassification, isHighRiskScore, Spec.highRisk.
  rewrite andb_true_iff, !orb_true_iff, !String.eqb_eq, geb_iff. tauto.
Qed.

Lemma elem_of_dangerousScams (scams : list Scam) (x : Scam) :
  x ∈ dangerousScams scams <-> x ∈ scams /\ Spec.highRisk x.
Proof.
  unfold dangerousScams.
  rewrite !list_elem_of_In, filter_In, isDangerous_iff. reflexivity.
Qed.

Lemma Forall_sublist_of (P : Scam -> Prop) (l k : list Scam) :
  l `sublist_of` k -> Forall P k -> Forall P l.
Proof.
  rewrite !Forall_forall. intros Hsub Hk x Hx.
  apply Hk. now apply (elem_of_sublist l k).
Qed.

Lemma updateDisplayedScams_highRisk (scams : list Scam) (page : Z) :
  Forall Spec.highRisk scams -> Forall Spec.highRisk (updateDisplayedScams scams page).
Proof. apply Forall_sublist_of, slice_sublist. Qed.

Lemma deduplicated_highRisk (scams : list Scam) :
  Forall Spec.highRisk (deduplicatedScams (dangerousScams scams)).
Proof.
  apply Forall_sublist_of with (k := dangerousScams scams).
  - apply filterFrom_sublist.
  - apply Forall_forall. intros x Hx. now apply elem_of_dangerousScams in Hx.
Qed.

(** What every reachable state of the page satisfies. *)
Lemma reachable_highRisk (st : State) :
  reachable st ->
  Forall Spec.highRisk (allScams st) /\ Forall Spec.highRisk (recentScams st).
Proof.
  induction 1 as [|st e _ [IHall IHrecent]].
  - split; constructor.
  - destruct e as [showLoading|showLoading seenPage scams|showLoading| | |];
      cbn [step allScams recentScams].
    + now split.
    + split; [apply deduplicated_highRisk|].
      apply updateDisplayedScams_highRisk, deduplicated_highRisk.
    + now split.
    + destruct (0 <? length (allScams st))%nat; cbn [allScams recentScams].
      * split; [assumption | now apply updateDisplayedScams_highRisk].
      * now split.
    + now split.
    + now split.
Qed.



(** The number of the card, by the two cases of its expression. *)
Lemma shownRiskScore_cases (scam : Scam) :
  ((1 < JsNumber.number (risk_score scam))%Q
   /\ shownRiskScore scam = JsNumber.number (risk_score scam))
  \/ ((JsNumber.number (risk_score scam) <= 1)%Q
      /\ shownRiskScore scam
         = JsNumber.mul (JsNumber.number (risk_score scam)) 100).
Proof.
  unfold shownRiskScore. cbv zeta.
  destruct (gtb (JsNumber.number (risk_score scam)) 1) eqn:E.
  - left. apply gtb_iff in E. now split.
  - right. split; [|reflexivity].
    apply Qnot_lt_le. intros H. apply gtb_iff in H. congruence.
Qed.

(** An entry that passes the test of the filter against 70 has a
    number of at least 70 on its card. *)
Lemma shownRiskScore_high (scam : Scam) :
  (70 <= riskScore scam)%Q -> (70 <= shownRiskScore scam)%Q.
Proof.
  intros Hhigh. unfold riskScore in Hhigh.
  assert (JsNumber.round 70 == 70)%Q as H70 by (vm_compute; reflexivity).
  assert (JsNumber.round 1 == 1)%Q as H1 by (vm_compute; reflexivity).
  assert (70 <= JsNumber.round (JsNumber.round (7 # 10) * 100))%Q as H7
    by (vm_compute; discriminate).
  destruct (gtb (risk_score scam) 1) eqn:E.
  - pose proof (round_le 70 (risk_score scam) Hhigh) as Hle.
    destruct (shownRiskScore_cases scam) as [[_ ->] | [Hs _]];
      unfold JsNumber.number in *; lra.
  - assert (risk_score scam <= 1)%Q as Hr.
    { apply Qnot_lt_le. intros H. apply gtb_iff in H. congruence. }
    assert (7 # 10 <= risk_score scam)%Q as Hfraction by lra.
    pose proof (round_le _ _ Hfraction) as Hle.
    destruct (shownRiskScore_cases scam) as [[Hs _] | [_ ->]];
      unfold JsNumber.number, JsNumber.mul in *.
    + pose proof (round_le _ _ Hr). lra.
    + apply Qle_trans with (1 := H7). apply round_le. lra.
Qed.


End Feed.

(** ** Cut points of the risk score *)

Section CutPoints.
Import PhishingDetector.

Lemma getRiskColor_cases (riskScore : Q) :
  ((riskScore < 30)%Q /\ getRiskColor riskScore = "text-green-600"
   /\ getRiskBgColor riskScore = "bg-green-50 border-green-200")
  \/ ((30 <= riskScore < 70)%Q /\ getRiskColor riskScore = "text-yellow-600"
      /\ getRiskBgColor riskScore = "bg-yellow-50 border-yellow-200")
  \/ ((70 <= riskScore)%Q /\ getRiskColor riskScore = "text-red-600"
      /\ getRiskBgColor riskScore = "bg-red-50 border-red-200").
Proof.
  unfold getRiskColor, getRiskBgColor.
  destruct (ltb riskScore 30) eqn:E30.
  - left. apply ltb_iff in E30. auto.
  - apply ltb_false_iff in E30. destruct (ltb riskScore 70) eqn:E70.
    + right; left. apply ltb_iff in E70. auto.
    + right; right. apply ltb_false_iff in E70. auto.
Qed.




Lemma isHighRisk_levels (level : option string) (score : option Q) :
  QRScanner.isHighRisk
    (Some (QRScanner.mkScanResult (Some (QRScanner.mkCombined level score)))) = true
  <-> level = Some "medium" \/ level = Some "high" \/ level = Some "critical".
Proof.
  unfold QRScanner.isHighRisk, QRScanner.riskLevelOf, PhishingDetector.orString.
  cbn [QRScanner.combined_assessment QRScanner.final_risk_level].
  rewrite !orb_true_iff, !String.eqb_eq.
  destruct level as [l|].
  - destruct (String.eqb l "") eqn:El.
    + apply String.eqb_eq in El. subst l.
      split; [intros [[H|H]|H]; discriminate | intros [H|[H|H]]; discriminate].
    + split; [intros [[-> | ->] | ->]; auto | intros [[= ->]|[[= ->]|[= ->]]]; auto].
  - split; [intros [[H|H]|H]; discriminate | intros [H|[H|H]]; discriminate].
Qed.

(** C9: a result of the message scan whose risk score is 50 or more and
    below 70 gets the button of the CERT report, whose cut point is 50,
    while the same score is shown in the yellow band, below the cut
    point 70 of the red one.  The QR scanner shows the button according
    to the risk level of the scan result alone: exactly when its
    [final_risk_level] is "medium", "high" or "critical", whatever the
    numeric score, and never without a scan result or an assessment. *)
Theorem cert_cut_points_differ (result : Result) :
  (50 <= risk_score result < 70)%Q ->
  isHighRisk (Some result) = true
  /\ getRiskColor (risk_score result) = "text-yellow-600"
  /\ getRiskColor (risk_score result) <> "text-red-600"
  /\ (forall r : Result,
         isHighRisk (Some r) = true <-> (50 <= risk_score r)%Q)
  /\ (forall (level : option string) (score : option Q),
         QRScanner.isHighRisk
           (Some (QRScanner.mkScanResult (Some (QRScanner.mkCombined level score))))
         = true
         <-> level = Some "medium" \/ level = Some "high"
             \/ level = Some "critical")
  /\ QRScanner.isHighRisk None = false
  /\ QRScanner.isHighRisk (Some (QRScanner.mkScanResult None)) = false
  /\ (forall (level : option string) (score score' : option Q),
         QRScanner.isHighRisk
           (Some (QRScanner.mkScanResult (Some (QRScanner.mkCombined level score))))
         = QRScanner.isHighRisk
             (Some (QRScanner.mkScanResult (Some (QRScanner.mkCombined level score'))))).
Proof.
  intros [H50 H70].
  assert (forall r : Result, isHighRisk (Some r) = true <-> (50 <= risk_score r)%Q)
    as Hcert.
  { intros r. unfold isHighRisk, orNumber. simpl.
    destruct (Qeq_bool (risk_score r) 0) eqn:E; rewrite geb_iff.
    - apply Qeq_bool_iff in E. rewrite E. split; intros H; exact H.
    - reflexivity. }
  assert (getRiskColor (risk_score result) = "text-yellow-600") as Hyellow.
  { destruct (getRiskColor_cases (risk_score result)) as [(H & _)|[(_ & H & _)|(H & _)]];
      [|assumption|].
    - q_order.
    - q_order. }
  split; [now apply Hcert|]. split; [assumption|].
  split; [rewrite Hyellow; discriminate|]. split; [assumption|].
  split; [apply isHighRisk_levels|]. split; [reflexivity|].
  split; reflexivity.
Qed.

Lemma cert_cut_points_differ_witness :
  isHighRisk (Some (mkResult "suspicious" 60 60 "english" "Urgency wording" ["urgent"] "suspicious" false)) = true
  /\ getRiskColor 60 = "text-yellow-600".
Proof.
  destruct (cert_cut_points_differ
              (mkResult "suspicious" 60 60 "english" "Urgency wording" ["urgent"] "suspicious" false))
    as (Hcert & Hyellow & _).
  - split; [discriminate | reflexivity].
  - split; [exact Hcert | exact Hyellow].
Defined.

End CutPoints.

(** ** Input guards *)

Section InputGuards.
Import JsString.

Lemma trimStart_empty_iff (s : string) :
  trimStart s = "" <-> Spec.whitespaceOnly s.
Proof.
  unfold Spec.whitespaceOnly. induction s as [|c s IH]; simpl.
  - tauto.
  - destruct (isWhiteSpace c); simpl; [assumption|].
    split; discriminate.
Qed.

Lemma trimEnd_empty_iff (s : string) :
  trimEnd s = "" <-> Spec.whitespaceOnly s.
Proof.
  unfold Spec.whitespaceOnly. induction s as [|c s IH]; simpl.
  - tauto.
  - destruct (isWhiteSpace c); simpl.
    + destruct (String.eqb (trimEnd s) "") eqn:E.
      * apply String.eqb_eq in E. split; [intros _; now apply IH | reflexivity].
      * apply String.eqb_neq in E. split; [discriminate|].
        intros H. now apply IH in H.
    + split; discriminate.
Qed.

Lemma trimStart_head (s : string) :
  match trimStart s with
  | EmptyString => True
  | String c _ => isWhiteSpace c = false
  end.
Proof.
  induction s as [|c s IH]; simpl; [exact I|].
  destruct (isWhiteSpace c) eqn:E; [exact IH | exact E].
Qed.

(** [message.trim()] is empty exactly for a message of white space
    only, the empty message among them. *)
Lemma trim_empty_iff (message : string) :
  trim message = "" <-> Spec.whitespaceOnly message.
Proof.
  unfold trim. rewrite trimEnd_empty_iff, <- (trimStart_empty_iff message).
  pose proof (trimStart_head message) as Hhead.
  destruct (trimStart message) as [|c t]; [split; reflexivity|].
  unfold Spec.whitespaceOnly. simpl. rewrite Hhead. simpl.
  split; discriminate.
Qed.

Lemma substring0_length (n : nat) (s : string) :
  (String.length (substring0 n s) <= n)%nat.
Proof.
  unfold substring0. revert s. induction n as [|n IH]; intros s.
  - destruct s; simpl; lia.
  - destruct s as [|c s]; simpl; [lia|]. specialize (IH s). lia.
Qed.

Lemma analyzeMessage_calls (env : PhishingDetector.Env) (message : string) :
  trim message <> "" ->
  existsb PhishingDetector.isAnalysisCall
          (PhishingDetector.analyzeMessage env message) = true.
Proof.
  intros Hne. unfold PhishingDetector.analyzeMessage.
  apply String.eqb_neq in Hne. rewrite Hne.
  rewrite !existsb_app. simpl.
  destruct (PhishingDetector.isAuthenticated env && PhishingDetector.user env);
    reflexivity.
Qed.

(** Every call of the analysis is given the trimmed message. *)
Lemma analyzeMessage_sends_all (env : PhishingDetector.Env) (message : string) :
  trim message <> "" ->
  Forall (fun e => PhishingDetector.isAnalysisCall e = true ->
                   PhishingDetector.sentContent e = Some (trim message))
         (PhishingDetector.analyzeMessage env message).
Proof.
  intros Hne. apply String.eqb_neq in Hne.
  unfold PhishingDetector.analyzeMessage, PhishingDetector.predictThen,
    PhishingDetector.refreshHistory.
  rewrite Hne.
  destruct (PhishingDetector.isAuthenticated env && PhishingDetector.user env);
    destruct (PhishingDetector.createScan env (trim message) "message");
    destruct (PhishingDetector.predict env (trim message)) as [|[] ? ?];
    cbn [app]; repeat constructor; intros; try discriminate; reflexivity.
Qed.

(** C8, as the specification states it, fails: the code neither
    rejects nor cuts a message of more than 5000 code units.  The cap
    is the attribute [maxLength] of the textarea alone; the handlers
    that set the message keep all of what they are given, and a
    message of 6000 code units is sent to the analysis whole. *)
Lemma oversized_message_counterexample :
  (PhishingDetector.maxLength < String.length Spec.oversizedMessage)%nat
  /\ ~ (forall (env : PhishingDetector.Env) (message : string),
          (PhishingDetector.maxLength < String.length message)%nat ->
          existsb PhishingDetector.isAnalysisCall
                  (PhishingDetector.analyzeMessage env message) = false)
  /\ String.length (PhishingDetector.onChange Spec.oversizedMessage) = (60 * 100)%nat
  /\ String.length
       (PhishingDetector.historyMessage
          (PhishingDetector.mkHistoryScan (Some Spec.oversizedMessage) None))
     = (60 * 100)%nat
  /\ List.map PhishingDetector.sentContent
       (List.filter PhishingDetector.isAnalysisCall
          (PhishingDetector.analyzeMessage
             (PhishingDetector.mkEnv false false
                (fun _ _ => PhishingDetector.Threw "")
                (fun _ => PhishingDetector.Rejected "Failed to fetch"))
             Spec.oversizedMessage))
     = [Some Spec.oversizedMessage].
Proof.
  split; [vm_compute; lia|]. split; [|now vm_compute].
  intros H.
  specialize (H (PhishingDetector.mkEnv false false
                   (fun _ _ => PhishingDetector.Threw "")
                   (fun _ => PhishingDetector.Rejected "Failed to fetch"))
                Spec.oversizedMessage).
  assert (PhishingDetector.maxLength < String.length Spec.oversizedMessage)%nat
    as Hlong by (vm_compute; lia).
  specialize (H Hlong). vm_compute in H. discriminate.
Qed.

(** C8, amended: a message that is empty or of white space only sets
    the input error and nothing else, no call of the analysis among
    it, while any other message is sent to the analysis, trimmed and
    whole whatever its length: the handlers of the textarea and of the
    history set the message as it is given to them, and no code checks
    its length against the 5000 of the attribute [maxLength].  A chosen
    file that is not an image, or is an image of more than 10 MB, sets
    an input error and is not submitted, while an image of at most
    10 MB is. *)
Theorem malformed_input_rejected :
  (forall (env : PhishingDetector.Env) (message : string),
      Spec.whitespaceOnly message ->
      PhishingDetector.analyzeMessage env message
      = [PhishingDetector.SetError "Please enter a message to analyze"]
      /\ existsb PhishingDetector.isAnalysisCall
                 (PhishingDetector.analyzeMessage env message) = false)
  /\ (forall (env : PhishingDetector.Env) (message : string),
         ~ Spec.whitespaceOnly message ->
         existsb PhishingDetector.isAnalysisCall
                 (PhishingDetector.analyzeMessage env message) = true)
  /\ (forall (env : PhishingDetector.Env) (message : string),
         ~ Spec.whitespaceOnly message ->
         Forall (fun e => PhishingDetector.isAnalysisCall e = true ->
                          PhishingDetector.sentContent e = Some (trim message))
                (PhishingDetector.analyzeMessage env message))
  /\ (forall value : string, PhishingDetector.onChange value = value)
  /\ (forall (content : string) (message : option string),
         content <> "" ->
         PhishingDetector.historyMessage
           (PhishingDetector.mkHistoryScan (Some content) message)
         = content)
  /\ (forall (file : QRScanner.File) (rest : list QRScanner.File),
         startsWith (QRScanner.type file) "image/" = false ->
         QRScanner.handleFileUpload (file :: rest)
         = [QRScanner.SetError "Please select an image file"])
  /\ (forall (file : QRScanner.File) (rest : list QRScanner.File),
         startsWith (QRScanner.type file) "image/" = true ->
         (QRScanner.size file > 10 * 1024 * 1024)%Z ->
         QRScanner.handleFileUpload (file :: rest)
         = [QRScanner.SetError "File too large. Maximum size is 10MB"])
  /\ (forall (file : QRScanner.File) (rest : list QRScanner.File),
         startsWith (QRScanner.type file) "image/" = false
         \/ (QRScanner.size file > 10 * 1024 * 1024)%Z ->
         existsb QRScanner.isSubmission
                 (QRScanner.handleFileUpload (file :: rest)) = false)
  /\ (forall (file : QRScanner.File) (rest : list QRScanner.File),
         startsWith (QRScanner.type file) "image/" = true ->
         (QRScanner.size file <= 10 * 1024 * 1024)%Z ->
         QRScanner.handleFileUpload (file :: rest)
         = [QRScanner.AnalyzeQRCode file]).
Proof.
  split; [|split; [|split; [|split; [|split; [|split; [|split; [|split]]]]]]].
  - intros env message Hblank. apply trim_empty_iff in Hblank.
    unfold PhishingDetector.analyzeMessage. rewrite Hblank. now split.
  - intros env message Hnot. apply analyzeMessage_calls.
    now rewrite trim_empty_iff.
  - intros env message Hnot. apply analyzeMessage_sends_all.
    now rewrite trim_empty_iff.
  - reflexivity.
  - intros content message Hcontent.
    unfold PhishingDetector.historyMessage, PhishingDetector.orString.
    cbn [PhishingDetector.h_content].
    apply String.eqb_neq in Hcontent. now rewrite Hcontent.
  - intros file rest Htype. unfold QRScanner.handleFileUpload. now rewrite Htype.
  - intros file rest Htype Hsize. unfold QRScanner.handleFileUpload.
    rewrite Htype. simpl negb. cbv iota.
    apply Z.gtb_gt in Hsize. now rewrite Hsize.
  - intros file rest Hbad. unfold QRScanner.handleFileUpload.
    destruct (startsWith (QRScanner.type file) "image/"); simpl negb; cbv iota.
    + destruct Hbad as [Hbad|Hbad]; [discriminate|].
      apply Z.gtb_gt in Hbad. now rewrite Hbad.
    + reflexivity.
  - intros file rest Htype Hsize. unfold QRScanner.handleFileUpload.
    rewrite Htype. simpl negb. cbv iota.
    destruct (QRScanner.size file >? 10 * 1024 * 1024)%Z eqn:E; [|reflexivity].
    apply Z.gtb_gt in E. lia.
Qed.

End InputGuards.

(** ** The fusion engine and what the page makes of its answer *)

Section FusionFacts.
Import Fusion.

(** The parts of the engine that the specification leaves open. *)
Variable mlSubScore : Ml -> Q.
Variable threatIntelSubScore : ThreatIntel -> Q.
Variable highHitCount : Z.
Variable overrideReason : ThreatIntel -> string.
Variable termsReason : list string -> string.
Variable mlReason : Ml -> string.

Let fuse := Fusion.fuse mlSubScore threatIntelSubScore highHitCount
                        overrideReason termsReason mlReason.
Let assess := Fusion.assess mlSubScore threatIntelSubScore highHitCount
                            overrideReason termsReason mlReason.

Lemma fuse_override (h : Signal Heuristic) (m : Signal Ml) (ti : ThreatIntel) :
  reputation ti = Flagged -> (highHitCount <= hit_count ti)%Z ->
  classification (fuse h m (Available ti)) = Dangerous.
Proof.
  intros Hflag Hhits. apply Z.leb_le in Hhits.
  unfold fuse, Fusion.fuse, hardOverride.
  destruct h, m; simpl; now rewrite Hflag, Hhits.
Qed.

(** C7: when the reputation of the threat intelligence is flagged and
    its hit count is high, the fusion answers "dangerous" whatever the
    heuristic scorer and the classifier say, and whatever score the
    weights give; so does [assess] on every content for which the
    gateway answers so. *)
Theorem threat_intel_hard_override
        (h : Signal Heuristic) (m : Signal Ml) (ti : ThreatIntel) :
  reputation ti = Flagged -> (highHitCount <= hit_count ti)%Z ->
  classification (fuse h m (Available ti)) = Dangerous
  /\ (forall (heuristicScorer : string -> Signal Heuristic)
             (mlClassifier : string -> Signal Ml)
             (threatIntelGateway : string -> Signal ThreatIntel)
             (content : string),
         threatIntelGateway content = Available ti ->
         classification
           (assess heuristicScorer mlClassifier threatIntelGateway content)
         = Dangerous).
Proof.
  intros Hflag Hhits. split; [now apply fuse_override|].
  intros hs mc tg content Hti. unfold assess, Fusion.assess. rewrite Hti.
  now apply fuse_override.
Qed.

(** C6, as the specification states it, fails on the page: an answer of
    the scan service that has no classification but carries the flag
    [is_safe] set is shown with the classification "unknown" and taken
    as safe. *)
Lemma missing_classification_counterexample :
  ~ (forall scanResult : PhishingDetector.Response,
        PhishingDetector.r_classification scanResult = None ->
        PhishingDetector.classification (PhishingDetector.resultOfScan scanResult)
        = "unknown"
        /\ PhishingDetector.is_safe (PhishingDetector.resultOfScan scanResult)
           = false).
Proof.
  intros H.
  destruct (H (PhishingDetector.mkResponse None None None None None (Some true))
              eq_refl) as [_ Hsafe].
  vm_compute in Hsafe. discriminate.
Qed.

(** C6, amended: when none of the three signals is available, [assess]
    answers the classification "unknown", the risk score 0 and the
    explanation that no signal was available; it answers for every
    content, and never "safe" there.  On the page, an answer without a
    classification is shown as "unknown" with the risk score it
    carries, 0 if it carries none; it is taken as safe only when the
    answer itself carries the flag [is_safe] set, and never after the
    fallback request. *)
Theorem total_signal_failure
        (heuristicScorer : string -> Signal Heuristic)
        (mlClassifier : string -> Signal Ml)
        (threatIntelGateway : string -> Signal ThreatIntel)
        (content : string) :
  heuristicScorer content = Unavailable ->
  mlClassifier content = Unavailable ->
  threatIntelGateway content = Unavailable ->
  assess heuristicScorer mlClassifier threatIntelGateway content
  = {| risk_score := 0; classification := Unknown;
       explanation := noSignalExplanation; suspicious_terms := [] |}
  /\ classification
       (assess heuristicScorer mlClassifier threatIntelGateway content) <> Safe
  /\ (forall scanResult : PhishingDetector.Response,
         PhishingDetector.r_classification scanResult = None
         \/ PhishingDetector.r_classification scanResult = Some "" ->
         let shown :=
           [PhishingDetector.resultOfScan scanResult;
            PhishingDetector.resultOfFallback scanResult;
            PhishingDetector.resultOfDirect scanResult] in
         Forall (fun r => PhishingDetector.classification r = "unknown"
                          /\ PhishingDetector.prediction r = "unknown"
                          /\ PhishingDetector.risk_score r
                             = PhishingDetector.orNumber
                                 (PhishingDetector.r_risk_score scanResult) 0)
                shown
         /\ PhishingDetector.is_safe (PhishingDetector.resultOfScan scanResult)
            = PhishingDetector.isTrue (PhishingDetector.r_is_safe scanResult)
         /\ PhishingDetector.is_safe (PhishingDetector.resultOfFallback scanResult)
            = false
         /\ PhishingDetector.is_safe (PhishingDetector.resultOfDirect scanResult)
            = PhishingDetector.isTrue (PhishingDetector.r_is_safe scanResult)).
Proof.
  intros Hh Hm Ht.
  assert (assess heuristicScorer mlClassifier threatIntelGateway content
          = {| risk_score := 0; classification := Unknown;
               explanation := noSignalExplanation; suspicious_terms := [] |})
    as Hunknown.
  { unfold assess, Fusion.assess. now rewrite Hh, Hm, Ht. }
  split; [assumption|]. split; [rewrite Hunknown; discriminate|].
  intros scanResult Hmissing shown.
  assert (PhishingDetector.orString
            (PhishingDetector.r_classification scanResult) "unknown" = "unknown"
          /\ PhishingDetector.isString
               (PhishingDetector.r_classification scanResult) "safe" = false)
    as [Hname Hsafe]
    by (destruct Hmissing as [-> | ->]; split; reflexivity).
  split.
  - subst shown. repeat constructor; assumption.
  - unfold PhishingDetector.resultOfScan, PhishingDetector.resultOfFallback,
      PhishingDetector.resultOfDirect. simpl. rewrite Hsafe. now repeat split.
Qed.

End FusionFacts.

Section FusionExamples.
Import Fusion.

(** The scenario of section 8: heuristic 60, verdict "dangerous" of
    confidence 0.9, no threat intelligence; the score is 77. *)
Example fuse_scenario :
  let r := exampleFuse (Available (mkHeuristic 60 ["amaz0n"] false))
                       (Available (mkMl LabelDangerous 0.9))
                       Unavailable in
  risk_score r = 77%Z /\ classification r = Dangerous.
Proof. vm_compute. split; reflexivity. Qed.

Example fuse_cut_points :
  classify 29 = Safe /\ classify 30 = Suspicious
  /\ classify 69 = Suspicious /\ classify 70 = Dangerous.
Proof. repeat split. Qed.

Lemma threat_intel_hard_override_witness :
  classification
    (exampleFuse (Available (mkHeuristic 0 [] false))
                 (Available (mkMl LabelSafe 1))
                 (Available (mkThreatIntel Flagged 12)))
  = Dangerous
  /\ risk_score
       (exampleFuse (Available (mkHeuristic 0 [] false))
                    (Available (mkMl LabelSafe 1))
                    (Available (mkThreatIntel Flagged 12)))
     = 20%Z.
Proof.
  split; [|vm_compute; reflexivity].
  apply (threat_intel_hard_override
           exampleMlSubScore exampleThreatIntelSubScore 5
           (fun _ => "Flagged by threat intelligence. ")
           (fun terms => String.concat ", " terms ++ ". ")
           (fun m => classificationName
                       (match label m with
                        | LabelSafe => Safe
                        | LabelSuspicious => Suspicious
                        | LabelDangerous => Dangerous
                        end))
           (Available (mkHeuristic 0 [] false))
           (Available (mkMl LabelSafe 1))
           (mkThreatIntel Flagged 12)).
  - reflexivity.
  - simpl. lia.
Defined.

Lemma total_signal_failure_witness :
  exampleAssess (fun _ => Unavailable) (fun _ => Unavailable)
                (fun _ => Unavailable) "https://example.lk/login"
  = {| risk_score := 0; classification := Unknown;
       explanation := noSignalExplanation; suspicious_terms := [] |}.
Proof.
  apply (total_signal_failure
           exampleMlSubScore exampleThreatIntelSubScore 5
           (fun _ => "Flagged by threat intelligence. ")
           (fun terms => String.concat ", " terms ++ ". ")
           (fun m => classificationName
                       (match label m with
                        | LabelSafe => Safe
                        | LabelSuspicious => Suspicious
                        | LabelDangerous => Dangerous
                        end))
           (fun _ => Unavailable) (fun _ => Unavailable) (fun _ => Unavailable)
           "https://example.lk/login"); reflexivity.
Defined.

End FusionExamples.

(** * Further properties of the pages *)

(** ** Lists whose entries are pairwise related *)

Section OrderedPairs.
Context {A : Type}.

Lemma ForallOrdPairs_lookup (R : A -> A -> Prop) (l : list A) (i j : nat) (x y : A) :
  ForallOrdPairs R l -> (i < j)%nat -> l !! i = Some x -> l !! j = Some y -> R x y.
Proof.
  intros H. revert i j. induction H as [|a l Ha _ IH]; intros i j Hij Hx Hy.
  - discriminate.
  - destruct j as [|j]; [lia|]. simpl in Hy. destruct i as [|i].
    + injection Hx as <-. rewrite Forall_forall in Ha. apply Ha.
      apply list_elem_of_lookup. now exists j.
    + apply (IH i j); [lia | assumption | assumption].
Qed.

Lemma ForallOrdPairs_sublist (R : A -> A -> Prop) (l k : list A) :
  l `sublist_of` k -> ForallOrdPairs R k -> ForallOrdPairs R l.
Proof.
  induction 1 as [|x l k Hsub IH|x l k Hsub IH]; intros Hk.
  - constructor.
  - inversion Hk as [|? ? Hx Hrest]; subst. constructor; [|now apply IH].
    rewrite Forall_forall in *. intros y Hy. apply Hx.
    now apply (elem_of_sublist l k).
  - inversion Hk; subst. now apply IH.
Qed.

Lemma filterFrom_all (p : A -> Z -> list A -> bool) (array : list A)
      (k : nat) (l : list A) :
  (forall (j : nat) (x : A),
      l !! j = Some x -> p x (Z.of_nat (k + j)) array = true) ->
  JsArray.filterFrom p array (Z.of_nat k) l = l.
Proof.
  revert k. induction l as [|a l IH]; intros k Hall; simpl; [reflexivity|].
  rewrite <- (Nat.add_0_r k) at 1. rewrite (Hall 0%nat a eq_refl).
  replace (Z.of_nat k + 1)%Z with (Z.of_nat (S k)) by lia.
  f_equal. apply IH. intros j x Hx.
  replace (S k + j)%nat with (k + S j)%nat by lia. now apply Hall.
Qed.

End OrderedPairs.

(** ** The deduplication pass, once more *)

Section DeduplicationMore.
Import JsString JsArray Home HomePage.

Lemma deduplicated_of_distinct (scams : list Scam) :
  pairwiseDistinct scams -> deduplicatedScams scams = scams.
Proof.
  intros Hdistinct. unfold deduplicatedScams, filterIndexed.
  apply (filterFrom_all isFirstOccurrence scams 0). intros j x Hx. simpl.
  apply (isFirstOccurrence_iff scams j x Hx). intros i y Hij Hy.
  apply (ForallOrdPairs_lookup _ scams i j y x Hdistinct Hij Hy Hx).
Qed.

Lemma deduplicated_distinct (scams : list Scam) :
  pairwiseDistinct (deduplicatedScams scams).
Proof. apply (filterFrom_pairwise scams scams 0). reflexivity. Qed.

(** X1: a second pass of the deduplication removes nothing more, and
    the pass leaves a list unchanged exactly when no entry of it is
    similar to an earlier one. *)
Theorem deduplication_idempotent (scams : list Scam) :
  deduplicatedScams (deduplicatedScams scams) = deduplicatedScams scams
  /\ (deduplicatedScams scams = scams <-> pairwiseDistinct scams).
Proof.
  split.
  - apply deduplicated_of_distinct, deduplicated_distinct.
  - split.
    + intros Hfixed. rewrite <- Hfixed. apply deduplicated_distinct.
    + apply deduplicated_of_distinct.
Qed.

(** X2: the pass always keeps the first entry of the array, so that it
    answers the empty array for the empty array only; and it never
    answers more entries than it was given. *)
Theorem deduplication_keeps_first (scams : list Scam) :
  (forall (x : Scam) (rest : list Scam),
      scams = x :: rest ->
      exists kept : list Scam,
        deduplicatedScams scams = x :: kept /\ kept `sublist_of` rest)
  /\ (deduplicatedScams scams = [] <-> scams = [])
  /\ (length (deduplicatedScams scams) <= length scams)%nat.
Proof.
  assert (forall (x : Scam) (rest : list Scam),
             scams = x :: rest ->
             exists kept : list Scam,
               deduplicatedScams scams = x :: kept /\ kept `sublist_of` rest)
    as Hfirst.
  { intros x rest ->.
    exists (filterFrom isFirstOccurrence (x :: rest) 1 rest).
    split; [|apply filterFrom_sublist].
    unfold deduplicatedScams, filterIndexed. cbn [filterFrom].
    unfold isFirstOccurrence at 1, findIndex. cbn [findIndexFrom].
    change (similarTo (normalizeContent (anonymized_content x)) x)
      with (similar x x).
    now rewrite similar_refl. }
  split; [assumption|]. split.
  - split.
    + intros Hempty. destruct scams as [|x rest]; [reflexivity|].
      destruct (Hfirst x rest eq_refl) as (kept & Hkept & _). congruence.
    + now intros ->.
  - apply sublist_length, filterFrom_sublist.
Qed.

(** X3: the near-duplicate test is reflexive and symmetric, and it is
    not transitive: a content can be similar to two contents that are
    not similar to each other. *)
Theorem similar_not_transitive :
  (forall x : Scam, similar x x = true)
  /\ (forall x y : Scam, similar x y = similar y x)
  /\ (exists x y z : Scam,
         similar x y = true /\ similar y z = true /\ similar x z = false).
Proof.
  split; [apply similar_refl|]. split; [apply similar_sym|].
  exists (mkScam 1 "dangerous" 90 "your account is locked" 1 []),
         (mkScam 2 "dangerous" 90 "your account is locked now" 1 []),
         (mkScam 3 "dangerous" 90 "your account is locked now today" 1 []).
  vm_compute. repeat split.
Qed.

End DeduplicationMore.

(** ** Normalizing a normalized content *)

Section NormalizationMore.
Import JsString.

Ltac by_cases_on_unit c :=
  destruct c as [[] [] [] [] [] [] [] []]; vm_compute; try discriminate; auto.

Lemma lower_word_fixed (c : ascii) :
  Spec.isLowerWord c = true ->
  toLowerChar c = c /\ isWordChar c = true /\ isWhiteSpace c = false.
Proof. by_cases_on_unit c. Qed.

Lemma space_fixed (c : ascii) :
  Ascii.eqb c " " = true -> toLowerChar c = c /\ c = " "%char.
Proof. by_cases_on_unit c. Qed.

Lemma spaced_toLowerCase (afterSpace : bool) (s : string) :
  Spec.spaced afterSpace s -> toLowerCase s = s.
Proof.
  revert afterSpace. induction s as [|c s IH]; intros afterSpace; simpl; [reflexivity|].
  destruct (Ascii.eqb c " ") eqn:Esp.
  - intros [_ Hs]. destruct (space_fixed c Esp) as [-> _]. f_equal. now apply (IH true).
  - intros [Hc Hs]. destruct (lower_word_fixed c Hc) as [-> _]. f_equal. now apply (IH false).
Qed.

Lemma spaced_removeOutside (afterSpace : bool) (s : string) :
  Spec.spaced afterSpace s ->
  removeOutside (fun c => isWordChar c || isWhiteSpace c) s = s.
Proof.
  revert afterSpace. induction s as [|c s IH]; intros afterSpace; simpl; [reflexivity|].
  destruct (Ascii.eqb c " ") eqn:Esp.
  - intros [_ Hs]. rewrite (space_is_white c Esp), orb_true_r. f_equal. now apply (IH true).
  - intros [Hc Hs]. destruct (lower_word_fixed c Hc) as (_ & -> & _). simpl.
    f_equal. now apply (IH false).
Qed.

Lemma spaced_collapseFrom (afterSpace : bool) (s : string) :
  Spec.spaced afterSpace s -> collapseFrom afterSpace s = s.
Proof.
  revert afterSpace. induction s as [|c s IH]; intros afterSpace; simpl; [reflexivity|].
  destruct (Ascii.eqb c " ") eqn:Esp.
  - intros [-> Hs]. rewrite (space_is_white c Esp).
    destruct (space_fixed c Esp) as [_ ->]. f_equal. now apply IH.
  - intros [Hc Hs]. destruct (lower_word_fixed c Hc) as (_ & _ & ->).
    f_equal. now apply IH.
Qed.

Lemma spaced_trimStart (s : string) : Spec.spaced true s -> trimStart s = s.
Proof.
  destruct s as [|c s]; simpl; [reflexivity|].
  destruct (Ascii.eqb c " ") eqn:Esp.
  - intros [H _]. discriminate.
  - intros [Hc _]. now destruct (lower_word_fixed c Hc) as (_ & _ & ->).
Qed.

Lemma lastChar_none (s : string) : Spec.lastChar s = None -> s = "".
Proof.
  destruct s as [|c s]; simpl; [reflexivity|].
  destruct (Spec.lastChar s); discriminate.
Qed.

Lemma spaced_trimEnd (afterSpace : bool) (s : string) :
  Spec.spaced afterSpace s -> Spec.lastChar s <> Some " "%char -> trimEnd s = s.
Proof.
  revert afterSpace. induction s as [|c s IH]; intros afterSpace; simpl; [reflexivity|].
  intros Hs Hlast.
  assert (trimEnd s = s) as Htail.
  { destruct (Ascii.eqb c " ").
    - destruct Hs as [_ Hs]. apply (IH true Hs).
      destruct (Spec.lastChar s); [assumption | discriminate].
    - destruct Hs as [_ Hs]. apply (IH false Hs).
      destruct (Spec.lastChar s); [assumption | discriminate]. }
  rewrite Htail.
  destruct (Spec.lastChar s) as [d|] eqn:El.
  - destruct s as [|a s]; [discriminate|].
    now rewrite andb_false_r.
  - apply lastChar_none in El. subst s.
    destruct (Ascii.eqb c " ") eqn:Esp.
    + destruct (space_fixed c Esp) as [_ ->]. congruence.
    + destruct Hs as [Hc _]. now destruct (lower_word_fixed c Hc) as (_ & _ & ->).
Qed.

Lemma normalForm_fixed (s : string) :
  Spec.normalForm s -> Home.normalizeContent s = s.
Proof.
  intros [Hs Hlast]. unfold Home.normalizeContent, trim, collapseWhiteSpace.
  rewrite (spaced_toLowerCase true s Hs), (spaced_removeOutside true s Hs),
    (spaced_collapseFrom false s (spaced_weaken true s Hs)),
    (spaced_trimStart s Hs).
  now apply (spaced_trimEnd true).
Qed.

(** X4: normalizing is idempotent: the normalized content is its own
    normal form, and so is every string of lower-case words separated
    by single spaces. *)
Theorem normalizeContent_idempotent (content : string) :
  Home.normalizeContent (Home.normalizeContent content)
  = Home.normalizeContent content
  /\ (forall s : string, Spec.normalForm s -> Home.normalizeContent s = s).
Proof.
  split; [|apply normalForm_fixed].
  apply normalForm_fixed, normalizeContent_normalForm.
Qed.

End NormalizationMore.

(** ** Pages of the feed *)

Section Pages.
Import JsString JsArray Home HomePage.

Lemma page_take_drop (scams : list Scam) (page : nat) :
  updateDisplayedScams scams (Z.of_nat page) = take 3 (drop (3 * page) scams).
Proof.
  unfold updateDisplayedScams, slice, scamsPerPage.
  rewrite (proj2 (Z.ltb_ge (Z.of_nat page * 3) 0)) by lia.
  rewrite (proj2 (Z.ltb_ge (Z.of_nat page * 3 + 3) 0)) by lia.
  destruct (Nat.le_gt_cases (length scams) (3 * page)) as [Hout|Hin].
  - rewrite (drop_ge scams (3 * page)) by assumption.
    rewrite drop_ge by lia. now rewrite !take_nil.
  - replace (Z.to_nat (Z.min (Z.of_nat page * 3) (Z.of_nat (length scams))))
      with (3 * page)%nat by lia.
    destruct (Nat.le_gt_cases (3 * page + 3) (length scams)) as [Hfull|Hlast].
    + f_equal. lia.
    + rewrite !take_ge; [reflexivity | rewrite length_drop; lia | rewrite length_drop; lia].
Qed.

Lemma pagesUpTo_take (n : nat) (scams : list Scam) :
  pagesUpTo n scams = take (3 * n) scams.
Proof.
  unfold pagesUpTo. induction n as [|n IH].
  - reflexivity.
  - rewrite seq_S, flat_map_app, IH. simpl. rewrite app_nil_r, page_take_drop.
    rewrite take_take_drop. f_equal. lia.
Qed.

Lemma page_length (scams : list Scam) (page : Z) :
  (length (updateDisplayedScams scams page) <= 3)%nat.
Proof.
  unfold updateDisplayedScams, slice, scamsPerPage.
  rewrite length_take.
  destruct (page * 3 <? 0)%Z eqn:E1; destruct (page * 3 + 3 <? 0)%Z eqn:E2; lia.
Qed.

(** X5: the pages of three entries cover the array: the pages 0 to
    [totalPages - 1], one after the other, are the array itself; each of
    them has between one and three entries; every page from
    [totalPages] on, and the page -1, is empty. *)
Theorem pages_cover_the_feed (scams : list Scam) :
  pagesUpTo (Z.to_nat (pageCount (length scams))) scams = scams
  /\ (forall page : Z, (length (updateDisplayedScams scams page) <= 3)%nat)
  /\ (forall page : Z,
         (0 <= page < pageCount (length scams))%Z ->
         updateDisplayedScams scams page <> [])
  /\ (forall page : Z,
         (pageCount (length scams) <= page)%Z ->
         updateDisplayedScams scams page = [])
  /\ updateDisplayedScams scams (-1) = [].
Proof.
  assert (forall n : nat, (3 * Z.to_nat (pageCount n) < n + 3)%nat
                          /\ (n <= 3 * Z.to_nat (pageCount n))%nat) as Hcount.
  { intros n. unfold pageCount, scamsPerPage.
    pose proof (Z.div_mod (Z.of_nat n + 3 - 1) 3 ltac:(lia)) as Hdiv.
    pose proof (Z.mod_pos_bound (Z.of_nat n + 3 - 1) 3 ltac:(lia)) as Hmod.
    lia. }
  split; [|split; [|split; [|split]]].
  - rewrite pagesUpTo_take. apply take_ge. apply Hcount.
  - apply page_length.
  - intros page [Hlo Hhi].
    replace page with (Z.of_nat (Z.to_nat page)) by lia.
    rewrite page_take_drop. intros Hempty.
    apply (f_equal length) in Hempty.
    rewrite length_take, length_drop in Hempty. simpl length in Hempty.
    pose proof (Hcount (length scams)) as [Hc _]. lia.
  - intros page Hpage.
    assert (0 <= pageCount (length scams))%Z as Hnonneg
      by (unfold pageCount, scamsPerPage; apply Z.div_pos; lia).
    replace page with (Z.of_nat (Z.to_nat page)) by lia.
    rewrite page_take_drop, drop_ge; [reflexivity|].
    pose proof (Hcount (length scams)) as [_ Hc]. lia.
  - unfold updateDisplayedScams, slice, scamsPerPage. simpl.
    replace (Z.to_nat _) with 0%nat by lia. reflexivity.
Qed.

(** X6: with a current page among the pages of the feed, the buttons "previous" and "next" keep the current page among
    the pages; "previous" on the first page and "next" on the last one,
    where the buttons are disabled, change nothing; and "next" followed
    by "previous" comes back to the page. *)
Theorem navigation_stays_on_pages (st : State) :
  (0 <= currentPage st < totalPages st)%Z ->
  (0 <= currentPage (step st PreviousPage) < totalPages st)%Z
  /\ (0 <= currentPage (step st NextPage) < totalPages st)%Z
  /\ (canGoPrevious st = false -> step st PreviousPage = st)
  /\ (canGoNext st = false -> step st NextPage = st)
  /\ (canGoNext st = true ->
      currentPage (step (step st NextPage) PreviousPage) = currentPage st)
  /\ (canGoPrevious st = true ->
      currentPage (step (step st PreviousPage) NextPage) = currentPage st).
Proof.
  intros Hpage. unfold canGoPrevious, canGoNext, totalPages in *.
  destruct st as [recent all page loading]. simpl in *.
  split; [lia|]. split; [lia|]. split; [|split; [|split]].
  - intros Hfirst. rewrite Z.gtb_ltb in Hfirst. apply Z.ltb_ge in Hfirst.
    f_equal. lia.
  - intros Hlast. apply Z.ltb_ge in Hlast. f_equal. lia.
  - intros Hnext. apply Z.ltb_lt in Hnext. lia.
  - intros Hprev. apply Z.gtb_lt in Hprev. lia.
Qed.

Lemma navigation_stays_on_pages_witness :
  currentPage
    (step (step (mkState [] [mkScam 1 "dangerous" 90 "a" 1 [];
                              mkScam 2 "dangerous" 90 "b" 1 [];
                              mkScam 3 "dangerous" 90 "c" 1 [];
                              mkScam 4 "dangerous" 90 "d" 1 []] 0 false)
                NextPage) PreviousPage)
  = 0%Z.
Proof.
  apply (navigation_stays_on_pages
           (mkState [] [mkScam 1 "dangerous" 90 "a" 1 [];
                        mkScam 2 "dangerous" 90 "b" 1 [];
                        mkScam 3 "dangerous" 90 "c" 1 [];
                        mkScam 4 "dangerous" 90 "d" 1 []] 0 false)).
  - vm_compute. split; [discriminate | reflexivity].
  - reflexivity.
Defined.

End Pages.

(** ** The cards of the feed *)

Section Cards.
Import JsString JsArray Home HomePage.

Lemma reachable_feed (st : State) :
  reachable st ->
  recentScams st `sublist_of` allScams st
  /\ (length (recentScams st) <= 3)%nat
  /\ pairwiseDistinct (allScams st).
Proof.
  induction 1 as [|st e _ (IHsub & IHlen & IHall)].
  - repeat split; [constructor | simpl; lia | constructor].
  - destruct e as [showLoading|showLoading seenPage scams|showLoading| | |];
      cbn [step allScams recentScams].
    + now repeat split.
    + split; [apply slice_sublist|]. split; [apply page_length|].
      apply deduplicated_distinct.
    + now repeat split.
    + destruct (0 <? length (allScams st))%nat; cbn [allScams recentScams].
      * split; [apply slice_sublist|]. split; [apply page_length | assumption].
      * now repeat split.
    + now repeat split.
    + now repeat split.
Qed.

(** X7: in every state the page reaches, the cards shown are entries of
    the deduplicated feed in its order, there are at most three of
    them, and no card is similar to another card. *)
Theorem cards_are_few_and_distinct (st : State) :
  reachable st ->
  shownAlerts st `sublist_of` allScams st
  /\ (length (shownAlerts st) <= 3)%nat
  /\ pairwiseDistinct (allScams st)
  /\ pairwiseDistinct (shownAlerts st).
Proof.
  intros Hreach. apply reachable_feed in Hreach as (Hsub & Hlen & Hall).
  assert (shownAlerts st `sublist_of` recentScams st) as Hshown.
  { unfold shownAlerts.
    destruct (negb (loadingScams st) && (0 <? length (recentScams st))%nat);
      [reflexivity | apply sublist_nil_l]. }
  split; [now transitivity (recentScams st)|]. split.
  - apply sublist_length in Hshown. lia.
  - split; [assumption|].
    apply (ForallOrdPairs_sublist _ _ (allScams st)); [|assumption].
    now transitivity (recentScams st).
Qed.

Lemma cards_are_few_and_distinct_witness :
  (length
     (shownAlerts
        (step initial
              (FetchOk true 0
                 [mkScam 1 "dangerous" 90 "Pay the customs fee today" 1 [];
                  mkScam 2 "dangerous" 90 "pay the customs fee TODAY!" 1 [];
                  mkScam 3 "high" 80 "Your parcel is held" 1 [];
                  mkScam 4 "critical" 99 "Bank account locked" 1 [];
                  mkScam 5 "dangerous" 75 "Lottery prize waiting" 1 []])))
   <= 3)%nat.
Proof.
  apply (cards_are_few_and_distinct
           (step initial
                 (FetchOk true 0
                    [mkScam 1 "dangerous" 90 "Pay the customs fee today" 1 [];
                     mkScam 2 "dangerous" 90 "pay the customs fee TODAY!" 1 [];
                     mkScam 3 "high" 80 "Your parcel is held" 1 [];
                     mkScam 4 "critical" 99 "Bank account locked" 1 [];
                     mkScam 5 "dangerous" 75 "Lottery prize waiting" 1 []]))).
  apply reachable_step, reachable_initial.
Defined.

Lemma Math_round_ge (x : Q) (n : Z) :
  (inject_Z n <= x)%Q -> (n <= Math_round x)%Z.
Proof.
  intros H. unfold Math_round. rewrite <- (Qfloor_Z n).
  apply Qfloor_resp_le. apply Qle_trans with x; [assumption|].
  rewrite <- (Qplus_0_r x) at 1. apply Qplus_le_r. discriminate.
Qed.

(** X8: in every state the page reaches, the percentage written on a
    card is at least 70, so that the mark "Keywords" for a percentage
    below 70 is on no card.  A card that reads 71% or more has the red
    badge, and the orange badge is on cards that read 70% only; a card
    that reads 70% has the one or the other, for the colour follows the
    number before [Math.round]: the score 70.4 is written 70% in red,
    the score 70 in orange. *)
Theorem cards_show_seventy_or_more (st : State) (scam : Scam) :
  reachable st -> scam ∈ shownAlerts st ->
  (70 <= shownPercent scam)%Z
  /\ keywordWarning scam = false
  /\ ((71 <= shownPercent scam)%Z -> badgeIsRed scam = true)
  /\ (badgeIsRed scam = false ->
      shownPercent scam = 70%Z /\ (shownRiskScore scam == 70)%Q)
  /\ (exists (st' : State) (red orange : Scam),
         reachable st' /\ red ∈ shownAlerts st' /\ orange ∈ shownAlerts st'
         /\ shownPercent red = 70%Z /\ badgeIsRed red = true
         /\ shownPercent orange = 70%Z /\ badgeIsRed orange = false).
Proof.
  intros Hreach Hin.
  assert (Spec.highRisk scam) as [_ Hscore].
  { apply reachable_highRisk in Hreach as [_ Hrecent].
    unfold shownAlerts in Hin.
    destruct (negb (loadingScams st) && (0 <? length (recentScams st))%nat).
    - rewrite Forall_forall in Hrecent. now apply Hrecent.
    - inversion Hin. }
  apply shownRiskScore_high in Hscore.
  unfold shownPercent, keywordWarning, badgeIsRed, HomePage.ltb.
  pose proof (Math_round_near (shownRiskScore scam)) as [_ Hround].
  split; [now apply Math_round_ge|]. split; [|split; [|split]].
  - apply Qle_bool_iff in Hscore. now rewrite Hscore.
  - intros Hwritten. apply gtb_iff.
    rewrite Zle_Qle in Hwritten. change (inject_Z 71) with 71%Q in Hwritten. lra.
  - intros Horange.
    assert (shownRiskScore scam <= 70)%Q as Hle.
    { apply Qnot_lt_le. intros H. apply gtb_iff in H. congruence. }
    assert (shownRiskScore scam == 70)%Q as H70 by now apply Qle_antisym.
    split; [|assumption]. unfold Math_round. now rewrite H70.
  - exists (step initial
                 (FetchOk true 0
                    [mkScam 1 "dangerous" (704 # 10) "Pay the customs fee today" 1 [];
                     mkScam 2 "high" 70 "Your parcel is held" 1 []])),
           (mkScam 1 "dangerous" (704 # 10) "Pay the customs fee today" 1 []),
           (mkScam 2 "high" 70 "Your parcel is held" 1 []).
    split; [apply reachable_step, reachable_initial|].
    split; [vm_compute; repeat constructor|].
    split; [vm_compute; repeat constructor|].
    vm_compute. repeat split.
Qed.

Lemma cards_show_seventy_or_more_witness :
  (70 <= shownPercent (mkScam 3 "high" (7 # 10) "Your parcel is held" 1 ["parcel"]))%Z.
Proof.
  apply (cards_show_seventy_or_more
           (step initial
                 (FetchOk true 0
                    [mkScam 3 "high" (7 # 10) "Your parcel is held" 1 ["parcel"]]))).
  - apply reachable_step, reachable_initial.
  - vm_compute. constructor.
Defined.

Lemma substring0_prefix (n : nat) (s : string) :
  exists rest : string, s = substring0 n s ++ rest.
Proof.
  unfold substring0. revert s. induction n as [|n IH]; intros s.
  - exists s. now destruct s.
  - destruct s as [|c s]; [now exists ""|].
    destruct (IH s) as [rest Hrest]. exists rest. rewrite Hrest at 1. reflexivity.
Qed.

Lemma substring0_full_length (n : nat) (s : string) :
  (n <= String.length s)%nat -> String.length (substring0 n s) = n.
Proof.
  unfold substring0. revert s. induction n as [|n IH]; intros s Hn.
  - now destruct s.
  - destruct s as [|c s]; simpl in *; [lia|]. rewrite IH; [reflexivity | lia].
Qed.

Lemma string_length_app (a b : string) :
  String.length (a ++ b) = (String.length a + String.length b)%nat.
Proof. induction a as [|c a IH]; simpl; [reflexivity | now rewrite IH]. Qed.

(** X9: the text of a card never has more than 123 code units; a
    content of at most 120 code units is shown whole, a longer one is
    shown by its first 120 code units followed by three dots.  Of the
    suspicious terms the card shows the first four at most, and the
    count it adds after "+" is the number of the terms it leaves out. *)
Theorem card_cuts (scam : Scam) :
  (String.length (shownContent scam) <= 123)%nat
  /\ ((String.length (anonymized_content scam) <= 120)%nat ->
      shownContent scam = anonymized_content scam)
  /\ ((120 < String.length (anonymized_content scam))%nat ->
      exists (shown rest : string),
        anonymized_content scam = shown ++ rest
        /\ String.length shown = 120%nat
        /\ shownContent scam = shown ++ "...")
  /\ shownTerms scam = take 4 (suspicious_terms scam)
  /\ (length (shownTerms scam)
      + match moreTerms scam with Some n => n | None => 0 end
      = length (suspicious_terms scam))%nat.
Proof.
  unfold shownContent, shownTerms, moreTerms.
  assert (JsArray.slice 0 4 (suspicious_terms scam) = take 4 (suspicious_terms scam))
    as Hslice.
  { unfold JsArray.slice. cbv beta iota zeta.
    change (0 <? 0)%Z with false. change (4 <? 0)%Z with false. cbv iota.
    replace (Z.to_nat (Z.min 0 (Z.of_nat (length (suspicious_terms scam)))))
      with 0%nat by lia.
    rewrite drop_0.
    destruct (Nat.le_gt_cases 4 (length (suspicious_terms scam))).
    - f_equal. lia.
    - rewrite !take_ge; [reflexivity | lia | lia]. }
  split; [|split; [|split; [|split]]].
  - destruct (120 <? String.length (anonymized_content scam))%nat eqn:E.
    + rewrite string_length_app.
      pose proof (substring0_length 120 (anonymized_content scam)).
      change (String.length "...") with 3%nat. lia.
    + apply Nat.ltb_ge in E. lia.
  - intros Hshort. apply Nat.ltb_ge in Hshort. now rewrite Hshort.
  - intros Hlong. pose proof Hlong as Hlt. apply Nat.ltb_lt in Hlt. rewrite Hlt.
    destruct (substring0_prefix 120 (anonymized_content scam)) as [rest Hrest].
    exists (substring0 120 (anonymized_content scam)), rest.
    split; [assumption|]. split; [|reflexivity].
    apply substring0_full_length. lia.
  - assumption.
  - rewrite Hslice, length_take.
    destruct (4 <? length (suspicious_terms scam))%nat eqn:E;
      [apply Nat.ltb_lt in E | apply Nat.ltb_ge in E]; lia.
Qed.

End Cards.

(** ** Runs of the message analysis *)

Section DetectorRuns.
Import JsString PhishingDetector DetectorRun.

Ltac run_cases env message :=
  unfold analyzeMessage, predictThen, refreshHistory, loggedIn in *;
  destruct (isAuthenticated env && user env) eqn:Eauth;
  destruct (createScan env (trim message) "message") as [thrown|scanResult] eqn:Escan;
  destruct (predict env (trim message)) as [rejected|[] status data] eqn:Epredict;
  cbn [app].

(** X10: a run on a message that is not blank first sets the loading
    flag, clears the error and the result, and resets the loading flag
    as its last effect; in between it ends in exactly one way, with a
    result or with an error message that is not empty.  A run on a
    blank message sets the error and never touches the loading flag. *)
Theorem analysis_ends_one_way (env : Env) (message : string) :
  (~ Spec.whitespaceOnly message ->
   (exists body : list Effect,
       analyzeMessage env message
       = ([SetLoading true; SetError ""; SetResult None] ++ body
          ++ [SetLoading false])%list)
   /\ (length (List.filter setsResult (analyzeMessage env message))
       + length (List.filter setsFailure (analyzeMessage env message))
       = 1)%nat)
  /\ (Spec.whitespaceOnly message ->
      List.filter setsResult (analyzeMessage env message) = []
      /\ (SetLoading true ∉ analyzeMessage env message)
      /\ (SetLoading false ∉ analyzeMessage env message)).
Proof.
  split.
  - intros Hnot. rewrite <- trim_empty_iff in Hnot.
    apply String.eqb_neq in Hnot.
    split.
    + unfold analyzeMessage. rewrite Hnot. eexists. reflexivity.
    + run_cases env message; rewrite Hnot; reflexivity.
  - intros Hblank. apply trim_empty_iff in Hblank.
    unfold analyzeMessage. rewrite Hblank. simpl.
    split; [reflexivity|]. split; intros Hin;
      apply elem_of_cons in Hin as [Hin|Hin]; [discriminate | inversion Hin
                                               | discriminate | inversion Hin].
Qed.

Ltac members :=
  repeat (rewrite elem_of_cons in * || rewrite elem_of_nil in *).

#[local] Set Warnings "-clear-no-such-hyp".

(** X11: on a message that is not blank, the scan service is called
    exactly for a visitor who is logged in, and [/predict] exactly for a
    visitor who is not, or when the call of the scan service threw;
    both are given the trimmed message.  The history is fetched again
    exactly when the scan service answered, and a run makes at most two
    calls of the analysis. *)
Theorem analysis_calls (env : Env) (message : string) :
  ~ Spec.whitespaceOnly message ->
  (forall content scan_type : string,
      CallCreateScan content scan_type ∈ analyzeMessage env message
      <-> loggedIn env = true /\ content = trim message /\ scan_type = "message")
  /\ (forall sent : string,
         CallPredict sent ∈ analyzeMessage env message
         <-> sent = trim message
             /\ (loggedIn env = false
                 \/ exists thrown : string,
                      createScan env (trim message) "message" = Threw thrown))
  /\ (CallFetchScanHistory ∈ analyzeMessage env message
      <-> loggedIn env = true
          /\ exists scanResult : Response,
               createScan env (trim message) "message" = Returned scanResult)
  /\ (length (List.filter isAnalysisCall (analyzeMessage env message)) <= 2)%nat.
Proof.
  intros Hnot. rewrite <- trim_empty_iff in Hnot. apply String.eqb_neq in Hnot.
  split; [|split; [|split]].
  - intros content scan_type.
    run_cases env message; rewrite Hnot; cbn [app]; members; naive_solver.
  - intros sent.
    run_cases env message; rewrite Hnot; cbn [app]; members; naive_solver.
  - run_cases env message; rewrite Hnot; cbn [app]; members; naive_solver.
  - run_cases env message; rewrite Hnot; cbn; lia.
Qed.

Lemma analysis_calls_witness :
  CallPredict "Win a prize" ∈
    analyzeMessage
      (mkEnv true true (fun _ _ => Threw "HTTP 500")
             (fun _ => Responded true 200
                         (mkResponse (Some "dangerous") (Some 88%Q) None None None None)))
      "  Win a prize ".
Proof.
  apply (analysis_calls
           (mkEnv true true (fun _ _ => Threw "HTTP 500")
                  (fun _ => Responded true 200
                              (mkResponse (Some "dangerous") (Some 88%Q) None None None None)))
           "  Win a prize ").
  - vm_compute. discriminate.
  - split; [reflexivity|]. right. now exists "HTTP 500".
Defined.

Lemma isHighRisk_of_score (score : option Q) (r : Result) :
  risk_score r = orNumber score 0 ->
  (isHighRisk (Some r) = true <-> exists q : Q, score = Some q /\ (50 <= q)%Q).
Proof.
  intros Hscore. unfold isHighRisk. cbn [option_map]. rewrite Hscore.
  unfold orNumber at 1. cbv zeta. rewrite geb_iff.
  destruct score as [q|]; cbn [orNumber].
  - destruct (Qeq_bool q 0) eqn:E0.
    + apply Qeq_bool_iff in E0. change (Qeq_bool 0 0) with true. cbv iota.
      split; [intros H; q_order|].
      intros (q' & [= <-] & H). rewrite E0 in H. q_order.
    + rewrite E0. split; [intros H; now exists q|]. now intros (q' & [= <-] & H).
  - change (Qeq_bool 0 0) with true. cbv iota.
    split; [intros H; q_order | intros (q & Hq & _); discriminate].
Qed.

(** X12: after an analysis the button of the CERT report depends on the
    score of the answer alone: it is there exactly when the answer
    carries a risk score of 50 or more, for each of the three ways a
    result is built; an answer without a score, and the page before any
    analysis, never have it, nor does a visitor who is not logged in. *)
Theorem cert_button_after_analysis (env : Env) (scanResult : Response) :
  (forall transform : Response -> Result,
      transform = resultOfScan \/ transform = resultOfFallback
      \/ transform = resultOfDirect ->
      (isHighRisk (Some (transform scanResult)) = true
       <-> exists q : Q, r_risk_score scanResult = Some q /\ (50 <= q)%Q))
  /\ isHighRisk None = false
  /\ (isAuthenticated env = false ->
      forall result : option Result, certButtonShown env result = false).
Proof.
  split; [|split].
  - intros transform [-> | [-> | ->]]; now apply isHighRisk_of_score.
  - reflexivity.
  - intros Hanon result. unfold certButtonShown. rewrite Hanon. apply andb_false_r.
Qed.

End DetectorRuns.

(** ** Requests of the QR scanner *)

Section QRRequests.
Import JsString LocalStorage QRSession.
Local Open Scope list_scope.

#[local] Set Warnings "-clear-no-such-hyp".

Ltac members :=
  repeat (rewrite elem_of_app in * || rewrite elem_of_cons in *
          || rewrite elem_of_nil in *).

Ltac outcome_cases env :=
  destruct (outcome env) as [rejected|status [notJson|body]] eqn:Eoutcome;
  [ | destruct (status =? 401)%nat eqn:E401
    | destruct (status =? 401)%nat eqn:E401;
      [ | destruct (ok status) eqn:Eok; [destruct (detected body) eqn:Edetected|]]];
  cbn [negb fst snd].

Lemma orMessage_shown (message fallback : string) :
  String.eqb fallback "" = false ->
  negb (String.eqb (orMessage message fallback) "") = true.
Proof.
  intros Hfallback. unfold orMessage.
  destruct (String.eqb message "") eqn:E; [now rewrite Hfallback | now rewrite E].
Qed.

Lemma ok_not_401 (status : nat) : (status =? 401)%nat = true -> ok status = false.
Proof. intros H. apply Nat.eqb_eq in H. now subst. Qed.

(** X13: a run of [analyzeQRCode] sets the loading flag, clears the
    error and posts the image once, and resets the loading flag as its
    last effect, also when it returns early on an answer 401.  The scan
    result is set exactly when the answer is ok, is JSON and tells that
    a QR code was detected; an answer that is ok without a detection
    shows nothing, and every other run shows one error message. *)
Theorem qr_analysis_run (env : Env) :
  (exists body : list Effect,
      fst (analyzeQRCode env)
      = [SetLoading true; SetError ""; PostImage (authorization (stored env))]
          ++ body ++ [SetLoading false])
  /\ length (List.filter isRequest (fst (analyzeQRCode env))) = 1%nat
  /\ (forall result : Body,
         SetScanResult result ∈ fst (analyzeQRCode env)
         <-> exists status : nat,
               outcome env = Responded status (JsonBody result)
               /\ ok status = true /\ detected result = true)
  /\ (length (List.filter showsError (fst (analyzeQRCode env))) <= 1)%nat
  /\ (List.filter showsError (fst (analyzeQRCode env)) = []
      <-> exists (status : nat) (result : Body),
            outcome env = Responded status (JsonBody result)
            /\ ok status = true).
Proof.
  unfold analyzeQRCode, refreshHistory.
  split; [|split; [|split; [|split]]].
  - outcome_cases env;
      try (destruct (scanInterval env)); try (destruct (isAuthenticated env && user env));
      cbn [fst app];
      match goal with
      | |- exists body, ?l = _ => exists (removelast (drop 3 l))
      end; reflexivity.
  - outcome_cases env; cbn [fst app]; try reflexivity.
    destruct (scanInterval env), (isAuthenticated env && user env); reflexivity.
  - intros result.
    outcome_cases env; cbn [fst app]; members;
      try (destruct (scanInterval env)); try (destruct (isAuthenticated env && user env));
      members; try naive_solver.
    all: split; [naive_solver|]; intros (status' & [= -> ->] & Hok & Hdet);
      try (rewrite (ok_not_401 _ E401) in Hok); congruence.
  - outcome_cases env;
      try (destruct (scanInterval env)); try (destruct (isAuthenticated env && user env));
      cbn [fst app List.filter showsError];
      rewrite ?orMessage_shown by reflexivity; cbn; lia.
  - outcome_cases env;
      try (destruct (scanInterval env)); try (destruct (isAuthenticated env && user env));
      cbn [fst app List.filter showsError];
      rewrite ?orMessage_shown by reflexivity; cbn [List.filter showsError negb String.eqb].
    all: try (split; [discriminate|]; intros (status' & result & [=] & Hok); subst;
              try (rewrite (ok_not_401 _ E401) in Hok); congruence).
    all: split; [intros _; eauto | reflexivity].
Qed.

End QRRequests.

Section QRSessionFacts.
Import JsString LocalStorage QRSession.
Local Open Scope list_scope.

#[local] Set Warnings "-clear-no-such-hyp".

Ltac members :=
  repeat (rewrite elem_of_app in * || rewrite elem_of_cons in *
          || rewrite elem_of_nil in *).

Lemma clearSession_lookup (storage : Storage) (key : string) :
  getItem key (clearSession storage)
  = if decide (key = "access_token" \/ key = "user_data") then None
    else getItem key storage.
Proof.
  unfold clearSession, removeItem, getItem.
  destruct (decide (key = "access_token" \/ key = "user_data")) as [[->| ->]|Hother].
  - rewrite lookup_delete_ne by discriminate. apply lookup_delete_eq.
  - apply lookup_delete_eq.
  - rewrite !lookup_delete_ne; [reflexivity | intros <-; tauto | intros <-; tauto].
Qed.

Lemma analyzeQRCode_leaves (env : Env) : leaves (analyzeQRCode env) env.
Proof.
  unfold leaves, analyzeQRCode.
  destruct (outcome env) as [rejected|status json]; [now left|].
  destruct (status =? 401)%nat eqn:E401.
  - right. apply Nat.eqb_eq in E401 as ->. cbn [fst snd]. members. eauto 10.
  - left. destruct json as [m|body]; [reflexivity|].
    destruct (negb (ok status)); [reflexivity|]. now destruct (detected body).
Qed.

Lemma analyzeURL_leaves (env : Env) (url : string) : leaves (analyzeURL env url) env.
Proof.
  unfold leaves, analyzeURL.
  destruct (outcome env) as [rejected|status json]; [now left|].
  destruct (status =? 401)%nat eqn:E401.
  - right. apply Nat.eqb_eq in E401 as ->. cbn [fst snd]. members. eauto 10.
  - left. destruct json as [m|body]; [reflexivity|].
    now destruct (negb (ok status)).
Qed.

Lemma handleCERTReport_leaves (env : Env) : leaves (handleCERTReport env) env.
Proof.
  unfold leaves, handleCERTReport.
  destruct (scanResult env) as [result|]; [|now left].
  destruct (negb (isAuthenticated env)); [now left|].
  destruct (negb (truthy (getItem "access_token" (stored env)))); [now left|].
  destruct (outcome env) as [rejected|status json]; [now left|].
  destruct (status =? 401)%nat eqn:E401.
  - right. apply Nat.eqb_eq in E401 as ->. cbn [fst snd]. members. eauto 10.
  - left. destruct json as [m|body]; [reflexivity|].
    now destruct (negb (ok status)).
Qed.

(** X14: whichever of [analyzeQRCode], [analyzeURL] and
    [handleCERTReport] runs, the storage is left as it was unless the
    answer has the status 401; then the run tells that the session
    expired, the keys [access_token] and [user_data] are gone and every
    other key is as before.  The requests that the page builds itself,
    which read the token from the storage, then carry no
    [Authorization] header, and neither do those of a client made anew;
    but the client of the API that is there keeps the token it holds
    and sends the headers it sent before. *)
Theorem session_cleared_on_401 (env : Env) (url : string)
        (run : list Effect * Storage) :
  run = analyzeQRCode env \/ run = analyzeURL env url
  \/ run = handleCERTReport env ->
  (snd run <> stored env ->
   (exists json : Json, outcome env = Responded 401 json)
   /\ SetError sessionExpired ∈ fst run)
  /\ ((exists json : Json, outcome env = Responded 401 json) ->
      List.filter isRequest (fst run) <> [] ->
      getItem "access_token" (snd run) = None
      /\ getItem "user_data" (snd run) = None
      /\ authorization (snd run) = None
      /\ (forall key : string,
             key <> "access_token" -> key <> "user_data" ->
             getItem key (snd run) = getItem key (stored env))
      /\ (forall contentType : string,
             Api.getHeaders (Api.newClient (snd run)) contentType
             = {["Content-Type" := contentType]})
      /\ (forall (client : Api.Client) (contentType : string),
             Api.storage client = stored env ->
             Api.getHeaders (Api.mkClient (Api.token client) (snd run))
                            contentType
             = Api.getHeaders client contentType)
      /\ (forall (token contentType : string),
             getItem "access_token" (stored env) = Some token -> token <> "" ->
             Api.getHeaders
               (Api.mkClient (Api.token (Api.newClient (stored env))) (snd run))
               contentType
             !! "Authorization"
             = Some ("Bearer " ++ token)%string)).
Proof.
  intros Hrun.
  assert (leaves run env) as Hleaves.
  { destruct Hrun as [-> | [-> | ->]];
      [apply analyzeQRCode_leaves | apply analyzeURL_leaves
       | apply handleCERTReport_leaves]. }
  split.
  - intros Hchanged. destruct Hleaves as [Hsame|(_ & Herr & Hjson)]; [congruence|].
    now split.
  - intros [json Hjson] Hrequest.
    assert (snd run = clearSession (stored env)) as ->.
    { destruct Hrun as [-> | [-> | ->]].
      - unfold analyzeQRCode. now rewrite Hjson.
      - unfold analyzeURL. now rewrite Hjson.
      - unfold handleCERTReport in *.
        destruct (scanResult env) as [result|]; [|now contradiction Hrequest].
        destruct (negb (isAuthenticated env)); [now contradiction Hrequest|].
        destruct (negb (truthy (getItem "access_token" (stored env))));
          [now contradiction Hrequest|].
        now rewrite Hjson. }
    assert (getItem "access_token" (clearSession (stored env)) = None) as Htoken
      by (rewrite clearSession_lookup; now rewrite decide_True by tauto).
    split; [assumption|]. split.
    + rewrite clearSession_lookup. now rewrite decide_True by tauto.
    + split; [unfold authorization; now rewrite Htoken|].
      split; [|split; [|split]].
      * intros key Hk1 Hk2. rewrite clearSession_lookup.
        now rewrite decide_False by tauto.
      * intros contentType. unfold Api.getHeaders, Api.newClient.
        cbn [Api.token]. now rewrite Htoken.
      * reflexivity.
      * intros token contentType Hstored Hgiven.
        unfold Api.getHeaders, Api.newClient. cbn [Api.token].
        rewrite Hstored. cbn [Api.ofItem Api.given Api.text].
        apply String.eqb_neq in Hgiven. rewrite Hgiven. cbn [negb].
        apply lookup_insert_eq.
Qed.

Lemma session_cleared_on_401_witness :
  getItem "access_token"
    (snd (analyzeQRCode
            (mkEnv (<["theme" := "dark"]> (<["access_token" := "abc"]> ∅))
                   true true false None ""
                   (Responded 401 (NotJson "Unexpected token")))))
  = None.
Proof.
  apply (session_cleared_on_401
           (mkEnv (<["theme" := "dark"]> (<["access_token" := "abc"]> ∅))
                  true true false None ""
                  (Responded 401 (NotJson "Unexpected token")))
           "https://example.lk" _ (or_introl eq_refl)).
  - now exists (NotJson "Unexpected token").
  - discriminate.
Defined.

(** X15: the QR scanner posts a CERT report only with a scan result, a
    visitor who is logged in and a stored token, and then exactly once,
    with that token and with an address and a risk level that are never
    empty; the report counts as sent only for an answer that is ok and
    JSON.  A run that did anything began by setting the flag of the
    report and ends by resetting it. *)
Theorem qr_cert_report_guard (env : Env) :
  (fst (handleCERTReport env) = []
   <-> scanResult env = None \/ isAuthenticated env = false)
  /\ (forall (header : string) (data : ReportData),
         PostCertReport header data ∈ fst (handleCERTReport env)
         <-> exists (result : Body) (token : string),
               scanResult env = Some result /\ isAuthenticated env = true
               /\ getItem "access_token" (stored env) = Some token
               /\ token <> ""
               /\ header = ("Bearer " ++ token)%string
               /\ data = reportData env result)
  /\ (length (List.filter isRequest (fst (handleCERTReport env))) <= 1)%nat
  /\ (SetCertReportSuccess true ∈ fst (handleCERTReport env) ->
      exists (status : nat) (body : Body),
        outcome env = Responded status (JsonBody body) /\ ok status = true)
  /\ (fst (handleCERTReport env) <> [] ->
      exists body : list Effect,
        fst (handleCERTReport env)
        = [SetCertReporting true; SetError ""] ++ body ++ [SetCertReporting false])
  /\ (forall result : Body,
         qr_url (reportData env result) <> ""
         /\ risk_level (reportData env result) <> "").
Proof.
  unfold handleCERTReport.
  split; [|split; [|split; [|split; [|split]]]].
  - destruct (scanResult env) as [result|]; [|now split; auto].
    destruct (isAuthenticated env); cbn [negb]; [|now split; auto].
    split; [|intros [H|H]; discriminate].
    destruct (negb (truthy _)); [discriminate|].
    destruct (outcome env) as [|status [|body]]; [discriminate | |];
      destruct (status =? 401)%nat; try discriminate;
      destruct (negb (ok status)); discriminate.
  - intros header data.
    destruct (scanResult env) as [result|];
      [|cbn [fst]; members; split; [tauto | intros (? & ? & [=] & _)]].
    destruct (isAuthenticated env); cbn [negb];
      [|cbn [fst]; members; split; [tauto | intros (? & ? & _ & [=] & _)]].
    unfold truthy. destruct (getItem "access_token" (stored env)) as [token|];
      [|cbn [negb fst]; members; split; [naive_solver | intros (? & ? & _ & _ & [=] & _)]].
    destruct (String.eqb token "") eqn:Etoken; cbn [negb default].
    + apply String.eqb_eq in Etoken. cbn [fst]. members.
      split; [naive_solver | intros (? & ? & _ & _ & [= <-] & Hne & _); congruence].
    + apply String.eqb_neq in Etoken.
      destruct (outcome env) as [|status [|body]]; [ | |];
        try (destruct (status =? 401)%nat); try (destruct (negb (ok status)));
        cbn [fst]; members;
        (split; [intros H; exists result, token; naive_solver
                | intros (? & ? & [= <-] & _ & [= <-] & _ & -> & ->); naive_solver]).
  - destruct (scanResult env) as [result|]; [|cbn; lia].
    destruct (negb (isAuthenticated env)); [cbn; lia|].
    destruct (negb (truthy _)); [cbn; lia|].
    destruct (outcome env) as [|status [|body]]; [cbn; lia | |];
      destruct (status =? 401)%nat; try (cbn; lia);
      destruct (negb (ok status)); cbn; lia.
  - destruct (scanResult env) as [result|]; [|cbn [fst]; members; tauto].
    destruct (negb (isAuthenticated env)); [cbn [fst]; members; tauto|].
    destruct (negb (truthy _)); [cbn [fst]; members; naive_solver|].
    destruct (outcome env) as [|status [|body]]; [cbn [fst]; members; naive_solver | |];
      destruct (status =? 401)%nat; try (cbn [fst]; members; naive_solver);
      destruct (ok status) eqn:Eok; cbn [negb fst]; members; naive_solver.
  - destruct (scanResult env) as [result|]; [|now intros []].
    destruct (negb (isAuthenticated env)); [now intros []|]. intros _.
    destruct (negb (truthy _)); [eexists; reflexivity|].
    destruct (outcome env) as [|status [|body]]; [ | |];
      try (destruct (status =? 401)%nat); try (destruct (negb (ok status)));
      cbn [fst app];
      match goal with
      | |- exists body, ?l = _ => exists (removelast (drop 2 l))
      end; reflexivity.
  - intros result. unfold reportData, reportedUrl, orMessage. cbn [qr_url risk_level].
    split.
    + destruct (String.eqb _ "") eqn:E; [|now apply String.eqb_neq in E].
      unfold PhishingDetector.orString.
      destruct (url_analysis_url result) as [u|]; [|discriminate].
      destruct (String.eqb u "") eqn:Eu; [discriminate | now apply String.eqb_neq in Eu].
    + unfold PhishingDetector.orString.
      destruct (combined_assessment result) as [a|]; [|discriminate].
      destruct (QRScanner.final_risk_level a) as [l|]; [|discriminate].
      destruct (String.eqb l "") eqn:El; [discriminate | now apply String.eqb_neq in El].
Qed.

End QRSessionFacts.

(** ** The panel of the risk and the button of the report *)

Section QRPanel.
Import JsString LocalStorage QRSession.

Lemma toLowerChar_idempotent (c : ascii) :
  toLowerChar (toLowerChar c) = toLowerChar c.
Proof. destruct c as [[] [] [] [] [] [] [] []]; vm_compute; reflexivity. Qed.

Lemma toLowerCase_idempotent (s : string) :
  toLowerCase (toLowerCase s) = toLowerCase s.
Proof.
  induction s as [|c s IH]; simpl; [reflexivity|].
  now rewrite toLowerChar_idempotent, IH.
Qed.


(** X16: the button of the CERT report of the QR scanner comes only
    with a panel in the colours of a medium, high or critical risk,
    never with a green or grey one.  The colour of the panel does not
    depend on the case of the letters of the level, the button does: a
    level that is not written in lower case never shows it. *)
Theorem qr_button_and_panel (level : option string) (score : option Q) :
  (QRScanner.isHighRisk
     (Some (QRScanner.mkScanResult (Some (QRScanner.mkCombined level score))))
   = true ->
   (level = Some "medium"
    /\ getRiskColor level = "text-yellow-600 bg-yellow-50 border-yellow-200")
   \/ (level = Some "high"
       /\ getRiskColor level = "text-orange-600 bg-orange-50 border-orange-200")
   \/ (level = Some "critical"
       /\ getRiskColor level = "text-red-600 bg-red-50 border-red-200"))
  /\ getRiskColor (option_map toLowerCase level) = getRiskColor level
  /\ (option_map toLowerCase level <> level ->
      QRScanner.isHighRisk
        (Some (QRScanner.mkScanResult (Some (QRScanner.mkCombined level score))))
      = false)
  /\ getRiskColor None = "text-gray-600 bg-gray-50 border-gray-200".
Proof.
  split; [|split; [|split]].
  - intros H. apply isHighRisk_levels in H as [-> | [-> | ->]]; auto.
  - unfold getRiskColor. destruct level as [l|]; [|reflexivity].
    cbn [option_map]. now rewrite toLowerCase_idempotent.
  - intros Hcase. apply not_true_iff_false. intros H.
    apply isHighRisk_levels in H as [-> | [-> | ->]]; now apply Hcase.
  - reflexivity.
Qed.

Lemma qr_button_and_panel_witness :
  QRScanner.isHighRisk
    (Some (QRScanner.mkScanResult
             (Some (QRScanner.mkCombined (Some "High") (Some 80%Q))))) = false
  /\ getRiskColor (Some "High") = "text-orange-600 bg-orange-50 border-orange-200".
Proof.
  split; [|reflexivity].
  apply (qr_button_and_panel (Some "High") (Some 80%Q)). discriminate.
Defined.

(** X17: a scan taken from the history of the QR scanner shows the
    button of the CERT report exactly when its stored classification is
    "medium", "high" or "critical"; a scan without classification, shown
    as "unknown", does not. *)
Theorem qr_history_button (scan : HistoryScan) :
  (QRScanner.isHighRisk (Some (historicalResult scan)) = true
   <-> classification scan = Some "medium" \/ classification scan = Some "high"
       \/ classification scan = Some "critical")
  /\ (classification scan = None ->
      QRScanner.riskLevelOf (Some (historicalResult scan)) = "unknown"
      /\ QRScanner.isHighRisk (Some (historicalResult scan)) = false).
Proof.
  unfold historicalResult. split.
  - rewrite isHighRisk_levels. unfold PhishingDetector.orString.
    destruct (classification scan) as [c|].
    + destruct (String.eqb c "") eqn:Ec.
      * apply String.eqb_eq in Ec. subst c.
        split; [intros [H|[H|H]]; discriminate | intros [H|[H|H]]; discriminate].
      * tauto.
    + split; [intros [H|[H|H]]; discriminate | intros [H|[H|H]]; discriminate].
  - intros ->. split; reflexivity.
Qed.

End QRPanel.

(** ** The client of the API and the stored session *)

Section ApiSession.
Import LocalStorage Api.

Variable JSON_stringify : User -> string.
Variable JSON_parse : string -> Parsed.

Lemma given_text (t : Field string) : given t = true -> truthy (Some (text t)) = true.
Proof. destruct t as [| |s]; simpl; congruence. Qed.

(** X18: after [setToken], the header [Authorization] is sent exactly
    when the token is a string that is not empty, and then it is
    "Bearer" followed by the token; the stored [access_token] follows
    the token in the same way and no other key is touched.  A client
    made anew from the storage sends the same headers. *)
Theorem token_agreement (newToken : Field string) (client : Client)
        (contentType : string) :
  let client' := setToken newToken client in
  getHeaders client' contentType !! "Authorization"
  = (if given newToken then Some ("Bearer " ++ text newToken) else None)
  /\ getHeaders client' contentType !! "Content-Type" = Some contentType
  /\ getItem "access_token" (storage client')
     = (if given newToken then Some (text newToken) else None)
  /\ isLoggedIn (storage client') = given newToken
  /\ (forall key : string,
         key <> "access_token" ->
         getItem key (storage client') = getItem key (storage client))
  /\ getHeaders (newClient (storage client')) contentType
     = getHeaders client' contentType.
Proof.
  cbv zeta.
  assert (getItem "access_token" (storage (setToken newToken client))
          = (if given newToken then Some (text newToken) else None)) as Hstored.
  { unfold setToken, getItem, setItem, removeItem. cbn [storage].
    destruct (given newToken); [apply lookup_insert_eq | apply lookup_delete_eq]. }
  split; [|split; [|split; [|split; [|split]]]].
  - unfold getHeaders, setToken. cbn [token].
    destruct (given newToken); [apply lookup_insert_eq|].
    now rewrite lookup_singleton_ne.
  - unfold getHeaders, setToken. cbn [token].
    destruct (given newToken).
    + rewrite lookup_insert_ne by discriminate. apply lookup_singleton_eq.
    + apply lookup_singleton_eq.
  - assumption.
  - unfold isLoggedIn. rewrite Hstored.
    destruct (given newToken) eqn:E; [now apply given_text | reflexivity].
  - intros key Hkey. unfold setToken, getItem, setItem, removeItem. cbn [storage].
    destruct (given newToken);
      [now rewrite lookup_insert_ne | now rewrite lookup_delete_ne].
  - unfold getHeaders, newClient. cbn [token]. rewrite Hstored.
    unfold setToken. cbn [token].
    destruct (given newToken) eqn:E; cbn [ofItem].
    + destruct newToken as [| |s]; try discriminate. cbn [text given] in *.
      now rewrite E.
    + reflexivity.
Qed.

Lemma logout_storage (outcome : Outcome unit) (client : Client) (key : string) :
  getItem key (storage (logout outcome client))
  = if decide (key ∈ SessionSpec.sessionKeys) then None
    else getItem key (storage client).
Proof.
  unfold logout, setToken, getItem, removeItem, SessionSpec.sessionKeys.
  cbn [storage given].
  destruct (decide (key ∈ ["access_token"; "refresh_token"; "user_data"]))
    as [Hin|Hout].
  - repeat (apply elem_of_cons in Hin as [->|Hin]);
      [ | | | inversion Hin].
    + rewrite !lookup_delete_ne by discriminate. apply lookup_delete_eq.
    + rewrite lookup_delete_ne by discriminate. apply lookup_delete_eq.
    + apply lookup_delete_eq.
  - rewrite !lookup_delete_ne; [reflexivity | | | ];
      intros <-; apply Hout; repeat constructor.
Qed.

(** X19: however the request of [authAPI.logout] ends, the three keys
    of the session are gone from the storage, every other key is as
    before (the key [user] of an OAuth sign-in among them), the client
    sends no [Authorization] header and [isLoggedIn] answers no.
    Logging out after a login leaves the same storage as logging out
    at once. *)
Theorem logout_clears_session (outcome : Outcome unit) (client : Client) :
  (forall key : string,
      key ∈ SessionSpec.sessionKeys ->
      getItem key (storage (logout outcome client)) = None)
  /\ (forall key : string,
         key ∉ SessionSpec.sessionKeys ->
         getItem key (storage (logout outcome client))
         = getItem key (storage client))
  /\ (forall contentType : string,
         getHeaders (logout outcome client) contentType
         = {["Content-Type" := contentType]})
  /\ isLoggedIn (storage (logout outcome client)) = false
  /\ (forall outcome' : Outcome unit,
         logout outcome' client = logout outcome client)
  /\ (forall answer : Outcome LoginResponse,
         storage (logout outcome (login JSON_stringify answer client))
         = storage (logout outcome client)).
Proof.
  split; [|split; [|split; [|split; [|split]]]].
  - intros key Hkey. rewrite logout_storage. now rewrite decide_True.
  - intros key Hkey. rewrite logout_storage. now rewrite decide_False.
  - reflexivity.
  - unfold isLoggedIn. rewrite logout_storage. now rewrite decide_True by repeat constructor.
  - reflexivity.
  - intros answer. apply map_eq. intros key.
    change (getItem key (storage (logout outcome (login JSON_stringify answer client)))
            = getItem key (storage (logout outcome client))).
    rewrite !logout_storage.
    destruct (decide (key ∈ SessionSpec.sessionKeys)) as [|Hout]; [reflexivity|].
    destruct answer as [thrown|response]; [reflexivity|].
    unfold login, keepSession.
    destruct (given (access_token response)) eqn:Etoken; [|reflexivity].
    unfold setToken, getItem, setItem. cbn [storage]. rewrite Etoken.
    rewrite !lookup_insert_ne; [reflexivity | | | ];
      intros <-; apply Hout; repeat constructor.
Qed.

Lemma concat_nonempty (sep : string) (x : string) (rest : list string) :
  x <> "" -> String.concat sep (x :: rest) <> "".
Proof.
  intros Hx. destruct x as [|c x]; [congruence|].
  destruct rest; simpl; discriminate.
Qed.

Lemma orText_nonempty (a : Field string) (b : string) :
  b <> "" -> orText a b <> "".
Proof.
  intros Hb. unfold orText. destruct a as [| |s]; simpl; try assumption.
  destruct (String.eqb s "") eqn:E; simpl; [assumption | now apply String.eqb_neq in E].
Qed.

(** X20: the error that [request] throws for an answer that is not ok
    always has a message, except for a validation error whose list of
    details is empty; an answer whose body is not JSON is reported as
    "An error occurred", and an answer without detail and message by
    its status. *)
Theorem request_error_has_message (status : nat) (errorData : option ErrorData) :
  (requestError status errorData = ""
   <-> exists d : ErrorData,
         errorData = Some d /\ detail d = Some (DetailList []))
  /\ requestError status None = "An error occurred"
  /\ requestError status (Some (mkErrorData None Undefined))
     = "HTTP " ++ PhishingDetector.numberToString status.
Proof.
  split; [|split; reflexivity].
  unfold requestError.
  destruct errorData as [d|]; cbn zeta.
  - destruct (detail d) as [[items|s]|] eqn:Ed.
    + destruct items as [|item items]; cbn [map].
      * split; [intros _; now exists d | reflexivity].
      * split.
        -- intros Hempty. exfalso. revert Hempty. apply concat_nonempty.
           apply orText_nonempty, orText_nonempty. discriminate.
        -- intros (d' & [= <-] & Hd). congruence.
    + destruct (String.eqb s "") eqn:Es.
      * split.
        -- intros Hempty. exfalso. revert Hempty. now apply orText_nonempty.
        -- intros (d' & [= <-] & Hd). congruence.
      * apply String.eqb_neq in Es. split; [congruence|].
        intros (d' & [= <-] & Hd). congruence.
    + split.
      * intros Hempty. exfalso. revert Hempty. now apply orText_nonempty.
      * intros (d' & [= <-] & Hd). congruence.
  - cbn. split; [discriminate | intros (d & [=] & _)].
Qed.

End ApiSession.

(** ** The session across a reload *)

Section Reload.
Import LocalStorage Api.

Variable JSON_stringify : User -> string.
Variable JSON_parse : string -> Parsed.

(** X21: after a login with a password, which stores the user under
    [user_data], a reload finds a token but no stored user, since
    [getStoredUser] reads the key [user]: the provider dispatches
    [LOGOUT] and the visitor is not logged in.  After an OAuth sign-in,
    which stores the user under [user], the reload restores the
    session, with the user the API answers or else the stored one;
    the text of a user object is taken to be read back as that object. *)
Theorem reload_after_sign_in (client : Client) (response : LoginResponse)
        (u : User) (current : Outcome (option User)) :
  given (access_token response) = true ->
  user response = Given u ->
  JSON_stringify u <> "" ->
  JSON_parse (JSON_stringify u) = Value (Some u) ->
  getItem "user" (storage client) = None ->
  isLoggedIn (storage (login JSON_stringify (Returned response) client)) = true
  /\ AuthContext.initializeAuth JSON_parse
       (storage (login JSON_stringify (Returned response) client)) current
     = AuthContext.LOGOUT
  /\ AuthContext.loggedIn
       (AuthContext.authReducer AuthContext.initialState AuthContext.LOGOUT)
     = false
  /\ AuthContext.initializeAuth JSON_parse
       (storeOAuthSession JSON_stringify response (storage client)) current
     = match current with
       | Returned fresh => AuthContext.SET_USER fresh
       | Threw _ => AuthContext.SET_USER (Some u)
       end
  /\ AuthContext.loggedIn
       (AuthContext.authReducer AuthContext.initialState
                                (AuthContext.SET_USER (Some u)))
     = true.
Proof.
  intros Htoken Huser Htext Hjson Hnone.
  assert (isLoggedIn (storage (login JSON_stringify (Returned response) client)) = true)
    as Hlogged.
  { unfold login, keepSession, isLoggedIn. rewrite Htoken.
    unfold setToken, getItem, setItem. cbn [storage]. rewrite Htoken.
    rewrite !lookup_insert_ne by discriminate. rewrite lookup_insert_eq.
    now apply given_text. }
  split; [assumption|]. split; [|split; [reflexivity|split; [|reflexivity]]].
  - unfold AuthContext.initializeAuth. rewrite Hlogged.
    unfold getStoredUser, login, keepSession. rewrite Htoken.
    unfold setToken, getItem, setItem in *. cbn [storage]. rewrite Htoken.
    rewrite !lookup_insert_ne by discriminate. now rewrite Hnone.
  - unfold AuthContext.initializeAuth, isLoggedIn, getStoredUser, storeOAuthSession,
      getItem, setItem.
    rewrite !lookup_insert_ne by discriminate. rewrite !lookup_insert_eq.
    rewrite (given_text _ Htoken). rewrite Huser. cbn [storedUser].
    apply String.eqb_neq in Htext. unfold truthy. rewrite Htext. cbn [negb].
    now rewrite Hjson.
Qed.

End Reload.

Lemma reload_after_sign_in_witness :
  AuthContext.initializeAuth (fun _ => Api.Value (Some ∅))
    (Api.storage
       (Api.login (fun _ => "{}")
          (Api.Returned
             (Api.mkLoginResponse (Api.Given "abc") (Api.Given "def") (Api.Given ∅)))
          (Api.newClient ∅)))
    (Api.Threw "Failed to fetch")
  = AuthContext.LOGOUT.
Proof.
  apply (reload_after_sign_in (fun _ => "{}") (fun _ => Api.Value (Some ∅))
           (Api.newClient ∅)
           (Api.mkLoginResponse (Api.Given "abc") (Api.Given "def") (Api.Given ∅))
           ∅ (Api.Threw "Failed to fetch")).
  - reflexivity.
  - reflexivity.
  - discriminate.
  - reflexivity.
  - reflexivity.
Defined.

(** ** The reducer of the session *)

Section Reducer.
Import AuthContext.

(** What the reducer keeps: no error while logged in, and a user
    whenever logged in as long as every login carried one. *)
Lemma authReducer_no_error (state : State) (action : Action) :
  (is_Some (error state) -> isAuthenticated state = false) ->
  is_Some (error (authReducer state action)) ->
  isAuthenticated (authReducer state action) = false.
Proof.
  intros Hinv. destruct action; cbn [authReducer error isAuthenticated];
    try assumption; try (intros [? [=]]); try reflexivity.
Qed.

Lemma authReducer_user (state : State) (action : Action) :
  SessionSpec.carriesUser action ->
  (isAuthenticated state = true -> is_Some (user state)) ->
  isAuthenticated (authReducer state action) = true ->
  is_Some (user (authReducer state action)).
Proof.
  intros Hcarries Hinv.
  destruct action as [|[u|]| | | | | |[u|]| | | |];
    cbn [authReducer user isAuthenticated] in *;
    try assumption; try discriminate; try (intros _; eauto); try contradiction.
Qed.

Lemma dispatchAll_invariant (P : State -> Prop) (ok : Action -> Prop)
      (actions : list Action) (state : State) :
  (forall s a, ok a -> P s -> P (authReducer s a)) ->
  Forall ok actions -> P state -> P (dispatchAll actions state).
Proof.
  intros Hstep. revert state. unfold dispatchAll.
  induction actions as [|a actions IH]; intros state Hok Hstate; [assumption|].
  inversion Hok; subst. simpl. apply IH; [assumption|]. now apply Hstep.
Qed.

(** X22: whatever actions are dispatched from the first state, the
    session never holds an error while it is authenticated; if every
    [LOGIN_SUCCESS] carried a user, an authenticated session has a
    user, so that the test [isAuthenticated && user] of the pages is
    [isAuthenticated].  [UPDATE_USER] never changes who is
    authenticated, and a session is not logged in after [LOGOUT] or a
    failure. *)
Theorem session_state_invariant (actions : list Action) :
  (is_Some (error (dispatchAll actions initialState)) ->
   isAuthenticated (dispatchAll actions initialState) = false)
  /\ (Forall SessionSpec.carriesUser actions ->
      loggedIn (dispatchAll actions initialState)
      = isAuthenticated (dispatchAll actions initialState))
  /\ (forall (state : State) (payload : User),
         isAuthenticated (authReducer state (UPDATE_USER payload))
         = isAuthenticated state
         /\ is_Some (user (authReducer state (UPDATE_USER payload))))
  /\ (forall (state : State) (payload : option string),
         loggedIn (authReducer state LOGOUT) = false
         /\ loggedIn (authReducer state (LOGIN_FAILURE payload)) = false
         /\ loggedIn (authReducer state (REGISTER_FAILURE payload)) = false).
Proof.
  split; [|split; [|split]].
  - apply (dispatchAll_invariant
             (fun s => is_Some (error s) -> isAuthenticated s = false)
             (fun _ => True)).
    + intros s a _. apply authReducer_no_error.
    + apply Forall_forall. auto.
    + intros [? [=]].
  - intros Hcarry.
    assert (isAuthenticated (dispatchAll actions initialState) = true ->
            is_Some (user (dispatchAll actions initialState))) as Huser.
    { apply (dispatchAll_invariant
               (fun s => isAuthenticated s = true -> is_Some (user s))
               SessionSpec.carriesUser); [|assumption|discriminate].
      intros s a. apply authReducer_user. }
    unfold loggedIn. destruct (isAuthenticated _) eqn:E; [|reflexivity].
    destruct (Huser eq_refl) as [u ->]. reflexivity.
  - intros state payload. split; [reflexivity | cbn; eauto].
  - intros state payload. repeat split.
Qed.

End Reducer.

(** ** The registration form *)

Section Registration.
Import JsString Register.

Lemma includes_char (sep : ascii) (s : string) :
  includes s (String sep "")
  = match s with
    | EmptyString => false
    | String c s' => Ascii.eqb c sep || includes s' (String sep "")
    end.
Proof.
  destruct s as [|c s]; [reflexivity|]. cbn [includes String.prefix].
  destruct (ascii_dec sep c) as [->|Hne].
  - rewrite Ascii.eqb_refl. now destruct s.
  - apply not_eq_sym, Ascii.eqb_neq in Hne. now rewrite Hne.
Qed.

Lemma beforeFirst_split (sep : ascii) (s : string) :
  includes s (String sep "") = true ->
  exists rest : string, s = beforeFirst sep s ++ String sep rest.
Proof.
  induction s as [|c s IH]; rewrite includes_char; [discriminate|].
  cbn [beforeFirst]. destruct (Ascii.eqb c sep) eqn:Ec.
  - intros _. apply Ascii.eqb_eq in Ec as ->. now exists s.
  - cbn [orb]. intros H. destruct (IH H) as [rest Hrest]. exists rest.
    change (String c s = String c (beforeFirst sep s ++ String sep rest)).
    now rewrite <- Hrest.
Qed.

Lemma beforeFirst_free (sep : ascii) (s : string) :
  includes (beforeFirst sep s) (String sep "") = false.
Proof.
  induction s as [|c s IH]; [reflexivity|]. cbn [beforeFirst].
  destruct (Ascii.eqb c sep) eqn:Ec; [reflexivity|].
  rewrite includes_char. now rewrite Ec, IH.
Qed.

Lemma test_app (class : ascii -> bool) (p q : string) :
  test class (p ++ q) = test class p || test class q.
Proof.
  induction p as [|c p IH]; [reflexivity|].
  change (test class (String c (p ++ q)) = test class (String c p) || test class q).
  cbn [test]. now rewrite IH, orb_assoc.
Qed.

Lemma some_class (p : string) :
  p <> "" ->
  test isOther p || test isUpperAz p || test isLower p || test isDigit p = true.
Proof.
  destruct p as [|c p]; [congruence|]. intros _. cbn [test]. unfold isOther.
  destruct (isUpperAz c), (isLower c), (isDigit c); cbn;
    rewrite ?orb_true_r; reflexivity.
Qed.

Lemma bump_bounds (b : bool) (n : nat) : (n <= bump b n <= S n)%nat.
Proof. destruct b; simpl; lia. Qed.

Lemma strength_bounds (p : string) :
  (passwordStrength p <= 5)%nat
  /\ ((8 <= String.length p)%nat -> (2 <= passwordStrength p)%nat)
  /\ (p <> "" -> (1 <= passwordStrength p)%nat).
Proof.
  unfold passwordStrength. split; [|split].
  - repeat match goal with
           | |- context [bump ?b ?n] =>
               lazymatch n with
               | context [bump _ _] => fail
               | _ => pose proof (bump_bounds b n); generalize dependent (bump b n); intros
               end
           end. lia.
  - intros Hlong. apply Nat.leb_le in Hlong. rewrite Hlong.
    assert (p <> "") as Hne by (intros ->; apply Nat.leb_le in Hlong; simpl in Hlong; lia).
    pose proof (some_class p Hne) as Hclass.
    destruct (test isOther p), (test isUpperAz p), (test isLower p), (test isDigit p);
      simpl in *; try lia; discriminate.
  - intros Hne. pose proof (some_class p Hne) as Hclass.
    destruct (test isOther p), (test isUpperAz p), (test isLower p), (test isDigit p),
      (8 <=? String.length p)%nat; simpl in *; try lia; discriminate.
Qed.

(** X23: the form is accepted exactly when both names and the email
    are not blank, the email has an "@", the password has at least
    eight code units and equals its confirmation, and the terms are
    agreed.  For an accepted form the user name sent is the part of the
    email before its first "@", without any "@" in it, and the password
    is never rated "Weak". *)
Theorem registration_accepts (formData : FormData) (agreedToTerms : bool) :
  (validateForm formData agreedToTerms = None
   <-> trim (first_name formData) <> "" /\ trim (last_name formData) <> ""
       /\ trim (email formData) <> ""
       /\ Spec.occursIn "@" (email formData)
       /\ (8 <= String.length (password formData))%nat
       /\ password formData = confirmPassword formData
       /\ agreedToTerms = true)
  /\ (validateForm formData agreedToTerms = None ->
      (exists rest : string,
          email formData = username formData ++ "@" ++ rest)
      /\ includes (username formData) "@" = false
      /\ (2 <= passwordStrength (password formData) <= 5)%nat
      /\ fst (getPasswordStrengthText (passwordStrength (password formData)))
         <> "Weak").
Proof.
  assert (validateForm formData agreedToTerms = None
          <-> trim (first_name formData) <> "" /\ trim (last_name formData) <> ""
              /\ trim (email formData) <> ""
              /\ Spec.occursIn "@" (email formData)
              /\ (8 <= String.length (password formData))%nat
              /\ password formData = confirmPassword formData
              /\ agreedToTerms = true) as Hiff.
  { unfold validateForm. rewrite <- includes_iff_occurs.
    destruct (String.eqb (trim (first_name formData)) "") eqn:E1;
      [apply String.eqb_eq in E1; split; [discriminate | tauto]|].
    destruct (String.eqb (trim (last_name formData)) "") eqn:E2;
      [apply String.eqb_eq in E2; split; [discriminate | tauto]|].
    destruct (String.eqb (trim (email formData)) "") eqn:E3;
      [apply String.eqb_eq in E3; split; [discriminate | tauto]|].
    apply String.eqb_neq in E1, E2, E3.
    destruct (includes (email formData) "@") eqn:E4; cbn [negb];
      [|split; [discriminate | intros (_ & _ & _ & H & _); discriminate]].
    destruct (String.eqb (password formData) "") eqn:E5.
    { apply String.eqb_eq in E5. split; [discriminate|].
      intros (_ & _ & _ & _ & H & _). rewrite E5 in H. simpl in H. lia. }
    destruct (String.length (password formData) <? 8)%nat eqn:E6.
    { apply Nat.ltb_lt in E6. split; [discriminate|].
      intros (_ & _ & _ & _ & H & _). lia. }
    apply Nat.ltb_ge in E6.
    destruct (String.eqb (password formData) (confirmPassword formData)) eqn:E7;
      cbn [negb].
    - apply String.eqb_eq in E7. destruct agreedToTerms; cbn [negb].
      + tauto.
      + split; [discriminate | intros (_ & _ & _ & _ & _ & _ & H); discriminate].
    - apply String.eqb_neq in E7. split; [discriminate | tauto]. }
  split; [assumption|].
  intros Hvalid. apply Hiff in Hvalid as (_ & _ & _ & Hat & Hlong & _ & _).
  apply includes_iff_occurs in Hat. unfold username.
  split; [now apply (beforeFirst_split "@")|].
  split; [apply (beforeFirst_free "@")|].
  destruct (strength_bounds (password formData)) as (Hmax & Hmin & _).
  specialize (Hmin Hlong). split; [lia|].
  destruct (passwordStrength (password formData)) as [|[|[|[|[|[|n]]]]]];
    cbn; try lia; discriminate.
Qed.

(** X24: the strength of a password is a score from 0 to 5, which is 0
    for the empty password only; appending to a password never lowers
    its score; and the score is always rated "Weak", "Medium" or
    "Strong", never by the empty text of the default case. *)
Theorem password_strength_score (password more : string) :
  (passwordStrength password <= 5)%nat
  /\ (passwordStrength password = 0%nat <-> password = "")
  /\ (passwordStrength password <= passwordStrength (password ++ more))%nat
  /\ (fst (getPasswordStrengthText (passwordStrength password)) = "Weak"
      \/ fst (getPasswordStrengthText (passwordStrength password)) = "Medium"
      \/ fst (getPasswordStrengthText (passwordStrength password)) = "Strong").
Proof.
  destruct (strength_bounds password) as (Hmax & _ & Hpos).
  split; [assumption|]. split; [|split].
  - split; [|now intros ->].
    intros Hzero. destruct password as [|c p]; [reflexivity|].
    assert (String c p <> "") as Hne by discriminate. specialize (Hpos Hne). lia.
  - unfold passwordStrength. rewrite !test_app, string_length_app.
    assert (forall (b b' : bool) (n n' : nat),
               (b = true -> b' = true) -> (n <= n')%nat ->
               (bump b n <= bump b' n')%nat) as Hbump.
    { intros [] [] n n' Hb Hn; simpl; try lia.
      all: specialize (Hb eq_refl); discriminate. }
    repeat apply Hbump; try lia;
      try (intros H; rewrite H; reflexivity).
    intros H. apply Nat.leb_le in H. apply Nat.leb_le. lia.
  - destruct (passwordStrength password) as [|[|[|[|[|[|n]]]]]]; cbn; auto. lia.
Qed.

End Registration.

(** ** The report of the detector to the CERT *)

Section DetectorReports.
Import JsString LocalStorage DetectorReport.
Local Open Scope list_scope.

Variable JSON_stringify : Api.DetailItem -> string.



End DetectorReports.

(** ** The quiz game *)

Section Quiz.
Import QuizGame.
Local Open Scope list_scope.

Lemma reachable_steps (events : list Event) (st : State) :
  reachable st -> reachable (fold_left step events st).
Proof.
  revert st. induction events as [|e events IH]; intros st Hst; [assumption|].
  simpl. apply IH. now apply reachable_step.
Qed.

Lemma correctRun_le (answers : list Answer) :
  (correctRun answers <= length (List.filter isCorrect answers))%nat.
Proof.
  induction answers as [|a answers IH]; simpl; [lia|].
  destruct (isCorrect a); simpl; lia.
Qed.

Lemma filter_length_rev {A : Type} (f : A -> bool) (l : list A) :
  length (List.filter f (rev l)) = length (List.filter f l).
Proof.
  induction l as [|a l IH]; [reflexivity|].
  simpl. rewrite List.filter_app, List.length_app, IH. simpl.
  destruct (f a); simpl; lia.
Qed.

Lemma filter_length_le {A : Type} (f : A -> bool) (l : list A) :
  (length (List.filter f l) <= length l)%nat.
Proof.
  induction l as [|a l IH]; simpl; [lia|]. destruct (f a); simpl; lia.
Qed.

Lemma filter_length_split {A : Type} (f : A -> bool) (l : list A) :
  (length (List.filter f l) + length (List.filter (fun a => negb (f a)) l)
   = length l)%nat.
Proof.
  induction l as [|a l IH]; simpl; [lia|]. destruct (f a); simpl; lia.
Qed.

(** What holds in every state of the game. *)
Lemma quiz_invariant (st : State) :
  reachable st ->
  (gameState st = Menu -> st = initial)
  /\ (currentQuestion st < length questions)%nat
  /\ length (userAnswers st)
     = (currentQuestion st + if showFeedback st then 1 else 0)%nat
  /\ (gameState st = Result ->
      S (currentQuestion st) = length questions /\ showFeedback st = true)
  /\ score st = length (List.filter isCorrect (userAnswers st))
  /\ streak st = correctRun (rev (userAnswers st))
  /\ (forall (i : nat) (a : Answer),
         userAnswers st !! i = Some a ->
         questions !! i = Some (question a)
         /\ isCorrect a = (userAnswer a =? correctAnswer (question a))%nat
         /\ (userAnswer a < options (question a))%nat).
Proof.
  assert (forall st' : State,
             st' = initial \/ st' = startGame initial ->
             (gameState st' = Menu -> st' = initial)
             /\ (currentQuestion st' < length questions)%nat
             /\ length (userAnswers st')
                = (currentQuestion st' + if showFeedback st' then 1 else 0)%nat
             /\ (gameState st' = Result ->
                 S (currentQuestion st') = length questions
                 /\ showFeedback st' = true)
             /\ score st' = length (List.filter isCorrect (userAnswers st'))
             /\ streak st' = correctRun (rev (userAnswers st'))
             /\ (forall (i : nat) (a : Answer),
                    userAnswers st' !! i = Some a ->
                    questions !! i = Some (question a)
                    /\ isCorrect a
                       = (userAnswer a =? correctAnswer (question a))%nat
                    /\ (userAnswer a < options (question a))%nat)) as Hfresh.
  { intros st' [-> | ->]; cbn.
    all: split; [intros H; first [reflexivity | discriminate H]|].
    all: split; [lia|]. all: split; [reflexivity|].
    all: split; [discriminate|]. all: split; [reflexivity|].
    all: split; [reflexivity|]. all: intros i a H; inversion H. }
  induction 1 as [|st e Hst IH]; [apply Hfresh; now left|].
  unfold step. destruct (offered st e) eqn:Hoff; [|assumption].
  destruct IH as (Hmenu & Hcur & Hlen & Hres & Hscore & Hstreak & Hentries).
  unfold offered in Hoff.
  destruct (gameState st) eqn:Hgame, e; try discriminate; cbn [handle].
  - (* Start Quiz! *)
    rewrite (Hmenu eq_refl). apply Hfresh. now right.
  - (* an answer *)
    apply andb_true_iff in Hoff as [Hfeed Hopt].
    apply negb_true_iff in Hfeed.
    unfold handleAnswerSelect. rewrite Hfeed in *.
    destruct (questions !! currentQuestion st) as [q|] eqn:Hq; [|discriminate].
    apply Nat.ltb_lt in Hopt. cbn.
    rewrite Hgame, List.filter_app, !List.length_app, rev_app_distr. cbn.
    split; [discriminate|]. split; [assumption|]. split; [lia|].
    split; [discriminate|]. split; [|split].
    + destruct (answerIndex =? correctAnswer q)%nat; cbn; lia.
    + destruct (answerIndex =? correctAnswer q)%nat; cbn; lia.
    + intros i a Hi.
      destruct (Nat.lt_ge_cases i (length (userAnswers st))) as [Hlt|Hge].
      * rewrite lookup_app_l in Hi by assumption. now apply Hentries.
      * rewrite lookup_app_r in Hi by assumption.
        destruct (i - length (userAnswers st))%nat as [|k] eqn:Hk;
          [|destruct k; discriminate].
        injection Hi as <-. cbn.
        replace i with (currentQuestion st) by lia. auto.
  - (* the next question, or the result *)
    unfold nextQuestion. rewrite Hoff in *.
    destruct (currentQuestion st <? length questions - 1)%nat eqn:Hlast; cbn;
      change (length questions) with 8%nat in *.
    + apply Nat.ltb_lt in Hlast. rewrite Hgame.
      split; [discriminate|]. split; [lia|]. split; [lia|].
      split; [discriminate|]. auto.
    + apply Nat.ltb_ge in Hlast.
      split; [discriminate|]. split; [assumption|]. split; [assumption|].
      split; [intros _; split; [lia | reflexivity]|]. auto.
  - (* Play Again *)
    apply Hfresh. now left.
Qed.

(** X26: in every state of the quiz the score is the number of the
    correct answers recorded so far and the streak is the number of
    correct answers in a row at their end, so that the streak never
    exceeds the score, nor the score the number of answers, nor that
    the number of questions.  The answer recorded at a position is an
    answer to the question at that position, one of its options, marked
    correct exactly when it is the right one. *)
Theorem quiz_keeps_score (st : State) :
  reachable st ->
  score st = length (List.filter isCorrect (userAnswers st))
  /\ streak st = correctRun (rev (userAnswers st))
  /\ (streak st <= score st <= length (userAnswers st))%nat
  /\ (length (userAnswers st) <= length questions)%nat
  /\ (forall (i : nat) (a : Answer),
         userAnswers st !! i = Some a ->
         questions !! i = Some (question a)
         /\ isCorrect a = (userAnswer a =? correctAnswer (question a))%nat
         /\ (userAnswer a < options (question a))%nat).
Proof.
  intros Hst.
  destruct (quiz_invariant st Hst)
    as (_ & Hcur & Hlen & _ & Hscore & Hstreak & Hentries).
  split; [assumption|]. split; [assumption|]. split; [|split; [|assumption]].
  - rewrite Hstreak, Hscore. split.
    + rewrite <- (filter_length_rev isCorrect). apply correctRun_le.
    + apply filter_length_le.
  - rewrite Hlen. destruct (showFeedback st); lia.
Qed.

Lemma quiz_keeps_score_witness :
  let st := fold_left step
              [StartGame; AnswerSelect 1; NextQuestion; AnswerSelect 1;
               NextQuestion; AnswerSelect 0; NextQuestion; AnswerSelect 1]
              initial in
  score st = 3%nat /\ streak st = 1%nat /\ length (userAnswers st) = 4%nat
  /\ score st = length (List.filter isCorrect (userAnswers st))
  /\ streak st = correctRun (rev (userAnswers st)).
Proof.
  intros st.
  split; [reflexivity|]. split; [reflexivity|]. split; [reflexivity|].
  assert (reachable st) as Hst by apply reachable_steps, reachable_initial.
  destruct (quiz_keeps_score st Hst) as (Hscore & Hstreak & _).
  split; assumption.
Defined.

(** X27: the screen of the result comes only after an answer to each of
    the eight questions, so that its count "Questions Answered" is the
    number of answers recorded, its count of incorrect answers is the
    number of the answers marked wrong and its percentage lies between
    0 and 100.  Only a game without a wrong answer earns the first
    message and the rank "Safety Expert"; the second message stands for
    six or seven correct answers and the third for four or five. *)
Theorem quiz_result_screen (st : State) :
  reachable st -> gameState st = Result ->
  questionsAnswered st = length (userAnswers st)
  /\ incorrectAnswers st
     = Z.of_nat (length (List.filter (fun a => negb (isCorrect a)) (userAnswers st)))
  /\ (0 <= percentage st <= 100)%Z
  /\ (percentage st = 100%Z <-> score st = length questions)
  /\ (getMotivationalMessage (score st) (length questions) = Amazing
      <-> score st = length questions)
  /\ (name (getCurrentRank (score st)) = "Safety Expert"
      <-> score st = length questions)
  /\ (getMotivationalMessage (score st) (length questions) = GreatJob
      <-> (6 <= score st <= 7)%nat)
  /\ (getMotivationalMessage (score st) (length questions) = GoodWork
      <-> (4 <= score st <= 5)%nat).
Proof.
  intros Hst Hgame.
  destruct (quiz_invariant st Hst)
    as (_ & Hcur & Hlen & Hres & Hscore & _ & _).
  destruct (Hres Hgame) as [Hlast Hfeed]. rewrite Hfeed in Hlen.
  assert (length (userAnswers st) = length questions) as Hall by lia.
  pose proof (filter_length_split isCorrect (userAnswers st)) as Hsplit.
  pose proof (filter_length_le isCorrect (userAnswers st)) as Hle.
  rewrite <- Hscore in Hsplit, Hle.
  split; [unfold questionsAnswered; now rewrite Hall|].
  split; [unfold incorrectAnswers; lia|].
  unfold percentage. rewrite Hall in Hle. change (length questions) with 8%nat in *.
  destruct (score st) as [|[|[|[|[|[|[|[|[|n]]]]]]]]]; try lia;
    (split; [vm_compute; split; discriminate|]);
    repeat (split; [vm_compute; split; intros Hside;
                    first [reflexivity | discriminate Hside | lia]|]);
    vm_compute; split; intros Hside;
    first [reflexivity | discriminate Hside | lia].
Qed.

Lemma quiz_result_screen_witness :
  let st := fold_left step
              [StartGame; AnswerSelect 1; NextQuestion; AnswerSelect 1;
               NextQuestion; AnswerSelect 1; NextQuestion; AnswerSelect 1;
               NextQuestion; AnswerSelect 1; NextQuestion; AnswerSelect 2;
               NextQuestion; AnswerSelect 3; NextQuestion; AnswerSelect 0;
               NextQuestion]
              initial in
  gameState st = Result /\ score st = 7%nat
  /\ questionsAnswered st = length (userAnswers st)
  /\ (getMotivationalMessage (score st) (length questions) = GreatJob
      <-> (6 <= score st <= 7)%nat).
Proof.
  intros st.
  split; [reflexivity|]. split; [reflexivity|].
  assert (reachable st) as Hst by apply reachable_steps, reachable_initial.
  destruct (quiz_result_screen st Hst eq_refl)
    as (Hanswered & _ & _ & _ & _ & _ & Hgreat & _).
  split; assumption.
Defined.

(** X28: the rank of a score is a rank of the table, the highest one
    whose minimum the score reaches; the fallback to the first rank is
    never needed, since the first rank asks for nothing. *)
Theorem rank_is_highest_reached (score : nat) :
  getCurrentRank score ∈ ranks
  /\ (min (getCurrentRank score) <= score)%nat
  /\ (forall rank : Rank,
         rank ∈ ranks -> (min rank <= score)%nat ->
         (min rank <= min (getCurrentRank score))%nat)
  /\ List.find (fun rank => (min rank <=? score)%nat) (rev ranks)
     = Some (getCurrentRank score).
Proof.
  assert (forall P : Rank -> Prop,
             P (mkRank "Beginner" 0 "text-green-600") ->
             P (mkRank "Learning" 2 "text-blue-600") ->
             P (mkRank "Getting Good" 4 "text-purple-600") ->
             P (mkRank "Scam Spotter" 6 "text-orange-600") ->
             P (mkRank "Safety Expert" 8 "text-yellow-600") ->
             forall rank : Rank, rank ∈ ranks -> P rank) as Hranks.
  { intros P H0 H1 H2 H3 H4 rank Hin. unfold ranks in Hin.
    repeat (apply elem_of_cons in Hin as [->|Hin]; [assumption|]).
    inversion Hin. }
  destruct (Nat.le_gt_cases 8 score) as [Hbig|Hsmall].
  - assert (getCurrentRank score = mkRank "Safety Expert" 8 "text-yellow-600")
      as Hrank.
    { unfold getCurrentRank. cbn [ranks rev app List.find min].
      now rewrite (proj2 (Nat.leb_le 8 score) Hbig). }
    rewrite Hrank. split; [|split; [|split]].
    + unfold ranks. set_solver.
    + cbn. lia.
    + intros rank Hin _. revert rank Hin. apply Hranks; cbn; lia.
    + cbn [ranks rev app List.find min].
      now rewrite (proj2 (Nat.leb_le 8 score) Hbig).
  - destruct score as [|[|[|[|[|[|[|[|score]]]]]]]]; try lia.
    all: split; [vm_compute; set_solver|].
    all: split; [vm_compute; lia|].
    all: split; [|reflexivity].
    all: match goal with
         | |- forall rank : Rank, rank ∈ ranks -> @?P rank => apply (Hranks P)
         end; vm_compute; lia.
Qed.

End Quiz.

(** ** The two scales of the score of a scan *)

Section DashboardScale.
Import Dashboard.

Lemma dashboard_bands (result : UrlScanResult) :
  ((risk_score result < 3 # 10)%Q
   /\ getRiskColor (risk_score result) = "#10b981"
   /\ getRiskBgColor (risk_score result) = "#d1fae5"
   /\ riskLabel result = "Low Risk")
  \/ ((3 # 10 <= risk_score result < 7 # 10)%Q
      /\ getRiskColor (risk_score result) = "#f59e0b"
      /\ getRiskBgColor (risk_score result) = "#fef3c7"
      /\ riskLabel result = "Medium Risk")
  \/ ((7 # 10 <= risk_score result)%Q
      /\ getRiskColor (risk_score result) = "#ef4444"
      /\ getRiskBgColor (risk_score result) = "#fee2e2"
      /\ riskLabel result = "High Risk").
Proof.
  unfold getRiskColor, getRiskBgColor, riskLabel, ltb, geb.
  destruct (Qle_bool (7 # 10) (risk_score result)) eqn:E7.
  - right; right. apply Qle_bool_iff in E7.
    assert (Qle_bool (3 # 10) (risk_score result) = true) as ->.
    { apply Qle_bool_iff. apply Qle_trans with (7 # 10); [discriminate | assumption]. }
    cbn. auto.
  - assert (risk_score result < 7 # 10)%Q as H7.
    { apply Qnot_le_lt. intros H. apply Qle_bool_iff in H. congruence. }
    destruct (Qle_bool (3 # 10) (risk_score result)) eqn:E3.
    + right; left. apply Qle_bool_iff in E3. cbn. auto.
    + left. cbn. repeat split.
      apply Qnot_le_lt. intros H. apply Qle_bool_iff in H. congruence.
Qed.

(** X29: the dashboard and the detector keep the same number of the
    answer of [scansAPI.createScan] as the score, but the dashboard
    reads it as a fraction, with the cuts 0.3 and 0.7, where the
    detector reads it as a percentage, with the cuts 30 and 70.  On the
    dashboard the colour, the background and the label always name the
    same band, which is the band of the detector for a hundred times
    the score; a score from 0.7 up to but not including 30 is "High
    Risk" in red on the dashboard and green in the detector.  The
    percentage of the dashboard is [Math.round] of a hundred times the
    score, the product being that of doubles: for a score from 0 to 1
    it is within a half, and the rounding of the product, of a hundred
    times the score, the score 0.575 is written as 57%, and a score
    from 1 on gives 100% or more. *)
Theorem dashboard_reads_fractions (searchUrl : string)
        (scanResult : PhishingDetector.Response) :
  let shown := urlScanResultOf searchUrl scanResult in
  let result := PhishingDetector.resultOfScan scanResult in
  risk_score shown = PhishingDetector.risk_score result
  /\ (((risk_score shown < 3 # 10)%Q
       /\ getRiskColor (risk_score shown) = "#10b981"
       /\ getRiskBgColor (risk_score shown) = "#d1fae5"
       /\ riskLabel shown = "Low Risk"
       /\ PhishingDetector.getRiskColor (risk_score shown * 100) = "text-green-600")
      \/ ((3 # 10 <= risk_score shown < 7 # 10)%Q
          /\ getRiskColor (risk_score shown) = "#f59e0b"
          /\ getRiskBgColor (risk_score shown) = "#fef3c7"
          /\ riskLabel shown = "Medium Risk"
          /\ PhishingDetector.getRiskColor (risk_score shown * 100)
             = "text-yellow-600")
      \/ ((7 # 10 <= risk_score shown)%Q
          /\ getRiskColor (risk_score shown) = "#ef4444"
          /\ getRiskBgColor (risk_score shown) = "#fee2e2"
          /\ riskLabel shown = "High Risk"
          /\ PhishingDetector.getRiskColor (risk_score shown * 100)
             = "text-red-600"))
  /\ ((7 # 10 <= risk_score shown < 30)%Q ->
      riskLabel shown = "High Risk"
      /\ getRiskColor (risk_score shown) = "#ef4444"
      /\ PhishingDetector.getRiskColor (PhishingDetector.risk_score result)
         = "text-green-600")
  /\ shownPercent shown = Home.Math_round (barWidth shown)
  /\ ((0 <= JsNumber.number (risk_score shown) <= 1)%Q ->
      (0 <= barWidth shown <= 100)%Q
      /\ (Qabs (barWidth shown - JsNumber.number (risk_score shown) * 100)
          <= JsNumber.pow2 (-47))%Q
      /\ (0 <= shownPercent shown <= 100)%Z
      /\ (JsNumber.number (risk_score shown) * 100 - (1 # 2)
          - JsNumber.pow2 (-47)
          < inject_Z (shownPercent shown)
          <= JsNumber.number (risk_score shown) * 100 + (1 # 2)
             + JsNumber.pow2 (-47))%Q)
  /\ ((1 <= JsNumber.number (risk_score shown))%Q ->
      (100 <= shownPercent shown)%Z /\ (100 <= barWidth shown)%Q)
  /\ ((risk_score shown == 0.575)%Q -> shownPercent shown = 57%Z).
Proof.
  cbv zeta.
  set (shown := urlScanResultOf searchUrl scanResult).
  assert (risk_score shown
          = PhishingDetector.risk_score (PhishingDetector.resultOfScan scanResult))
    as Hsame by reflexivity.
  split; [assumption|]. rewrite <- Hsame.
  pose proof (dashboard_bands shown) as Hbands.
  pose proof (getRiskColor_cases (risk_score shown * 100)) as Hhundred.
  pose proof (getRiskColor_cases (risk_score shown)) as Hplain.
  remember (risk_score shown) as s eqn:Hshown. clear Hsame.
  split; [|split].
  - destruct Hbands as [(Hs & Hc & Hb & Hl) | [(Hs & Hc & Hb & Hl) | (Hs & Hc & Hb & Hl)]];
      [left | right; left | right; right];
      (split; [assumption|]); (split; [assumption|]); (split; [assumption|]);
      (split; [assumption|]);
      destruct Hhundred as [(Hh & Hhc & _) | [(Hh & Hhc & _) | (Hh & Hhc & _)]];
      try assumption; exfalso; revert Hs Hh; clear;
      destruct s as [n d]; unfold Qlt, Qle; cbn; lia.
  - intros Hmid.
    destruct Hbands as [(Hs & _) | [(Hs & _) | (Hs & Hc & Hb & Hl)]];
      [exfalso; revert Hs Hmid; clear; destruct s as [n d]; unfold Qlt, Qle; cbn; lia ..|].
    split; [assumption|]. split; [assumption|].
    destruct Hplain as [(_ & Hpc & _) | [(Hp & _) | (Hp & _)]]; [assumption|..];
      exfalso; revert Hp Hmid; clear; destruct s as [n d]; unfold Qlt, Qle; cbn; lia.
  - split; [reflexivity|]. unfold shownPercent, barWidth, JsNumber.mul.
    rewrite <- Hshown. set (score := JsNumber.number s).
    assert (JsNumber.round 100 == 100)%Q as H100 by (vm_compute; reflexivity).
    split.
    + intros Hfraction.
      destruct (mul_hundred_near score Hfraction) as (Hbar & Hnear).
      split; [assumption|]. split; [assumption|].
      pose proof (Math_round_near (JsNumber.round (score * 100))) as [Hm1 Hm2].
      apply Qabs_Qle_condition in Hnear as [Hn1 Hn2].
      split; [|split; lra].
      split.
      * apply (Z.le_trans _ (Home.Math_round 0));
          [vm_compute; discriminate | apply Math_round_le; lra].
      * apply (Z.le_trans _ (Home.Math_round 100));
          [apply Math_round_le; lra | vm_compute; discriminate].
    + split.
      * intros Hone.
        assert (100 <= JsNumber.round (score * 100))%Q as Hbar.
        { apply Qle_trans with (JsNumber.round 100); [lra | apply round_le; lra]. }
        split; [|assumption].
        apply (Z.le_trans _ (Home.Math_round 100));
          [vm_compute; discriminate | now apply Math_round_le].
      * intros Hscore. unfold Home.Math_round.
        assert (JsNumber.round (score * 100)
                == JsNumber.mul (JsNumber.number 0.575) 100)%Q as Hp
          by (apply mul_number_eq; exact Hscore).
        rewrite Hp. vm_compute. reflexivity.
Qed.

End DashboardScale.

(** ** The navigation bar *)

Section NavigationBar.
Import JsString Navigation.
Local Open Scope list_scope.

Lemma prefixes_of_one_string (p q s : string) :
  String.prefix p s = true -> String.prefix q s = true ->
  String.prefix p q = true \/ String.prefix q p = true.
Proof.
  revert q s. induction p as [|a p IH]; intros q s Hp Hq.
  - left. now destruct q.
  - destruct q as [|b q]; [right; reflexivity|].
    destruct s as [|c s]; [discriminate|]. cbn in Hp, Hq |- *.
    destruct (ascii_dec a c) as [->|]; [|discriminate].
    destruct (ascii_dec b c) as [->|]; [|discriminate].
    destruct (ascii_dec c c) as [_|Hne]; [|now contradiction Hne].
    now apply (IH q s).
Qed.

Lemma isActive_root (pathname : string) :
  isActive pathname "/" = true <-> pathname = "/".
Proof.
  unfold isActive. cbn [String.eqb Ascii.eqb Bool.eqb andb negb].
  destruct (String.eqb_spec pathname "/") as [->|Hne]; cbn; [tauto|].
  split; [discriminate | tauto].
Qed.

Lemma isActive_exclusive (pathname : string) (i j : Item) :
  In i navigationItems -> In j navigationItems ->
  isActive pathname (path i) = true -> isActive pathname (path j) = true ->
  i = j.
Proof.
  assert (forall p q : string,
             String.eqb p "/" = false -> String.eqb q "/" = false ->
             String.prefix p q = false -> String.prefix q p = false ->
             isActive pathname p = true -> isActive pathname q = true -> False)
    as Hapart.
  { intros p q Hp Hq Hpq Hqp. unfold isActive, startsWith. rewrite Hp, Hq. cbn.
    destruct (String.prefix p pathname) eqn:Ep; [|discriminate].
    destruct (String.prefix q pathname) eqn:Eq; [|discriminate].
    destruct (prefixes_of_one_string p q pathname Ep Eq); congruence. }
  assert (forall q : string,
             String.eqb q "/" = false -> isActive "/" q = false ->
             isActive pathname "/" = true -> isActive pathname q = true -> False)
    as Hroot.
  { intros q Hq Hno Hi Hj. apply isActive_root in Hi. subst pathname. congruence. }
  unfold navigationItems. cbn [In].
  intros Hi Hj.
  repeat match goal with
         | H : _ \/ _ |- _ => destruct H as [H|H]
         | H : False |- _ => destruct H
         end; subst i j; cbn [path]; intros Ei Ej; try reflexivity; exfalso;
    lazymatch type of Ei with
    | isActive _ ?p = true =>
        lazymatch type of Ej with
        | isActive _ ?q = true =>
            first [ exact (Hapart p q eq_refl eq_refl eq_refl eq_refl Ei Ej)
                  | exact (Hroot q eq_refl eq_refl Ei Ej)
                  | exact (Hroot p eq_refl eq_refl Ej Ei) ]
        end
    end.
Qed.

Lemma filter_at_most_one {A : Type} (f : A -> bool) (l : list A) :
  List.NoDup l ->
  (forall x y : A, In x l -> In y l -> f x = true -> f y = true -> x = y) ->
  (length (List.filter f l) <= 1)%nat.
Proof.
  intros Hnodup Hone.
  assert (List.NoDup (List.filter f l)) as Hfiltered by now apply List.NoDup_filter.
  destruct (List.filter f l) as [|a [|b rest]] eqn:E; cbn; try lia.
  exfalso.
  assert (In a (List.filter f l)) as Ha by (rewrite E; cbn; auto).
  assert (In b (List.filter f l)) as Hb by (rewrite E; cbn; auto).
  apply List.filter_In in Ha as [Ha Hfa], Hb as [Hb Hfb].
  pose proof (Hone a b Ha Hb Hfa Hfb) as ->.
  apply List.NoDup_cons_iff in Hfiltered as [Hnotin _]. apply Hnotin. cbn. auto.
Qed.

(** X30: whatever the address of the page, the menu marks at most one
    of its entries as active, and on the page of an entry it marks that
    entry and no other; the entry "Home" is marked on the address "/"
    only, and the entry "Dashboard" is in the menu of an authenticated
    visitor only. *)
Theorem menu_marks_one_entry (isAuthenticated : bool) (pathname : string) :
  (length (activeItems isAuthenticated pathname) <= 1)%nat
  /\ (forall item : Item,
         In item (filteredNavigationItems isAuthenticated) ->
         activeItems isAuthenticated (path item) = [item])
  /\ (isActive pathname "/" = true <-> pathname = "/")
  /\ (In (mkItem "Dashboard" "/dashboard" true)
         (filteredNavigationItems isAuthenticated)
      <-> isAuthenticated = true).
Proof.
  split; [|split; [|split]].
  - unfold activeItems. apply filter_at_most_one.
    + apply List.NoDup_filter. unfold navigationItems.
      repeat (apply List.NoDup_cons;
              [cbn; intros H; repeat destruct H as [H|H];
               first [discriminate H | contradiction H]|]).
      apply List.NoDup_nil.
    + intros x y Hx Hy.
      apply List.filter_In in Hx as [Hx _], Hy as [Hy _].
      now apply isActive_exclusive.
  - intros item Hin. destruct isAuthenticated; cbn in Hin;
      repeat destruct Hin as [Hin|Hin]; subst; try contradiction; reflexivity.
  - apply isActive_root.
  - destruct isAuthenticated; cbn; split; intros H; try reflexivity; auto;
      repeat destruct H as [H|H]; try discriminate; contradiction.
Qed.

End NavigationBar.
